(** * MetaApi SDK: terminal state mirror and websocket RPC client

    A shallow embedding of [lib/metaApi/terminalState.es6] (class
    [TerminalState]) and of the request/response part of the websocket
    client ([MetaApiWebsocketClient]).

    - JavaScript numbers are IEEE-754 binary64 values: Rocq's primitive
      floats, with [Math.round] and [Number.prototype.toFixed] computed
      exactly from the binary representation.
    - JavaScript objects are property lists in insertion order.
    - Arrays and objects that the code shares between the per-instance
      states and the combined state, and mutates in place, live in a
      store and are named by their location.
    - What the code takes from outside ([Math.pow], the printing of
      numbers and dates, [randomstring], [new Date(string)]) is a class of
      operations; [Engine], [Example] and [ClientExample] give the
      instances the closed examples run with. *)

From Stdlib Require Import ZArith Lia String Ascii List DecimalString.
From Stdlib Require Import Sorting.Sorted Sorting.Permutation.
From Stdlib Require Import Uint63.
From Stdlib Require Import Floats.PrimFloat Floats.FloatOps Floats.SpecFloat.
From Stdlib Require Floats.FloatAxioms.
From stdpp Require Import base option list gmap strings.

Set Warnings "-inexact-float,-register-all".
Set Default Proof Using "Type".

(** ** JavaScript values *)

Module JS.

(** The values the terminal state handles: what [JSON.parse] produces,
    plus [undefined] and [Date] objects (a [Date] is its time value). *)
Inductive value : Type :=
| VUndefined
| VNull
| VBool (b : bool)
| VNum (x : float)
| VStr (s : string)
| VDate (t : float)
| VArr (items : list value)
| VObj (props : list (string * value)).

(** A JavaScript object used as a dictionary: its own properties, in
    insertion order.  (Keys that spell array indices, which JavaScript
    enumerates first, are not keys of the dictionaries modelled here,
    and neither is [__proto__], which an assignment does not add.) *)
Definition dict (A : Type) : Type := list (string * A).

(** [d[k]]: [None] when the property is absent. *)
Fixpoint dict_get {A} (k : string) (d : dict A) : option A :=
  match d with
  | [] => None
  | (k', v) :: d' => if String.eqb k k' then Some v else dict_get k d'
  end.

(** [d[k] = v]: an existing property keeps its place, a new one goes last. *)
Fixpoint dict_set {A} (k : string) (v : A) (d : dict A) : dict A :=
  match d with
  | [] => [(k, v)]
  | (k', v') :: d' =>
      if String.eqb k k' then (k, v) :: d' else (k', v') :: dict_set k v d'
  end.

(** [delete d[k]]. *)
Definition dict_delete {A} (k : string) (d : dict A) : dict A :=
  List.filter (fun kv => negb (String.eqb k (fst kv))) d.

(** The names of the properties of [Object.prototype], which an object
    made by [{}] inherits: under each of them a read that finds no own
    property finds a function, and under [__proto__] the prototype
    itself.  All of them are truthy. *)
Definition Object_prototype : list string :=
  ["constructor"; "__defineGetter__"; "__defineSetter__"; "hasOwnProperty";
   "__lookupGetter__"; "__lookupSetter__"; "isPrototypeOf"; "propertyIsEnumerable";
   "toString"; "valueOf"; "__proto__"; "toLocaleString"].

Definition inherited (k : string) : bool := existsb (String.eqb k) Object_prototype.

(** What a read [d[k]] finds in a dictionary made by [{}]: an own
    property, or the member of [Object.prototype] of that name. *)
Inductive found (A : Type) : Type :=
| Own (v : A)
| Inherited (name : string).

Arguments Own {A} v.
Arguments Inherited {A} name.

(** [d[k]] through the prototype: [None] is [undefined]. *)
Definition dict_read {A} (k : string) (d : dict A) : option (found A) :=
  match dict_get k d with
  | Some v => Some (Own v)
  | None => if inherited k then Some (Inherited k) else None
  end.

(** What was found, for the reads of its fields by the code, which asks a
    specification for its [digits] and [tickSize] and a price for its
    [bid], [ask], [profitTickValue] and [lossTickValue]: a member of
    [Object.prototype] has none of these. *)
Definition found_fields (v : found (dict value)) : dict value :=
  match v with
  | Own o => o
  | Inherited _ => []
  end.

(** [Object.values(d)]. *)
Definition Object_values {A} (d : dict A) : list A := List.map snd d.

(** An object: a dictionary of values. *)
Definition object : Type := dict value.

#[global] Instance value_inhabited : Inhabited value := populate VUndefined.

(** [o.k]: [undefined] when the property is absent. *)
Definition prop_get (k : string) (o : object) : value :=
  default VUndefined (dict_get k o).

Definition prop_set (k : string) (v : value) (o : object) : object :=
  dict_set k v o.

Definition prop_delete (k : string) (o : object) : object :=
  dict_delete k o.

Definition is_undefined (v : value) : bool :=
  match v with VUndefined => true | _ => false end.

(** ToBoolean. *)
Definition truthy (v : value) : bool :=
  match v with
  | VUndefined | VNull => false
  | VBool b => b
  | VNum x => negb (is_zero x || is_nan x)
  | VStr s => negb (String.eqb s EmptyString)
  | VDate _ | VArr _ | VObj _ => true
  end.

(** ToNumber on the values a numeric field can hold.  The type definitions
    of the SDK declare these fields [Number]; a field that is missing
    reads [undefined], which converts to [NaN].  Strings and objects in a
    numeric field are outside the type definitions and read as [NaN]. *)
Definition toNumber (v : value) : float :=
  match v with
  | VNum x => x
  | VNull => zero
  | VBool b => if b then one else zero
  | VDate t => t
  | _ => nan
  end.

(** [a === b] on primitives.  Two nested arrays or objects are never the
    same reference here, so they compare unequal. *)
Definition strict_eq (a b : value) : bool :=
  match a, b with
  | VUndefined, VUndefined => true
  | VNull, VNull => true
  | VBool x, VBool y => Bool.eqb x y
  | VNum x, VNum y => PrimFloat.eqb x y
  | VStr x, VStr y => String.eqb x y
  | _, _ => false
  end.

(** [a < b]: strings compare by code units, anything else as numbers.
    (The characters of the model are the bytes of the UTF-8 form, which
    order as the code units do for strings without characters beyond
    U+FFFF.) *)
Definition js_lt (a b : value) : bool :=
  match a, b with
  | VStr x, VStr y => String.ltb x y
  | _, _ => PrimFloat.ltb (toNumber a) (toNumber b)
  end.

Definition is_Some_b {A} (o : option A) : bool :=
  match o with Some _ => true | None => false end.

(** [(v || 0)] read as a number. *)
Definition or_zero (v : value) : float :=
  if truthy v then toNumber v else zero.

(** [Array.prototype.findIndex]; [None] is [-1]. *)
Fixpoint findIndex {A} (f : A -> bool) (l : list A) : option nat :=
  match l with
  | [] => None
  | x :: l' => if f x then Some O else option_map S (findIndex f l')
  end.

(** *** Numbers *)

Definition float_of_Z (n : Z) : float :=
  if (n <? 0)%Z then PrimFloat.opp (of_uint63 (Uint63.of_Z (- n)))
  else of_uint63 (Uint63.of_Z n).

(** [Math.round]: the nearest integer, a tie going up; the sign of a zero
    result is the sign of the argument. *)
Definition Math_round (x : float) : float :=
  match Prim2SF x with
  | S754_finite s m e =>
      if (0 <=? e)%Z then x
      else
        let sm := if s then Z.neg m else Z.pos m in
        let n := ((2 * sm + 2 ^ (- e)) / 2 ^ (1 - e))%Z in
        if (n =? 0)%Z then (if s then neg_zero else zero) else float_of_Z n
  | _ => x
  end.

(** The literal [5 * 60 * 1000]. *)
Definition FIVE_MINUTES : Z := 5 * 60 * 1000.

Definition decimal_of_N (n : N) : string := NilZero.string_of_uint (N.to_uint n).

Fixpoint zeros (n : nat) : string :=
  match n with O => EmptyString | S n' => String "0" (zeros n') end.

(** The value of a finite float as an integer when it is one of the
    integers every double represents exactly ([|n| <= 2^53]). *)
Definition safe_integer (x : float) : option Z :=
  match Prim2SF x with
  | S754_zero _ => Some 0%Z
  | S754_finite s m e =>
      let sm := if s then Z.neg m else Z.pos m in
      if (0 <=? e)%Z then
        let n := (sm * 2 ^ e)%Z in
        if (Z.abs n <=? 2 ^ 53)%Z then Some n else None
      else if (Z.pos m mod 2 ^ (- e) =? 0)%Z then Some (sm / 2 ^ (- e))%Z
      else None
  | _ => None
  end.

(** [Array.prototype.join]. *)
Fixpoint join (sep : string) (l : list string) : string :=
  match l with
  | [] => EmptyString
  | [s] => s
  | s :: l' => s +:+ sep +:+ join sep l'
  end.

(** What the JavaScript engine provides and is taken as given:
    [Math.pow] (which ECMAScript leaves implementation-approximated), the
    shortest round-trip decimal form of a number that is not a safe
    integer, ISO-8601 date formatting, and [Date.prototype.toString],
    which prints in the time zone of the host. *)
Class Runtime : Type := {
  Math_pow : float -> float -> float;
  number_repr : float -> string;
  Date_toISOString : float -> string;
  Date_toString : float -> string
}.

Section WithRuntime.
Context `{Runtime}.

(** Number::toString. *)
Definition Number_toString (x : float) : string :=
  match Prim2SF x with
  | S754_nan => "NaN"
  | S754_zero _ => "0"
  | S754_infinity s => if s then "-Infinity" else "Infinity"
  | S754_finite s _ _ =>
      match safe_integer x with
      | Some n => (if s then "-" else EmptyString) +:+ decimal_of_N (Z.abs_N n)
      | None => number_repr x
      end
  end.

(** [x.toFixed(f)]: [n / 10^f] closest to [|x|], the larger [n] on a tie,
    written with [f] digits after the point. *)
Definition toFixed (x : float) (f : nat) : string :=
  match Prim2SF x with
  | S754_zero _ => "0" +:+ (if f is O then EmptyString else "." +:+ zeros f)
  | S754_finite s m e =>
      if PrimFloat.leb 1e21 (PrimFloat.abs x) then
        (if s then "-" +:+ Number_toString (PrimFloat.abs x) else Number_toString x)
      else
        let p := (10 ^ Z.of_nat f)%Z in
        let n := if (0 <=? e)%Z then (Z.pos m * 2 ^ e * p)%Z
                 else ((2 * Z.pos m * p + 2 ^ (- e)) / 2 ^ (1 - e))%Z in
        let m0 := decimal_of_N (Z.to_N n) in
        let k := String.length m0 in
        let m1 := if (k <=? f)%nat then zeros (f + 1 - k) +:+ m0 else m0 in
        let k1 := String.length m1 in
        (if s then "-" else EmptyString) +:+
        (if f is O then m1
         else String.substring 0 (k1 - f) m1 +:+ "." +:+ String.substring (k1 - f) f m1)
  | _ => Number_toString x
  end.

(** ToString of a property key or of a template-literal hole.  An array
    prints its elements joined by commas, [null] and [undefined] among
    them as nothing; an object, which has come out of [JSON.parse], prints
    as a plain object does. *)
Fixpoint ToString (v : value) : string :=
  match v with
  | VUndefined => "undefined"
  | VNull => "null"
  | VBool b => if b then "true" else "false"
  | VNum x => Number_toString x
  | VStr s => s
  | VDate t => Date_toString t
  | VArr items =>
      join "," (List.map (fun item => match item with
                                      | VUndefined | VNull => EmptyString
                                      | _ => ToString item
                                      end) items)
  | VObj _ => "[object Object]"
  end.

(** *** JSON *)

Definition hex_digit (n : N) : ascii :=
  match n with
  | 0 => "0" | 1 => "1" | 2 => "2" | 3 => "3" | 4 => "4" | 5 => "5" | 6 => "6"
  | 7 => "7" | 8 => "8" | 9 => "9" | 10 => "a" | 11 => "b" | 12 => "c"
  | 13 => "d" | 14 => "e" | _ => "f"
  end%N%char.

(** QuoteJSONString, on the bytes of a UTF-8 string. *)
Fixpoint quote_chars (s : string) : string :=
  match s with
  | EmptyString => EmptyString
  | String c s' =>
      let n := N_of_ascii c in
      (if (n =? 8)%N then "\b"
       else if (n =? 9)%N then "\t"
       else if (n =? 10)%N then "\n"
       else if (n =? 12)%N then "\f"
       else if (n =? 13)%N then "\r"
       else if (n =? 34)%N then "\" +:+ String c EmptyString
       else if (n =? 92)%N then "\\"
       else if (n <? 32)%N then
         "\u00" +:+ String (hex_digit (n / 16)) (String (hex_digit (n mod 16)) EmptyString)
       else String c EmptyString) +:+ quote_chars s'
  end.

Definition dquote : string := String (ascii_of_N 34) EmptyString.

Definition quote (s : string) : string := dquote +:+ quote_chars s +:+ dquote.

(** [JSON.stringify(v)]; [None] is the result [undefined]. *)
Fixpoint JSON_stringify (v : value) : option string :=
  match v with
  | VUndefined => None
  | VNull => Some "null"
  | VBool b => Some (if b then "true" else "false")
  | VNum x => Some (if is_finite x then Number_toString x else "null")
  | VStr s => Some (quote s)
  | VDate t => Some (if is_finite t then quote (Date_toISOString t) else "null")
  | VArr items =>
      Some ("[" +:+ join "," (List.map (fun i => default "null" (JSON_stringify i)) items) +:+ "]")
  | VObj props =>
      Some ("{" +:+
            join "," (omap (fun kv => match JSON_stringify (snd kv) with
                                      | Some s => Some (quote (fst kv) +:+ ":" +:+ s)
                                      | None => None
                                      end) props) +:+ "}")
  end.

(** [JSON.parse(JSON.stringify(v))]: properties holding [undefined] go,
    dates become ISO strings, non-finite numbers become [null], and [-0]
    comes back as [0]. *)
Fixpoint JSON_clone (v : value) : option value :=
  match v with
  | VUndefined => None
  | VNull => Some VNull
  | VBool b => Some (VBool b)
  | VNum x => Some (if is_finite x then VNum (if is_zero x then zero else x) else VNull)
  | VStr s => Some (VStr s)
  | VDate t => Some (if is_finite t then VStr (Date_toISOString t) else VNull)
  | VArr items => Some (VArr (List.map (fun i => default VNull (JSON_clone i)) items))
  | VObj props =>
      Some (VObj (omap (fun kv => match JSON_clone (snd kv) with
                                  | Some v' => Some (fst kv, v')
                                  | None => None
                                  end) props))
  end.

Definition clone_object (o : object) : object :=
  match JSON_clone (VObj o) with
  | Some (VObj o') => o'
  | _ => []
  end.

(** *** Sorting *)

(** [Array.prototype.sort(cmp)], which is stable: insertion from the
    right, an element going before the first one it does not exceed. *)
Fixpoint sort_insert {A} (cmp : A -> A -> Z) (x : A) (l : list A) : list A :=
  match l with
  | [] => [x]
  | y :: l' => if (cmp x y <=? 0)%Z then x :: y :: l' else y :: sort_insert cmp x l'
  end.

Definition Array_sort {A} (cmp : A -> A -> Z) (l : list A) : list A :=
  List.fold_right (sort_insert cmp) [] l.

End WithRuntime.

End JS.

(** ** The engine

    What an ECMAScript engine computes where [JS.Runtime] leaves the
    operation open: the decimal form of numbers and ISO-8601 dates. *)

Module Engine.
Import JS.
#[local] Open Scope Z_scope.

(** *** Number::toString

    For a finite [x] other than zero: the digits [s], as few as possible,
    and the exponent [n] with [s * 10^(n-k)] reading back as [x], the
    closest to [x] when several do. *)

Definition digits_of (n : Z) : string := decimal_of_N (Z.to_N n).

(** [n] with [10^(n-1) <= X/D < 10^n]. *)
Definition magnitude (X D : Z) : Z :=
  if D <=? X then Z.of_nat (String.length (digits_of (X / D)))
  else 1 - Z.of_nat (String.length (digits_of (D / X))).

(** The [k]-digit decimal nearest [X/D] that lies between [LO/D] and
    [HI/D], the bounds counting when the significand is even. *)
Definition candidate (X D LO HI : Z) (closed : bool) (n k : Z) : option Z :=
  let p := n - k in
  let P := 10 ^ Z.max p 0 in
  let Q := 10 ^ Z.max (- p) 0 in
  let s0 := (X * Q) / (D * P) in
  let s1 := s0 + 1 in
  let inside s :=
    let V := s * P * D in
    if closed then (LO * Q <=? V) && (V <=? HI * Q)
    else (LO * Q <? V) && (V <? HI * Q) in
  let distance s := Z.abs (s * P * D - X * Q) in
  match inside s0, inside s1 with
  | true, true =>
      Some (if distance s0 <? distance s1 then s0
            else if distance s1 <? distance s0 then s1
            else if Z.even s0 then s0 else s1)
  | true, false => Some s0
  | false, true => Some s1
  | false, false => None
  end.

Fixpoint shortest (fuel : nat) (X D LO HI : Z) (closed : bool) (n k : Z) : Z * Z :=
  match fuel with
  | O => (0, k)
  | S fuel' =>
      match candidate X D LO HI closed n k with
      | Some s => (s, k)
      | None => shortest fuel' X D LO HI closed n (k + 1)
      end
  end.

(** The digits laid out as Number::toString does. *)
Definition layout (digits : string) (n : Z) : string :=
  let k := Z.of_nat (String.length digits) in
  if (k <=? n) && (n <=? 21) then digits +:+ zeros (Z.to_nat (n - k))
  else if (0 <? n) && (n <=? 21) then
    substring 0 (Z.to_nat n) digits +:+ "." +:+ substring (Z.to_nat n) (Z.to_nat (k - n)) digits
  else if (-6 <? n) && (n <=? 0) then "0." +:+ zeros (Z.to_nat (- n)) +:+ digits
  else
    let exponent := "e" +:+ (if n - 1 <? 0 then "-" else "+") +:+ digits_of (Z.abs (n - 1)) in
    if k =? 1 then digits +:+ exponent
    else substring 0 1 digits +:+ "." +:+ substring 1 (Z.to_nat (k - 1)) digits +:+ exponent.

Definition shortest_repr (x : float) : string :=
  match Prim2SF x with
  | S754_finite sign m e =>
      let sh := Z.max 0 (- e) in
      let unit := 2 ^ (e + sh) in
      let X := 4 * Z.pos m * unit in
      let D := 4 * 2 ^ sh in
      let below := if (Z.pos m =? 2 ^ 52) && (-1074 <? e) then unit else 2 * unit in
      let n := magnitude X D in
      let '(s, k) := shortest 17 X D (X - below) (X + 2 * unit) (Z.even (Z.pos m)) n 1 in
      (if sign then "-" else EmptyString) +:+
      (if s =? 10 ^ k then layout "1" (n + 1) else layout (digits_of s) n)
  | _ => EmptyString
  end.

(** *** Dates

    Days since 1970-01-01 of a day of the proleptic Gregorian calendar,
    and the day of a number of days. *)

Definition days_from_civil (y m d : Z) : Z :=
  let y' := if m <=? 2 then y - 1 else y in
  let era := y' / 400 in
  let yoe := y' - era * 400 in
  let doy := (153 * (if 2 <? m then m - 3 else m + 9) + 2) / 5 + d - 1 in
  let doe := yoe * 365 + yoe / 4 - yoe / 100 + doy in
  era * 146097 + doe - 719468.

Definition civil_from_days (z : Z) : Z * Z * Z :=
  let z := z + 719468 in
  let era := z / 146097 in
  let doe := z - era * 146097 in
  let yoe := (doe - doe / 1460 + doe / 36524 - doe / 146096) / 365 in
  let doy := doe - (365 * yoe + yoe / 4 - yoe / 100) in
  let mp := (5 * doy + 2) / 153 in
  let d := doy - (153 * mp + 2) / 5 + 1 in
  let m := if mp <? 10 then mp + 3 else mp - 9 in
  (yoe + era * 400 + (if m <=? 2 then 1 else 0), m, d).

Definition pad (width : nat) (n : Z) : string :=
  let s := digits_of n in zeros (width - String.length s) +:+ s.

Definition truncate (x : float) : Z :=
  match Prim2SF x with
  | S754_finite s m e =>
      let sm := if s then Z.neg m else Z.pos m in
      if 0 <=? e then sm * 2 ^ e else Z.quot sm (2 ^ (- e))
  | _ => 0
  end.

Definition weekday_name (d : Z) : string :=
  match d mod 7 with
  | 0 => "Sun" | 1 => "Mon" | 2 => "Tue" | 3 => "Wed" | 4 => "Thu" | 5 => "Fri"
  | _ => "Sat"
  end.

Definition month_name (m : Z) : string :=
  match m with
  | 1 => "Jan" | 2 => "Feb" | 3 => "Mar" | 4 => "Apr" | 5 => "May" | 6 => "Jun"
  | 7 => "Jul" | 8 => "Aug" | 9 => "Sep" | 10 => "Oct" | 11 => "Nov" | _ => "Dec"
  end.

(** [Date.prototype.toISOString] of a time value. *)
Definition toISOString (t : float) : string :=
  let ms := truncate t in
  let rest := ms mod 86400000 in
  let '(y, m, d) := civil_from_days (ms / 86400000) in
  (if (0 <=? y) && (y <=? 9999) then pad 4 y
   else (if y <? 0 then "-" else "+") +:+ pad 6 (Z.abs y))
  +:+ "-" +:+ pad 2 m +:+ "-" +:+ pad 2 d
  +:+ "T" +:+ pad 2 (rest / 3600000) +:+ ":" +:+ pad 2 (rest / 60000 mod 60)
  +:+ ":" +:+ pad 2 (rest / 1000 mod 60) +:+ "." +:+ pad 3 (rest mod 1000) +:+ "Z".

(** [Date.prototype.toString] of a time value, on a host in UTC. *)
Definition toString (t : float) : string :=
  if is_finite t then
    let ms := truncate t in
    let day := ms / 86400000 in
    let rest := ms mod 86400000 in
    let '(y, m, d) := civil_from_days day in
    weekday_name (day + 4) +:+ " " +:+ month_name m +:+ " " +:+ pad 2 d +:+ " "
    +:+ (if y <? 0 then "-" else EmptyString) +:+ pad 4 (Z.abs y)
    +:+ " " +:+ pad 2 (rest / 3600000) +:+ ":" +:+ pad 2 (rest / 60000 mod 60)
    +:+ ":" +:+ pad 2 (rest / 1000 mod 60) +:+ " GMT+0000 (Coordinated Universal Time)"
  else "Invalid Date".

Definition digit (c : ascii) : option Z :=
  let n := N_of_ascii c in
  if ((48 <=? n) && (n <=? 57))%N then Some (Z.of_N n - 48) else None.

Fixpoint number (s : string) (acc : Z) : option Z :=
  match s with
  | EmptyString => Some acc
  | String c s' => match digit c with
                   | Some d => number s' (10 * acc + d)
                   | None => None
                   end
  end.

Definition number_at (s : string) (start len : nat) : option Z :=
  number (substring start len s) 0.

Definition days_in_month (y m : Z) : Z :=
  if m =? 2 then
    (if ((y mod 4 =? 0) && negb (y mod 100 =? 0)) || (y mod 400 =? 0) then 29 else 28)
  else if (m =? 4) || (m =? 6) || (m =? 9) || (m =? 11) then 30
  else 31.

(** The time value of a string in the form [toISOString] writes,
    [YYYY-MM-DDTHH:mm:ss.sssZ], which is the form of the times in the
    packets of the examples; [NaN] for any other string, where an engine
    also reads shorter forms, offsets and forms of its own. *)
Definition parse (s : string) : float :=
  match number_at s 0 4, number_at s 5 2, number_at s 8 2, number_at s 11 2,
        number_at s 14 2, number_at s 17 2, number_at s 20 3 with
  | Some y, Some m, Some d, Some h, Some mi, Some sec, Some ms =>
      if (String.length s =? 24)%nat
         && String.eqb (substring 4 1 s) "-" && String.eqb (substring 7 1 s) "-"
         && String.eqb (substring 10 1 s) "T" && String.eqb (substring 13 1 s) ":"
         && String.eqb (substring 16 1 s) ":" && String.eqb (substring 19 1 s) "."
         && String.eqb (substring 23 1 s) "Z"
         && (1 <=? m) && (m <=? 12) && (1 <=? d) && (d <=? days_in_month y m)
         && (h <? 24) && (mi <? 60) && (sec <? 60)
      then float_of_Z ((((days_from_civil y m d * 24 + h) * 60 + mi) * 60 + sec) * 1000 + ms)
      else nan
  | _, _, _, _, _, _, _ => nan
  end.

End Engine.

(** ** MD5

    The digest [crypto.MD5(s).toString()]: RFC 1321 on the bytes of the
    string, printed in lowercase hexadecimal. *)

Module MD5.

Definition mask32 (x : N) : N := N.land x 4294967295.

Definition rotl32 (x : N) (c : N) : N :=
  mask32 (N.lor (N.shiftl x c) (N.shiftr x (32 - c))).

Definition not32 (x : N) : N := N.lxor x 4294967295.

(** [floor(2^32 * |sin(i + 1)|)] for [i] from 0 to 63. *)
Definition K : list N :=
  [
   3614090360; 3905402710; 606105819; 3250441966;
   4118548399; 1200080426; 2821735955; 4249261313;
   1770035416; 2336552879; 4294925233; 2304563134;
   1804603682; 4254626195; 2792965006; 1236535329;
   4129170786; 3225465664; 643717713; 3921069994;
   3593408605; 38016083; 3634488961; 3889429448;
   568446438; 3275163606; 4107603335; 1163531501;
   2850285829; 4243563512; 1735328473; 2368359562;
   4294588738; 2272392833; 1839030562; 4259657740;
   2763975236; 1272893353; 4139469664; 3200236656;
   681279174; 3936430074; 3572445317; 76029189;
   3654602809; 3873151461; 530742520; 3299628645;
   4096336452; 1126891415; 2878612391; 4237533241;
   1700485571; 2399980690; 4293915773; 2240044497;
   1873313359; 4264355552; 2734768916; 1309151649;
   4149444226; 3174756917; 718787259; 3951481745
  ]%N.

Definition S : list N :=
  [7; 12; 17; 22; 7; 12; 17; 22; 7; 12; 17; 22; 7; 12; 17; 22;
   5; 9; 14; 20; 5; 9; 14; 20; 5; 9; 14; 20; 5; 9; 14; 20;
   4; 11; 16; 23; 4; 11; 16; 23; 4; 11; 16; 23; 4; 11; 16; 23;
   6; 10; 15; 21; 6; 10; 15; 21; 6; 10; 15; 21; 6; 10; 15; 21]%N.

(** The message with its padding: one bit, zeros up to 56 modulo 64
    bytes, and the length in bits on eight bytes, least significant first. *)
Definition le_bytes (count : nat) (x : N) : list N :=
  List.map (fun k => N.land (N.shiftr x (8 * N.of_nat k)) 255) (List.seq 0 count).

Definition pad (msg : list N) : list N :=
  let len := length msg in
  let zeros := (55 + 64 - len mod 64) mod 64 in
  msg ++ [128%N] ++ List.repeat 0%N zeros ++ le_bytes 8 (8 * N.of_nat len).

Fixpoint le_word (bytes : list N) : N :=
  match bytes with
  | [] => 0
  | b :: bytes' => b + 256 * le_word bytes'
  end.

Fixpoint words (count : nat) (bytes : list N) : list N :=
  match count with
  | O => []
  | Datatypes.S count' => le_word (List.firstn 4 bytes) :: words count' (List.skipn 4 bytes)
  end.

Fixpoint chunks (count : nat) (bytes : list N) : list (list N) :=
  match count with
  | O => []
  | Datatypes.S count' => words 16 (List.firstn 64 bytes) :: chunks count' (List.skipn 64 bytes)
  end.

Definition round (M : list N) (st : N * N * N * N) (i : nat) : N * N * N * N :=
  let '(A, B, C, D) := st in
  let '(F, g) :=
    if (i <? 16)%nat then (N.lor (N.land B C) (N.land (not32 B) D), i)
    else if (i <? 32)%nat then (N.lor (N.land D B) (N.land (not32 D) C), (5 * i + 1) mod 16)
    else if (i <? 48)%nat then (N.lxor (N.lxor B C) D, (3 * i + 5) mod 16)
    else (N.lxor C (N.lor B (not32 D)), (7 * i) mod 16) in
  let F := mask32 (F + A + List.nth i K 0%N + List.nth g M 0%N)%N in
  (D, mask32 (B + rotl32 F (List.nth i S 0%N)), B, C).

Definition process (st : N * N * N * N) (M : list N) : N * N * N * N :=
  let '(a0, b0, c0, d0) := st in
  let '(A, B, C, D) := List.fold_left (round M) (List.seq 0 64) st in
  (mask32 (a0 + A), mask32 (b0 + B), mask32 (c0 + C), mask32 (d0 + D)).

Definition digest (msg : list N) : list N :=
  let bytes := pad msg in
  let '(a, b, c, d) :=
    List.fold_left process (chunks (length bytes / 64) bytes)
                   (1732584193, 4023233417, 2562383102, 271733878)%N in
  le_bytes 4 a ++ le_bytes 4 b ++ le_bytes 4 c ++ le_bytes 4 d.

Definition hex_byte (b : N) : string :=
  String (JS.hex_digit (b / 16)) (String (JS.hex_digit (b mod 16)) EmptyString).

Definition hex (s : string) : string :=
  List.fold_right (fun b acc => hex_byte b +:+ acc) EmptyString
                  (digest (List.map N_of_ascii (list_ascii_of_string s))).

End MD5.

(** ** The terminal state *)

Module TerminalState.
Import JS.

(** *** The store

    A location names an array or an object that the code may reach from
    more than one place.  The arrays of positions and of orders, the
    position, order and account information objects and the
    [specificationsBySymbol] dictionaries are handed from one state to
    another by reference ([onPendingOrdersSynchronized]) and written in
    place.  Nothing is ever freed. *)
Definition loc : Type := nat.

Record Heap : Type := mkHeap {
  positionArrays : list (list loc);
  positionObjects : list object;
  orderArrays : list (list loc);
  orderObjects : list object;
  accountObjects : list object;
  specificationMaps : list (dict object)
}.

Definition set_positionArrays (v : list (list loc)) (h : Heap) : Heap :=
  mkHeap v (positionObjects h) (orderArrays h) (orderObjects h)
         (accountObjects h) (specificationMaps h).
Definition set_positionObjects (v : list object) (h : Heap) : Heap :=
  mkHeap (positionArrays h) v (orderArrays h) (orderObjects h)
         (accountObjects h) (specificationMaps h).
Definition set_orderArrays (v : list (list loc)) (h : Heap) : Heap :=
  mkHeap (positionArrays h) (positionObjects h) v (orderObjects h)
         (accountObjects h) (specificationMaps h).
Definition set_orderObjects (v : list object) (h : Heap) : Heap :=
  mkHeap (positionArrays h) (positionObjects h) (orderArrays h) v
         (accountObjects h) (specificationMaps h).
Definition set_accountObjects (v : list object) (h : Heap) : Heap :=
  mkHeap (positionArrays h) (positionObjects h) (orderArrays h)
         (orderObjects h) v (specificationMaps h).
Definition set_specificationMaps (v : list (dict object)) (h : Heap) : Heap :=
  mkHeap (positionArrays h) (positionObjects h) (orderArrays h)
         (orderObjects h) (accountObjects h) v.

(** The state kept for one instance index, and the combined state. *)
Record State : Type := mkState {
  connected : bool;
  connectedToBroker : bool;
  accountInformation : option loc;
  positions : loc;
  orders : loc;
  specificationsBySymbol : loc;
  pricesBySymbol : gmap string object;
  completedOrders : gmap string Z;
  removedPositions : gmap string Z;
  ordersInitialized : bool;
  positionsInitialized : bool;
  lastUpdateTime : float
}.

Definition set_connected (v : bool) (s : State) : State :=
  mkState v (connectedToBroker s) (accountInformation s) (positions s) (orders s)
          (specificationsBySymbol s) (pricesBySymbol s) (completedOrders s)
          (removedPositions s) (ordersInitialized s) (positionsInitialized s)
          (lastUpdateTime s).
Definition set_connectedToBroker (v : bool) (s : State) : State :=
  mkState (connected s) v (accountInformation s) (positions s) (orders s)
          (specificationsBySymbol s) (pricesBySymbol s) (completedOrders s)
          (removedPositions s) (ordersInitialized s) (positionsInitialized s)
          (lastUpdateTime s).
Definition set_accountInformation (v : option loc) (s : State) : State :=
  mkState (connected s) (connectedToBroker s) v (positions s) (orders s)
          (specificationsBySymbol s) (pricesBySymbol s) (completedOrders s)
          (removedPositions s) (ordersInitialized s) (positionsInitialized s)
          (lastUpdateTime s).
Definition set_positions (v : loc) (s : State) : State :=
  mkState (connected s) (connectedToBroker s) (accountInformation s) v (orders s)
          (specificationsBySymbol s) (pricesBySymbol s) (completedOrders s)
          (removedPositions s) (ordersInitialized s) (positionsInitialized s)
          (lastUpdateTime s).
Definition set_orders (v : loc) (s : State) : State :=
  mkState (connected s) (connectedToBroker s) (accountInformation s) (positions s) v
          (specificationsBySymbol s) (pricesBySymbol s) (completedOrders s)
          (removedPositions s) (ordersInitialized s) (positionsInitialized s)
          (lastUpdateTime s).
Definition set_specificationsBySymbol (v : loc) (s : State) : State :=
  mkState (connected s) (connectedToBroker s) (accountInformation s) (positions s)
          (orders s) v (pricesBySymbol s) (completedOrders s)
          (removedPositions s) (ordersInitialized s) (positionsInitialized s)
          (lastUpdateTime s).
Definition set_pricesBySymbol (v : gmap string object) (s : State) : State :=
  mkState (connected s) (connectedToBroker s) (accountInformation s) (positions s)
          (orders s) (specificationsBySymbol s) v (completedOrders s)
          (removedPositions s) (ordersInitialized s) (positionsInitialized s)
          (lastUpdateTime s).
Definition set_completedOrders (v : gmap string Z) (s : State) : State :=
  mkState (connected s) (connectedToBroker s) (accountInformation s) (positions s)
          (orders s) (specificationsBySymbol s) (pricesBySymbol s) v
          (removedPositions s) (ordersInitialized s) (positionsInitialized s)
          (lastUpdateTime s).
Definition set_removedPositions (v : gmap string Z) (s : State) : State :=
  mkState (connected s) (connectedToBroker s) (accountInformation s) (positions s)
          (orders s) (specificationsBySymbol s) (pricesBySymbol s)
          (completedOrders s) v (ordersInitialized s) (positionsInitialized s)
          (lastUpdateTime s).
Definition set_ordersInitialized (v : bool) (s : State) : State :=
  mkState (connected s) (connectedToBroker s) (accountInformation s) (positions s)
          (orders s) (specificationsBySymbol s) (pricesBySymbol s)
          (completedOrders s) (removedPositions s) v (positionsInitialized s)
          (lastUpdateTime s).
Definition set_positionsInitialized (v : bool) (s : State) : State :=
  mkState (connected s) (connectedToBroker s) (accountInformation s) (positions s)
          (orders s) (specificationsBySymbol s) (pricesBySymbol s)
          (completedOrders s) (removedPositions s) (ordersInitialized s) v
          (lastUpdateTime s).
Definition set_lastUpdateTime (v : float) (s : State) : State :=
  mkState (connected s) (connectedToBroker s) (accountInformation s) (positions s)
          (orders s) (specificationsBySymbol s) (pricesBySymbol s)
          (completedOrders s) (removedPositions s) (ordersInitialized s)
          (positionsInitialized s) v.

(** The object of class [TerminalState].  [resolved] records, in order,
    the [waitForPrice] promises that [onSymbolPricesUpdated] resolved. *)
Record TerminalState : Type := mkTerminalState {
  stateByInstanceIndex : gmap string State;
  waitForPriceResolves : gmap string (list nat);
  combinedState : State;
  heap : Heap;
  resolved : list nat
}.

Definition set_stateByInstanceIndex (v : gmap string State) (ts : TerminalState) :=
  mkTerminalState v (waitForPriceResolves ts) (combinedState ts) (heap ts) (resolved ts).
Definition set_waitForPriceResolves (v : gmap string (list nat)) (ts : TerminalState) :=
  mkTerminalState (stateByInstanceIndex ts) v (combinedState ts) (heap ts) (resolved ts).
Definition set_combinedState (v : State) (ts : TerminalState) :=
  mkTerminalState (stateByInstanceIndex ts) (waitForPriceResolves ts) v (heap ts) (resolved ts).
Definition set_heap (v : Heap) (ts : TerminalState) :=
  mkTerminalState (stateByInstanceIndex ts) (waitForPriceResolves ts) (combinedState ts) v
                  (resolved ts).
Definition set_resolved (v : list nat) (ts : TerminalState) :=
  mkTerminalState (stateByInstanceIndex ts) (waitForPriceResolves ts) (combinedState ts)
                  (heap ts) v.

(** Which state a step works on: [this._getState(i)] or
    [this._combinedState]. *)
Inductive target : Type :=
| Instance (i : string)
| Combined.

Definition initial_State (p o sp : loc) : State :=
  mkState false false None p o sp ∅ ∅ ∅ false false zero.

#[global] Instance State_inhabited : Inhabited State := populate (initial_State 0 0 0).

#[global] Instance target_eq_dec : EqDecision target.
Proof. solve_decision. Defined.

Definition get_state (tgt : target) (ts : TerminalState) : State :=
  match tgt with
  | Instance i => stateByInstanceIndex ts !!! i
  | Combined => combinedState ts
  end.

Definition put_state (tgt : target) (st : State) (ts : TerminalState) : TerminalState :=
  match tgt with
  | Instance i => set_stateByInstanceIndex (<[i := st]> (stateByInstanceIndex ts)) ts
  | Combined => set_combinedState st ts
  end.

Definition modify_state (tgt : target) (f : State -> State) (ts : TerminalState) :=
  put_state tgt (f (get_state tgt ts)) ts.

(** Reading, writing and allocating in the store. *)
Definition read_positionArray (l : loc) (ts : TerminalState) : list loc :=
  positionArrays (heap ts) !!! l.
Definition write_positionArray (l : loc) (v : list loc) (ts : TerminalState) :=
  set_heap (set_positionArrays (<[l := v]> (positionArrays (heap ts))) (heap ts)) ts.
Definition alloc_positionArray (v : list loc) (ts : TerminalState) : loc * TerminalState :=
  (length (positionArrays (heap ts)),
   set_heap (set_positionArrays (positionArrays (heap ts) ++ [v]) (heap ts)) ts).

Definition read_position (l : loc) (ts : TerminalState) : object :=
  positionObjects (heap ts) !!! l.
Definition write_position (l : loc) (v : object) (ts : TerminalState) :=
  set_heap (set_positionObjects (<[l := v]> (positionObjects (heap ts))) (heap ts)) ts.
Definition alloc_position (v : object) (ts : TerminalState) : loc * TerminalState :=
  (length (positionObjects (heap ts)),
   set_heap (set_positionObjects (positionObjects (heap ts) ++ [v]) (heap ts)) ts).

Definition read_orderArray (l : loc) (ts : TerminalState) : list loc :=
  orderArrays (heap ts) !!! l.
Definition write_orderArray (l : loc) (v : list loc) (ts : TerminalState) :=
  set_heap (set_orderArrays (<[l := v]> (orderArrays (heap ts))) (heap ts)) ts.
Definition alloc_orderArray (v : list loc) (ts : TerminalState) : loc * TerminalState :=
  (length (orderArrays (heap ts)),
   set_heap (set_orderArrays (orderArrays (heap ts) ++ [v]) (heap ts)) ts).

Definition read_order (l : loc) (ts : TerminalState) : object :=
  orderObjects (heap ts) !!! l.
Definition write_order (l : loc) (v : object) (ts : TerminalState) :=
  set_heap (set_orderObjects (<[l := v]> (orderObjects (heap ts))) (heap ts)) ts.
Definition alloc_order (v : object) (ts : TerminalState) : loc * TerminalState :=
  (length (orderObjects (heap ts)),
   set_heap (set_orderObjects (orderObjects (heap ts) ++ [v]) (heap ts)) ts).

Definition read_account (l : loc) (ts : TerminalState) : object :=
  accountObjects (heap ts) !!! l.
Definition write_account (l : loc) (v : object) (ts : TerminalState) :=
  set_heap (set_accountObjects (<[l := v]> (accountObjects (heap ts))) (heap ts)) ts.
Definition alloc_account (v : object) (ts : TerminalState) : loc * TerminalState :=
  (length (accountObjects (heap ts)),
   set_heap (set_accountObjects (accountObjects (heap ts) ++ [v]) (heap ts)) ts).

Definition read_specificationMap (l : loc) (ts : TerminalState) : dict object :=
  specificationMaps (heap ts) !!! l.
Definition write_specificationMap (l : loc) (v : dict object) (ts : TerminalState) :=
  set_heap (set_specificationMaps (<[l := v]> (specificationMaps (heap ts))) (heap ts)) ts.
Definition alloc_specificationMap (v : dict object) (ts : TerminalState)
  : loc * TerminalState :=
  (length (specificationMaps (heap ts)),
   set_heap (set_specificationMaps (specificationMaps (heap ts) ++ [v]) (heap ts)) ts).

(** [constructor()]: no instance states, and a combined state with an
    empty array of positions, an empty array of orders and an empty
    dictionary of specifications of its own. *)
Definition constructor : TerminalState :=
  mkTerminalState ∅ ∅ (initial_State 0 0 0) (mkHeap [[]] [] [[]] [] [] [[]]) [].

(** [_constructTerminalState(instanceIndex)]. *)
Definition _constructTerminalState (ts : TerminalState) : State * TerminalState :=
  let '(p, ts) := alloc_positionArray [] ts in
  let '(o, ts) := alloc_orderArray [] ts in
  let '(sp, ts) := alloc_specificationMap [] ts in
  (initial_State p o sp, ts).

(** [_getState(instanceIndex)]: the state of the instance, made on first
    use.  What it returns is [get_state (Instance i)] of the result. *)
Definition _getState (i : string) (ts : TerminalState) : TerminalState :=
  match stateByInstanceIndex ts !! i with
  | Some _ => ts
  | None =>
      let '(st, ts) := _constructTerminalState ts in
      put_state (Instance i) st ts
  end.

(** *** Getters *)



Definition get_accountInformation (ts : TerminalState) : option loc :=
  accountInformation (combinedState ts).

Definition get_positions (ts : TerminalState) : list loc :=
  read_positionArray (positions (combinedState ts)) ts.

Definition get_orders (ts : TerminalState) : list loc :=
  read_orderArray (orders (combinedState ts)) ts.

Definition get_specifications (ts : TerminalState) : list object :=
  Object_values (read_specificationMap (specificationsBySymbol (combinedState ts)) ts).

(** [specification(symbol)]: read from the combined state, and through
    the prototype of its dictionary. *)
Definition specification (symbol : string) (ts : TerminalState) : option (found object) :=
  dict_read symbol (read_specificationMap (specificationsBySymbol (combinedState ts)) ts).

(** [price(symbol)]. *)
Definition price (symbol : string) (ts : TerminalState) : option object :=
  pricesBySymbol (combinedState ts) !! symbol.

(** The objects a state's array of positions holds, in order. *)
Definition position_objects (tgt : target) (ts : TerminalState) : list object :=
  List.map (fun l => read_position l ts) (read_positionArray (positions (get_state tgt ts)) ts).

Definition order_objects (tgt : target) (ts : TerminalState) : list object :=
  List.map (fun l => read_order l ts) (read_orderArray (orders (get_state tgt ts)) ts).

(** *** Listener callbacks *)

Definition onConnected (i : string) (ts : TerminalState) : TerminalState :=
  modify_state (Instance i) (set_connected true) (_getState i ts).

Definition onDisconnected (i : string) (ts : TerminalState) : TerminalState :=
  modify_state (Instance i) (fun st => set_connectedToBroker false (set_connected false st))
               (_getState i ts).

Definition onBrokerConnectionStatusChanged (i : string) (connected : bool)
    (ts : TerminalState) : TerminalState :=
  modify_state (Instance i) (set_connectedToBroker connected) (_getState i ts).

Definition onSynchronizationStarted (i : string)
    (specificationsUpdated positionsUpdated ordersUpdated : bool)
    (ts : TerminalState) : TerminalState :=
  let ts := _getState i ts in
  let ts := modify_state (Instance i)
              (fun st => set_pricesBySymbol ∅ (set_accountInformation None st)) ts in
  let ts :=
    if positionsUpdated then
      let '(p, ts) := alloc_positionArray [] ts in
      modify_state (Instance i)
        (fun st => set_positionsInitialized false
                     (set_removedPositions ∅ (set_positions p st))) ts
    else ts in
  let ts :=
    if ordersUpdated then
      let '(o, ts) := alloc_orderArray [] ts in
      modify_state (Instance i)
        (fun st => set_ordersInitialized false
                     (set_completedOrders ∅ (set_orders o st))) ts
    else ts in
  if specificationsUpdated then
    let '(sp, ts) := alloc_specificationMap [] ts in
    modify_state (Instance i) (set_specificationsBySymbol sp) ts
  else ts.

(** The same account information object goes to the instance state and
    to the combined state. *)
Definition onAccountInformationUpdated (i : string) (accountInformation : option loc)
    (ts : TerminalState) : TerminalState :=
  let ts := _getState i ts in
  let ts := modify_state (Instance i) (set_accountInformation accountInformation) ts in
  modify_state Combined (set_accountInformation accountInformation) ts.

Definition onPositionsReplaced (i : string) (positions : loc) (ts : TerminalState)
  : TerminalState :=
  modify_state (Instance i) (set_positions positions) (_getState i ts).

Definition onPositionsSynchronized (i : string) (synchronizationId : string)
    (ts : TerminalState) : TerminalState :=
  modify_state (Instance i)
    (fun st => set_positionsInitialized true (set_removedPositions ∅ st))
    (_getState i ts).

Definition onPendingOrdersReplaced (i : string) (orders : loc) (ts : TerminalState)
  : TerminalState :=
  modify_state (Instance i) (set_orders orders) (_getState i ts).

(** The promotion: the combined state takes the instance's account
    information, array of positions, array of orders and dictionary of
    specifications, by reference. *)
Definition onPendingOrdersSynchronized (i : string) (synchronizationId : string)
    (ts : TerminalState) : TerminalState :=
  let ts := _getState i ts in
  let ts := modify_state (Instance i)
              (fun st => set_ordersInitialized true
                           (set_positionsInitialized true (set_completedOrders ∅ st))) ts in
  let state := get_state (Instance i) ts in
  modify_state Combined
    (fun c => set_removedPositions ∅
                (set_completedOrders ∅
                   (set_ordersInitialized true
                      (set_positionsInitialized true
                         (set_specificationsBySymbol (specificationsBySymbol state)
                            (set_orders (orders state)
                               (set_positions (positions state)
                                  (set_accountInformation (accountInformation state) c))))))))
    ts.

Definition onStreamClosed (i : string) (ts : TerminalState) : TerminalState :=
  set_stateByInstanceIndex (delete i (stateByInstanceIndex ts)) ts.

(** Two terminal states with the same instance states and the same
    combined state: they differ in the store or in the price waiters. *)
Definition same_states (ts ts' : TerminalState) : Prop :=
  stateByInstanceIndex ts' = stateByInstanceIndex ts
  /\ combinedState ts' = combinedState ts.

Section WithRuntime.
Context `{Runtime}.

(** [state.removedPositions[id]] as a condition.  A tombstone is a clock
    reading, which is truthy unless it is [0]; where there is none the
    read goes to the prototype, and finds a function under the names of
    [Object.prototype]. *)
Definition timestamp_truthy (timestamps : gmap string Z) (key : string) : bool :=
  match timestamps !! key with
  | Some t => negb (t =? 0)%Z
  | None => inherited key
  end.

(** The loop over [Object.entries(...)] that deletes the tombstones older
    than five minutes: [e[1] + 5 * 60 * 1000 < Date.now()]. *)
Definition evict (now : Z) (m : gmap string Z) : gmap string Z :=
  filter (fun e => ¬ (e.2 + FIVE_MINUTES < now)%Z) m.

(** [updatePosition(state)] of [onPositionUpdated]. *)
Definition updatePosition (position : loc) (tgt : target) (ts : TerminalState)
  : TerminalState :=
  let state := get_state tgt ts in
  let id := prop_get "id" (read_position position ts) in
  let arr := read_positionArray (positions state) ts in
  match findIndex (fun p => strict_eq (prop_get "id" (read_position p ts)) id) arr with
  | Some index => write_positionArray (positions state) (<[index := position]> arr) ts
  | None =>
      if negb (timestamp_truthy (removedPositions state) (ToString id)) then
        write_positionArray (positions state) (arr ++ [position]) ts
      else ts
  end.

Definition onPositionUpdated (i : string) (position : loc) (ts : TerminalState)
  : TerminalState :=
  let ts := _getState i ts in
  let ts := updatePosition position (Instance i) ts in
  updatePosition position Combined ts.

(** [removePosition(state)] of [onPositionRemoved]; [now] is the reading
    of [Date.now()] during the callback. *)
Definition removePosition (positionId : value) (now : Z) (tgt : target)
    (ts : TerminalState) : TerminalState :=
  let state := get_state tgt ts in
  let arr := read_positionArray (positions state) ts in
  let same p := strict_eq (prop_get "id" (read_position p ts)) positionId in
  if existsb same arr then
    let '(l, ts) := alloc_positionArray (List.filter (fun p => negb (same p)) arr) ts in
    modify_state tgt (set_positions l) ts
  else
    modify_state tgt
      (set_removedPositions
         (<[ToString positionId := now]> (evict now (removedPositions state)))) ts.

Definition onPositionRemoved (i : string) (positionId : value) (now : Z)
    (ts : TerminalState) : TerminalState :=
  let ts := _getState i ts in
  let ts := removePosition positionId now (Instance i) ts in
  removePosition positionId now Combined ts.

(** [updatePendingOrder(state)] of [onPendingOrderUpdated]. *)
Definition updatePendingOrder (order : loc) (tgt : target) (ts : TerminalState)
  : TerminalState :=
  let state := get_state tgt ts in
  let id := prop_get "id" (read_order order ts) in
  let arr := read_orderArray (orders state) ts in
  match findIndex (fun o => strict_eq (prop_get "id" (read_order o ts)) id) arr with
  | Some index => write_orderArray (orders state) (<[index := order]> arr) ts
  | None =>
      if negb (timestamp_truthy (completedOrders state) (ToString id)) then
        write_orderArray (orders state) (arr ++ [order]) ts
      else ts
  end.

Definition onPendingOrderUpdated (i : string) (order : loc) (ts : TerminalState)
  : TerminalState :=
  let ts := _getState i ts in
  let ts := updatePendingOrder order (Instance i) ts in
  updatePendingOrder order Combined ts.

(** [completeOrder(state)] of [onPendingOrderCompleted]. *)
Definition completeOrder (orderId : value) (now : Z) (tgt : target)
    (ts : TerminalState) : TerminalState :=
  let state := get_state tgt ts in
  let arr := read_orderArray (orders state) ts in
  let same o := strict_eq (prop_get "id" (read_order o ts)) orderId in
  if existsb same arr then
    let '(l, ts) := alloc_orderArray (List.filter (fun o => negb (same o)) arr) ts in
    modify_state tgt (set_orders l) ts
  else
    modify_state tgt
      (set_completedOrders
         (<[ToString orderId := now]> (evict now (completedOrders state)))) ts.

Definition onPendingOrderCompleted (i : string) (orderId : value) (now : Z)
    (ts : TerminalState) : TerminalState :=
  let ts := _getState i ts in
  let ts := completeOrder orderId now (Instance i) ts in
  completeOrder orderId now Combined ts.

(** [updateSpecifications(state)] of [onSymbolSpecificationsUpdated]: the
    dictionary the state refers to is written in place. *)
Definition updateSpecifications (specifications : list object)
    (removedSymbols : list value) (tgt : target) (ts : TerminalState) : TerminalState :=
  let l := specificationsBySymbol (get_state tgt ts) in
  let m := read_specificationMap l ts in
  let m := List.fold_left
             (fun m spec => dict_set (ToString (prop_get "symbol" spec)) spec m)
             specifications m in
  let m := List.fold_left (fun m symbol => dict_delete (ToString symbol) m)
             removedSymbols m in
  write_specificationMap l m ts.

Definition onSymbolSpecificationsUpdated (i : string) (specifications : list object)
    (removedSymbols : list value) (ts : TerminalState) : TerminalState :=
  let ts := _getState i ts in
  let ts := updateSpecifications specifications removedSymbols (Instance i) ts in
  updateSpecifications specifications removedSymbols Combined ts.

(** *** Prices and profits *)

(** [Math.round(x * multiplier) / multiplier]. *)
Definition round_to (multiplier x : float) : float :=
  (Math_round (x * multiplier) / multiplier)%float.

Definition is_buy (position : object) : bool :=
  strict_eq (prop_get "type" position) (VStr "POSITION_TYPE_BUY").

(** [(position.type === 'POSITION_TYPE_BUY' ? 1 : -1)]. *)
Definition direction (position : object) : float :=
  if is_buy position then 1%float else (-1)%float.

(** The body of [_updatePositionProfits] under [if (specification)], on
    the fields of the position. *)
Definition updatePositionProfits_fields (specification price position : object)
  : object :=
  let num k o := toNumber (prop_get k o) in
  let multiplier := Math_pow 10 (num "digits" specification) in
  let position :=
    if negb (is_undefined (prop_get "profit" position)) then
      prop_set "profit" (VNum (round_to multiplier (num "profit" position))) position
    else position in
  let position :=
    if is_undefined (prop_get "unrealizedProfit" position)
       || is_undefined (prop_get "realizedProfit" position) then
      let position :=
        prop_set "unrealizedProfit"
          (VNum (direction position *
                 (num "currentPrice" position - num "openPrice" position) *
                 num "currentTickValue" position * num "volume" position /
                 num "tickSize" specification)%float) position in
      let position :=
        prop_set "unrealizedProfit"
          (VNum (round_to multiplier (num "unrealizedProfit" position))) position in
      prop_set "realizedProfit"
        (VNum (num "profit" position - num "unrealizedProfit" position)%float) position
    else position in
  let newPositionPrice :=
    if is_buy position then prop_get "bid" price else prop_get "ask" price in
  let isProfitable :=
    (direction position * (toNumber newPositionPrice - num "openPrice" position))%float in
  let currentTickValue :=
    if PrimFloat.ltb 0 isProfitable then prop_get "profitTickValue" price
    else prop_get "lossTickValue" price in
  let unrealizedProfit :=
    (direction position * (toNumber newPositionPrice - num "openPrice" position) *
     toNumber currentTickValue * num "volume" position /
     num "tickSize" specification)%float in
  let unrealizedProfit := round_to multiplier unrealizedProfit in
  let position := prop_set "unrealizedProfit" (VNum unrealizedProfit) position in
  let position :=
    prop_set "profit"
      (VNum (num "unrealizedProfit" position + num "realizedProfit" position)%float)
      position in
  let position :=
    prop_set "profit" (VNum (round_to multiplier (num "profit" position))) position in
  let position := prop_set "currentPrice" newPositionPrice position in
  prop_set "currentTickValue" currentTickValue position.

(** [_updatePositionProfits(position, price)]: the specification comes
    from [this.specification], the getter on the combined state; what it
    returns is an object or a function, and truthy either way. *)
Definition _updatePositionProfits (position : loc) (price : object) (ts : TerminalState)
  : TerminalState :=
  let p := read_position position ts in
  match specification (ToString (prop_get "symbol" p)) ts with
  | Some spec =>
      write_position position
        (updatePositionProfits_fields (found_fields spec) price p) ts
  | None => ts
  end.

(** [Math.max(a)] on one argument that is an array of numbers: the array
    converts to a number through its string form, which is [0] for the
    empty array, the element itself for one element ([-0] read back as
    [0]), and [NaN] as soon as the string holds a comma. *)
Definition Math_max_of_array (a : list float) : float :=
  match a with
  | [] => zero
  | [x] => if PrimFloat.is_zero x then zero else x
  | _ => nan
  end.

(** [p.time.getTime()]: a [TypeError] unless [time] is a [Date]. *)
Definition getTime (p : object) : option float :=
  match prop_get "time" p with
  | VDate t => Some t
  | _ => None
  end.

Definition is_buy_order (order : object) : bool :=
  let t := prop_get "type" order in
  strict_eq t (VStr "ORDER_TYPE_BUY") || strict_eq t (VStr "ORDER_TYPE_BUY_LIMIT")
  || strict_eq t (VStr "ORDER_TYPE_BUY_STOP") || strict_eq t (VStr "ORDER_TYPE_BUY_STOP_LIMIT").

(** [state.pricesBySymbol[symbol]] through the prototype of the
    dictionary. *)
Definition price_found (state : State) (symbol : string) : option (found object) :=
  match pricesBySymbol state !! symbol with
  | Some p => Some (Own p)
  | None => if inherited symbol then Some (Inherited symbol) else None
  end.

(** [for (let position of otherPositions)]: the positions of other
    symbols.  One for which [state.pricesBySymbol[position.symbol]] is
    falsy clears [pricesInitialized]; any other that has no
    [unrealizedProfit] yet gets its profits computed from what was
    found. *)
Definition update_otherPositions (state : State) (otherPositions : list loc)
    (ts : TerminalState) : TerminalState * bool :=
  List.fold_left
    (fun (acc : TerminalState * bool) position =>
       let '(ts, pricesInitialized) := acc in
       match price_found state (ToString (prop_get "symbol" (read_position position ts))) with
       | Some p =>
           (if is_undefined (prop_get "unrealizedProfit" (read_position position ts))
            then _updatePositionProfits position (found_fields p) ts else ts,
            pricesInitialized)
       | None => (ts, false)
       end)
    otherPositions (ts, true).

(** [for (let position of positions)]. *)
Definition update_positions (price : object) (positions : list loc) (ts : TerminalState)
  : TerminalState :=
  List.fold_left (fun ts position => _updatePositionProfits position price ts) positions ts.

(** [for (let order of orders)]. *)
Definition update_orders (price : object) (orders : list loc) (ts : TerminalState)
  : TerminalState :=
  List.fold_left
    (fun ts order =>
       let o := read_order order ts in
       write_order order
         (prop_set "currentPrice"
            (if is_buy_order o then prop_get "ask" price else prop_get "bid" price) o) ts)
    orders ts.

(** The promises of [waitForPrice] waiting for the symbol are resolved. *)
Definition resolve_price (symbol : string) (ts : TerminalState) : TerminalState :=
  match default [] (waitForPriceResolves ts !! symbol) with
  | [] => ts
  | priceResolves =>
      set_waitForPriceResolves (delete symbol (waitForPriceResolves ts))
        (set_resolved (resolved ts ++ priceResolves) ts)
  end.

Definition set_price (price : object) (st : State) : State :=
  set_pricesBySymbol (<[ToString (prop_get "symbol" price) := price]> (pricesBySymbol st)) st.

(** One turn of [for (let price of prices || [])]; the boolean is
    [pricesInitialized] at the end of the turn. *)
Definition updateSymbolPrice (tgt : target) (price : object) (ts : TerminalState)
  : TerminalState * bool :=
  let symbol := prop_get "symbol" price in
  let ts := modify_state tgt (set_price price) ts in
  let state := get_state tgt ts in
  let all := read_positionArray (positions state) ts in
  let same p := strict_eq (prop_get "symbol" (read_position p ts)) symbol in
  let positions := List.filter same all in
  let otherPositions := List.filter (fun p => negb (same p)) all in
  let orders :=
    List.filter (fun o => strict_eq (prop_get "symbol" (read_order o ts)) symbol)
                (read_orderArray (orders state) ts) in
  let '(ts, pricesInitialized) := update_otherPositions state otherPositions ts in
  let ts := update_positions price positions ts in
  let ts := update_orders price orders ts in
  let ts := resolve_price (ToString symbol) ts in
  (ts, pricesInitialized).

(** [Math.round(x * 100) / 100]. *)
Definition round2 (x : float) : float := (Math_round (x * 100) / 100)%float.

(** The two [reduce] calls over [state.positions]. *)
Definition mt5_profits (positions : list object) : float :=
  List.fold_left
    (fun acc p => (acc + round2 (or_zero (prop_get "unrealizedProfit" p))
                   + round2 (or_zero (prop_get "swap" p)))%float)
    positions zero.

Definition mt4_profits (positions : list object) : float :=
  List.fold_left
    (fun acc p => (acc + round2 (or_zero (prop_get "swap" p))
                   + round2 (or_zero (prop_get "commission" p))
                   + round2 (or_zero (prop_get "unrealizedProfit" p)))%float)
    positions zero.

(** [x !== undefined ? x : old]. *)
Definition defined_or (x old : value) : value :=
  if negb (is_undefined x) then x else old.

(** The body of [if (state.accountInformation)], on the fields of the
    account information object. *)
Definition updateAccountInformation_fields (positionsInitialized pricesInitialized : bool)
    (positions : list object) (equity margin freeMargin marginLevel : value)
    (ai : object) : object :=
  let ai :=
    if positionsInitialized && pricesInitialized then
      let ai :=
        if strict_eq (prop_get "platform" ai) (VStr "mt5") then
          prop_set "equity"
            (defined_or equity
               (VNum (toNumber (prop_get "balance" ai) + mt5_profits positions)%float)) ai
        else
          prop_set "equity"
            (defined_or equity
               (VNum (toNumber (prop_get "balance" ai) + mt4_profits positions)%float)) ai in
      prop_set "equity" (VNum (round2 (toNumber (prop_get "equity" ai)))) ai
    else prop_set "equity" (defined_or equity (prop_get "equity" ai)) ai in
  let ai := prop_set "margin" (defined_or margin (prop_get "margin" ai)) ai in
  let ai := prop_set "freeMargin" (defined_or freeMargin (prop_get "freeMargin" ai)) ai in
  prop_set "marginLevel"
    (if negb (is_undefined freeMargin) then marginLevel else prop_get "marginLevel" ai) ai.

(** [for (let price of prices || [])], from [pricesInitialized = false]. *)
Definition update_prices (tgt : target) (prices : list object) (ts : TerminalState)
  : TerminalState * bool :=
  List.fold_left (fun (acc : TerminalState * bool) price => updateSymbolPrice tgt price acc.1)
                 prices (ts, false).

(** [if (state.accountInformation) { ... }]: the object is written in
    place. *)
Definition update_accountInformation (pricesInitialized : bool)
    (equity margin freeMargin marginLevel : value) (tgt : target) (ts : TerminalState)
  : TerminalState :=
  let state := get_state tgt ts in
  match accountInformation state with
  | Some a =>
      write_account a
        (updateAccountInformation_fields (positionsInitialized state) pricesInitialized
           (position_objects tgt ts) equity margin freeMargin marginLevel
           (read_account a ts)) ts
  | None => ts
  end.

(** [updateSymbolPrices(state)] of [onSymbolPricesUpdated]; [times] is
    [prices.map(p => p.time.getTime())]. *)
Definition updateSymbolPrices (prices : list object) (times : list float)
    (equity margin freeMargin marginLevel : value) (tgt : target) (ts : TerminalState)
  : TerminalState :=
  let ts := modify_state tgt (set_lastUpdateTime (Math_max_of_array times)) ts in
  let '(ts, pricesInitialized) := update_prices tgt prices ts in
  update_accountInformation pricesInitialized equity margin freeMargin marginLevel tgt ts.

(** How a callback that can throw ends, and the terminal state it leaves. *)
Inductive completion : Type :=
| Normal (ts : TerminalState)
| TypeError (ts : TerminalState).

Definition state_after (c : completion) : TerminalState :=
  match c with Normal ts | TypeError ts => ts end.

(** [onSymbolPricesUpdated]: the first statement of [updateSymbolPrices]
    throws when a price has no [Date] in [time], before anything but
    [_getState] has run. *)
Definition onSymbolPricesUpdated (i : string) (prices : list object)
    (equity margin freeMargin marginLevel : value) (ts : TerminalState) : completion :=
  let ts := _getState i ts in
  match mapM getTime prices with
  | Some times =>
      let ts := updateSymbolPrices prices times equity margin freeMargin marginLevel
                  (Instance i) ts in
      Normal (updateSymbolPrices prices times equity margin freeMargin marginLevel
                Combined ts)
  | None => TypeError ts
  end.





(** *** What the loop over the prices leaves alone *)

(** A state without its prices. *)
Definition erase_prices (st : State) : State := set_pricesBySymbol ∅ st.

(** From [ts] to [ts']: the states differ at most in their prices; the
    arrays, the account information objects and
    the dictionaries of specifications are the same; every position
    keeps its symbol, and a position whose symbol has no specification
    in the combined state is the same object. *)
Record price_frame (ts ts' : TerminalState) : Prop := mk_price_frame {
  frame_states :
    forall tgt, erase_prices (get_state tgt ts') = erase_prices (get_state tgt ts);
  frame_positionArrays : positionArrays (heap ts') = positionArrays (heap ts);
  frame_orderArrays : orderArrays (heap ts') = orderArrays (heap ts);
  frame_accountObjects : accountObjects (heap ts') = accountObjects (heap ts);
  frame_specificationMaps : specificationMaps (heap ts') = specificationMaps (heap ts);
  frame_symbols :
    forall l, prop_get "symbol" (read_position l ts') = prop_get "symbol" (read_position l ts);
  frame_unspecified :
    forall l, specification (ToString (prop_get "symbol" (read_position l ts))) ts = None ->
              read_position l ts' = read_position l ts
}.

(** The fields [_updatePositionProfits] computes are the same in two
    position objects. *)
Definition same_profit_fields (p p' : object) : Prop :=
  prop_get "profit" p' = prop_get "profit" p
  /\ prop_get "unrealizedProfit" p' = prop_get "unrealizedProfit" p
  /\ prop_get "realizedProfit" p' = prop_get "realizedProfit" p
  /\ prop_get "currentPrice" p' = prop_get "currentPrice" p
  /\ prop_get "currentTickValue" p' = prop_get "currentTickValue" p.

(** *** The callbacks as events *)

Inductive event : Type :=
| OnConnected (i : string)
| OnDisconnected (i : string)
| OnBrokerConnectionStatusChanged (i : string) (connected : bool)
| OnSynchronizationStarted (i : string)
    (specificationsUpdated positionsUpdated ordersUpdated : bool)
| OnAccountInformationUpdated (i : string) (accountInformation : option loc)
| OnPositionsReplaced (i : string) (positions : loc)
| OnPositionsSynchronized (i : string) (synchronizationId : string)
| OnPositionUpdated (i : string) (position : loc)
| OnPositionRemoved (i : string) (positionId : value) (now : Z)
| OnPendingOrdersReplaced (i : string) (orders : loc)
| OnPendingOrdersSynchronized (i : string) (synchronizationId : string)
| OnPendingOrderUpdated (i : string) (order : loc)
| OnPendingOrderCompleted (i : string) (orderId : value) (now : Z)
| OnSymbolSpecificationsUpdated (i : string) (specifications : list object)
    (removedSymbols : list value)
| OnSymbolPricesUpdated (i : string) (prices : list object)
    (equity margin freeMargin marginLevel : value)
| OnStreamClosed (i : string).

(** The terminal state after the listener is called with an event. *)
Definition dispatch (e : event) (ts : TerminalState) : TerminalState :=
  match e with
  | OnConnected i => onConnected i ts
  | OnDisconnected i => onDisconnected i ts
  | OnBrokerConnectionStatusChanged i c => onBrokerConnectionStatusChanged i c ts
  | OnSynchronizationStarted i su pu ou => onSynchronizationStarted i su pu ou ts
  | OnAccountInformationUpdated i a => onAccountInformationUpdated i a ts
  | OnPositionsReplaced i positions => onPositionsReplaced i positions ts
  | OnPositionsSynchronized i sid => onPositionsSynchronized i sid ts
  | OnPositionUpdated i position => onPositionUpdated i position ts
  | OnPositionRemoved i positionId now => onPositionRemoved i positionId now ts
  | OnPendingOrdersReplaced i orders => onPendingOrdersReplaced i orders ts
  | OnPendingOrdersSynchronized i sid => onPendingOrdersSynchronized i sid ts
  | OnPendingOrderUpdated i order => onPendingOrderUpdated i order ts
  | OnPendingOrderCompleted i orderId now => onPendingOrderCompleted i orderId now ts
  | OnSymbolSpecificationsUpdated i specifications removedSymbols =>
      onSymbolSpecificationsUpdated i specifications removedSymbols ts
  | OnSymbolPricesUpdated i prices equity margin freeMargin marginLevel =>
      state_after (onSymbolPricesUpdated i prices equity margin freeMargin marginLevel ts)
  | OnStreamClosed i => onStreamClosed i ts
  end.

(** The callbacks whose body never names [this._combinedState]. *)
Definition instance_only (e : event) : bool :=
  match e with
  | OnConnected _ | OnDisconnected _ | OnBrokerConnectionStatusChanged _ _
  | OnSynchronizationStarted _ _ _ _ | OnPositionsReplaced _ _
  | OnPositionsSynchronized _ _ | OnPendingOrdersReplaced _ _ | OnStreamClosed _ => true
  | _ => false
  end.

(** What a caller can read of a state: the fields and, through the
    references, the account information, the positions, the orders and
    the specifications. *)
Record View : Type := mkView {
  view_accountInformation : option object;
  view_positions : list object;
  view_orders : list object;
  view_specifications : dict object;
  view_pricesBySymbol : gmap string object;
  view_completedOrders : gmap string Z;
  view_removedPositions : gmap string Z;
  view_ordersInitialized : bool;
  view_positionsInitialized : bool;
  view_lastUpdateTime : float
}.

Definition view (tgt : target) (ts : TerminalState) : View :=
  let st := get_state tgt ts in
  mkView (option_map (fun a => read_account a ts) (accountInformation st))
         (position_objects tgt ts) (order_objects tgt ts)
         (read_specificationMap (specificationsBySymbol st) ts)
         (pricesBySymbol st) (completedOrders st) (removedPositions st)
         (ordersInitialized st) (positionsInitialized st) (lastUpdateTime st).

(** From [ts] to [ts']: the combined state has the same fields, and every
    read of the store gives the same array, object or dictionary. *)
Record store_kept (ts ts' : TerminalState) : Prop := mk_store_kept {
  kept_combinedState : combinedState ts' = combinedState ts;
  kept_positionObjects : positionObjects (heap ts') = positionObjects (heap ts);
  kept_orderObjects : orderObjects (heap ts') = orderObjects (heap ts);
  kept_accountObjects : accountObjects (heap ts') = accountObjects (heap ts);
  kept_positionArrays : forall l, read_positionArray l ts' = read_positionArray l ts;
  kept_orderArrays : forall l, read_orderArray l ts' = read_orderArray l ts;
  kept_specificationMaps :
    forall l, read_specificationMap l ts' = read_specificationMap l ts
}.



(** *** Hashes *)

(** What the local function [stringify] of [_getHash] returns: a number
    left as it is (under an integer key), a string, or [undefined]. *)
Inductive stringified : Type :=
| SNum (x : float)
| SStr (s : string)
| SUndefined.

(** A template-literal hole [${r}]. *)
Definition interpolate (r : stringified) : string :=
  match r with
  | SNum x => Number_toString x
  | SStr s => s
  | SUndefined => "undefined"
  end.

(** An element under [Array.prototype.join]: [undefined] prints empty. *)
Definition join_item (r : stringified) : string :=
  match r with
  | SUndefined => EmptyString
  | _ => interpolate r
  end.

(** [integerKeys.includes(key)]; array items and the top call have no key. *)
Definition includes (integerKeys : list string) (key : option string) : bool :=
  match key with
  | Some k => existsb (String.eqb k) integerKeys
  | None => false
  end.

(** [stringify(objFromJson, key)] of [_getHash]; [None] is the
    [TypeError] of reading [getTime] off [null]. *)
Fixpoint stringify (integerKeys : list string) (objFromJson : value)
    (key : option string) : option stringified :=
  match objFromJson with
  | VNum x =>
      Some (if includes integerKeys key then SNum x else SStr (toFixed x 8))
  | VArr items =>
      match mapM (fun item => stringify integerKeys item None) items with
      | Some rs => Some (SStr ("[" +:+ join "," (List.map join_item rs) +:+ "]"))
      | None => None
      end
  | VNull => None
  | VObj props =>
      if truthy (prop_get "getTime" props) then
        Some (match JSON_stringify objFromJson with Some s => SStr s | None => SUndefined end)
      else
        match mapM (fun kv =>
                      match stringify integerKeys (snd kv) (Some (fst kv)) with
                      | Some r => Some (dquote +:+ fst kv +:+ dquote +:+ ":" +:+ interpolate r)
                      | None => None
                      end) props with
        | Some parts => Some (SStr ("{" +:+ join "," parts +:+ "}"))
        | None => None
        end
  | _ =>
      Some (match JSON_stringify objFromJson with Some s => SStr s | None => SUndefined end)
  end.

(** [_getHash(obj, accountType, integerKeys)] on an array of objects. *)
Definition _getHash (obj : list object) (accountType : string)
    (integerKeys : list string) : option string :=
  let arr := VArr (List.map VObj obj) in
  if String.eqb accountType "cloud-g1" then
    match stringify integerKeys arr None with
    | Some r => Some (MD5.hex (interpolate r))
    | None => None
    end
  else if String.eqb accountType "cloud-g2" then
    Some (MD5.hex (default "undefined" (JSON_stringify arr)))
  else Some (MD5.hex EmptyString).

(** The comparator local to [getHashes]. *)
Definition sortByKey (obj1 obj2 : object) (key : string) : Z :=
  if js_lt (prop_get key obj1) (prop_get key obj2) then (-1)%Z
  else if js_lt (prop_get key obj2) (prop_get key obj1) then 1%Z
  else 0%Z.

Definition delete_all (keys : list string) (o : object) : object :=
  List.fold_left (fun o k => prop_delete k o) keys o.

Definition position_volatile_keys (accountType : string) : list string :=
  ["profit"; "unrealizedProfit"; "realizedProfit"; "currentPrice"; "currentTickValue";
   "updateSequenceNumber"; "accountCurrencyExchangeRate"; "comment"; "brokerComment";
   "clientId"]
  ++ (if String.eqb accountType "cloud-g1" then ["time"; "updateTime"] else []).

Definition order_volatile_keys (accountType : string) : list string :=
  ["currentPrice"; "updateSequenceNumber"; "accountCurrencyExchangeRate"; "comment";
   "brokerComment"; "clientId"]
  ++ (if String.eqb accountType "cloud-g1" then ["time"] else []).

(** The three arrays [getHashes] serializes, after cloning, sorting and
    deleting. *)
Definition hashed_specifications (accountType : string) (specifications : list object)
  : list object :=
  let specifications := List.map clone_object specifications in
  let specifications := Array_sort (fun a b => sortByKey a b "symbol") specifications in
  if String.eqb accountType "cloud-g1" then
    List.map (prop_delete "description") specifications
  else specifications.

Definition hashed_positions (accountType : string) (positions : list object)
  : list object :=
  let positions := List.map clone_object positions in
  let positions := Array_sort (fun a b => sortByKey a b "id") positions in
  List.map (delete_all (position_volatile_keys accountType)) positions.

Definition hashed_orders (accountType : string) (orders : list object) : list object :=
  let orders := List.map clone_object orders in
  let orders := Array_sort (fun a b => sortByKey a b "id") orders in
  List.map (delete_all (order_volatile_keys accountType)) orders.

(** The values under [key] in the objects of an array are strings and
    no two objects share one: the array is keyed by [key], as positions
    and orders are by [id] and specifications by [symbol]. *)
Definition string_key (key : string) (o : object) : string :=
  match prop_get key o with
  | VStr s => s
  | _ => EmptyString
  end.

Definition keyed_by (key : string) (l : list object) : Prop :=
  NoDup (List.map (string_key key) l)
  /\ Forall (fun o => prop_get key o = VStr (string_key key o)) l.

(** The array of specifications, of positions and of orders that
    [getHashes] reads for an instance. *)
Definition specification_objects (i : string) (ts : TerminalState) : list object :=
  let ts := _getState i ts in
  Object_values (read_specificationMap
                   (specificationsBySymbol (get_state (Instance i) ts)) ts).

(** The object [getHashes] returns; [None] in a field is [null]. *)
Record Hashes : Type := mkHashes {
  specificationsMd5 : option string;
  positionsMd5 : option string;
  ordersMd5 : option string
}.

(** [getHashes(accountType, instanceIndex)]: the hashes, or [None] when
    [_getHash] throws, and the terminal state after [_getState]. *)
Definition getHashes (accountType : string) (i : string) (ts : TerminalState)
  : option Hashes * TerminalState :=
  let ts := _getState i ts in
  let state := get_state (Instance i) ts in
  let specifications :=
    hashed_specifications accountType
      (Object_values (read_specificationMap (specificationsBySymbol state) ts)) in
  let positions := hashed_positions accountType (position_objects (Instance i) ts) in
  let orders := hashed_orders accountType (order_objects (Instance i) ts) in
  let hashes :=
    match
      (match specifications with
       | [] => Some None
       | _ => option_map Some (_getHash specifications accountType ["digits"])
       end)
    with
    | None => None
    | Some specificationsHash =>
        match
          (if positionsInitialized state
           then option_map Some (_getHash positions accountType ["magic"])
           else Some None)
        with
        | None => None
        | Some positionsHash =>
            match
              (if ordersInitialized state
               then option_map Some (_getHash orders accountType ["magic"])
               else Some None)
            with
            | None => None
            | Some ordersHash =>
                Some (mkHashes specificationsHash positionsHash ordersHash)
            end
        end
    end in
  (hashes, ts).

End WithRuntime.

End TerminalState.

(** ** The websocket client: requests and their replies *)

Module WebsocketClient.
Import JS.

(** What the client takes from its environment: [randomstring.generate],
    as a function of the entropy it draws, with the contract of the
    library (the length asked for, letters and digits only), and the
    time value of [new Date(string)]. *)
Definition alphanumeric (c : ascii) : bool :=
  let n := N_of_ascii c in
  ((48 <=? n) && (n <=? 57) || (65 <=? n) && (n <=? 90) || (97 <=? n) && (n <=? 122))%N.

Class Environment : Type := {
  generate : nat -> N -> string;
  generate_length : forall n seed, String.length (generate n seed) = n;
  generate_alphanumeric :
    forall n seed, forallb alphanumeric (list_ascii_of_string (generate n seed)) = true;
  Date_parse : string -> float
}.

(** The errors [_convertError] builds, and the one [close] rejects with. *)
Inductive Error : Type :=
| ValidationError (message details : value)
| NotFoundError (message : value)
| NotSynchronizedError (message : value)
| NotConnectedError (message : value)
| UnauthorizedError (message : value)
| InternalError (message : value)
| ConnectionClosed.

(** What reaches a promise returned by [_rpcRequest]: a 'response'
    packet, a 'processingError' packet with the error made from it, or
    the rejection of [close]. *)
Inductive delivery : Type :=
| Response (data : object)
| ProcessingError (data : object) (e : Error)
| Closed.

(** The client.  [_requestResolves] maps a request id to the promise
    whose resolve and reject functions it holds; a promise is named by
    its rank among the promises [_rpcRequest] made, and [promises] keeps
    the request id each was made with.  [emitted] lists what was sent on
    the socket and [delivered] what was passed to which promise. *)
Record Client : Type := mkClient {
  _connected : bool;
  _requestResolves : gmap string nat;
  promises : list string;
  emitted : list object;
  delivered : list (nat * delivery)
}.

Definition constructor : Client := mkClient false ∅ [] [] [].

Section WithEnvironment.
Context `{Runtime} `{Environment}.

(** [field.match(/time|Time/)]. *)
Fixpoint has_prefix (p s : string) : bool :=
  match p, s with
  | EmptyString, _ => true
  | String a p', String b s' => Ascii.eqb a b && has_prefix p' s'
  | _, _ => false
  end.

Fixpoint has_substring (p s : string) : bool :=
  has_prefix p s ||
  match s with
  | EmptyString => false
  | String _ s' => has_substring p s'
  end.

Definition matches_time (field : string) : bool :=
  has_substring "time" field || has_substring "Time" field.

(** [_convertIsoTimeToDate(packet)]: a string under a key that names a
    time becomes a [Date]; arrays and objects are walked. *)
Fixpoint convertIsoTimeToDate (packet : value) : value :=
  match packet with
  | VObj props =>
      VObj (List.map (fun kv =>
                        match snd kv with
                        | VStr s => if matches_time (fst kv)
                                    then (fst kv, VDate (Date_parse s)) else kv
                        | _ => (fst kv, convertIsoTimeToDate (snd kv))
                        end) props)
  | VArr items => VArr (List.map convertIsoTimeToDate items)
  | v => v
  end.

Definition convertIsoTimeToDate_object (data : object) : object :=
  match convertIsoTimeToDate (VObj data) with
  | VObj props => props
  | _ => data
  end.

(** [connect()], as far as the request table goes. *)
Definition connect (c : Client) : Client :=
  if _connected c then c
  else mkClient true ∅ (promises c) (emitted c) (delivered c).

(** [close()]: every promise still in the table is rejected. *)
Definition close (c : Client) : Client :=
  if _connected c then
    mkClient false ∅ (promises c) (emitted c)
             (delivered c ++
              List.map (fun kf => (snd kf, Closed)) (map_to_list (_requestResolves c)))
  else c.

(** The part of [_rpcRequest] after [await this.connect()]: it runs in
    one piece.  [seed] is the entropy [randomstring.generate(32)] draws. *)
Definition _rpcRequest (accountId : value) (request : object) (seed : N) (c : Client)
  : Client :=
  let requestId := generate 32 seed in
  let promise := length (promises c) in
  let request := prop_set "requestId" (VStr requestId)
                   (prop_set "accountId" accountId request) in
  mkClient (_connected c) (<[requestId := promise]> (_requestResolves c))
           (promises c ++ [requestId]) (emitted c ++ [request]) (delivered c).

(** [_convertError(data)], which closes the client on 'UnauthorizedError'. *)
Definition _convertError (data : object) (c : Client) : Error * Client :=
  let error := prop_get "error" data in
  let message := prop_get "message" data in
  if strict_eq error (VStr "ValidationError") then
    (ValidationError message (prop_get "details" data), c)
  else if strict_eq error (VStr "NotFoundError") then (NotFoundError message, c)
  else if strict_eq error (VStr "NotSynchronizedError") then (NotSynchronizedError message, c)
  else if strict_eq error (VStr "NotAuthenticatedError") then (NotConnectedError message, c)
  else if strict_eq error (VStr "UnauthorizedError") then (UnauthorizedError message, close c)
  else (InternalError message, c).

Definition set_requestResolves (m : gmap string nat) (c : Client) : Client :=
  mkClient (_connected c) m (promises c) (emitted c) (delivered c).

(** [requestResolve.resolve(data)] or [requestResolve.reject(error)].
    With no entry in the table the handler calls a function that does
    nothing.  (An id that names a property of [Object.prototype] makes it
    throw a [TypeError] instead, after the same writes: nothing reaches a
    promise either.) *)
Definition deliver (promise : option nat) (d : delivery) (c : Client) : Client :=
  match promise with
  | Some f => mkClient (_connected c) (_requestResolves c) (promises c) (emitted c)
                       (delivered c ++ [(f, d)])
  | None => c
  end.

(** The request id of a packet, as the key it is looked up under. *)
Definition requestId_of (data : object) : string :=
  ToString (prop_get "requestId" data).

(** The handler of 'response' packets. *)
Definition onResponse (data : object) (c : Client) : Client :=
  let requestResolve := _requestResolves c !! requestId_of data in
  let c := set_requestResolves (delete (requestId_of data) (_requestResolves c)) c in
  deliver requestResolve (Response (convertIsoTimeToDate_object data)) c.

(** The handler of 'processingError' packets. *)
Definition onProcessingError (data : object) (c : Client) : Client :=
  let requestResolve := _requestResolves c !! requestId_of data in
  let c := set_requestResolves (delete (requestId_of data) (_requestResolves c)) c in
  let '(e, c) := _convertError data c in
  deliver requestResolve (ProcessingError data e) c.

(** What can happen to a client, one step at a time. *)
Inductive event : Type :=
| Connect
| Close
| RpcRequest (accountId : value) (request : object) (seed : N)
| ResponsePacket (data : object)
| ProcessingErrorPacket (data : object).

Definition step (c : Client) (e : event) : Client :=
  match e with
  | Connect => connect c
  | Close => close c
  | RpcRequest accountId request seed => _rpcRequest accountId request seed c
  | ResponsePacket data => onResponse data c
  | ProcessingErrorPacket data => onProcessingError data c
  end.

Definition run (trace : list event) (c : Client) : Client :=
  List.fold_left step trace c.

(** The request id a delivered packet carries; [None] for the rejection
    of [close]. *)
Definition delivered_requestId (d : delivery) : option string :=
  match d with
  | Response data => Some (requestId_of data)
  | ProcessingError data _ => Some (requestId_of data)
  | Closed => None
  end.

(** The packets passed to a promise. *)
Definition packets_of (promise : nat) (c : Client) : list delivery :=
  List.map snd
    (List.filter (fun fd => Nat.eqb (fst fd) promise && is_Some_b (delivered_requestId (snd fd)))
                 (delivered c)).

(** What holds of a client after any sequence of events:
    - as many requests were emitted as promises made;
    - an entry of the request table maps a request id to a promise made
      with that id and to which nothing was delivered;
    - no promise was delivered to twice;
    - a packet delivered to a promise carries the request id the promise
      was made with;
    - a promise made with a request id has it from
      [randomstring.generate(32)], and the request emitted for it carries
      that id;
    - what was delivered was delivered to promises that exist. *)
Record invariant (c : Client) : Prop := mk_invariant {
  inv_emitted : length (emitted c) = length (promises c);
  inv_pending :
    forall k f, _requestResolves c !! k = Some f ->
                promises c !! f = Some k /\ f ∉ (delivered c).*1;
  inv_once : NoDup (delivered c).*1;
  inv_correlated :
    forall f d r, (f, d) ∈ delivered c -> delivered_requestId d = Some r ->
                  promises c !! f = Some r;
  inv_requestId :
    forall f r, promises c !! f = Some r ->
                String.length r = 32
                /\ forallb alphanumeric (list_ascii_of_string r) = true
                /\ exists request, emitted c !! f = Some request
                                   /\ prop_get "requestId" request = VStr r;
  inv_bounded : forall f, f ∈ (delivered c).*1 -> f < length (promises c)
}.

End WithEnvironment.

End WebsocketClient.

(** ** The methods of the websocket client *)

Module Rpc.
Import JS WebsocketClient.

(** A method that awaits [_rpcRequest]: the request object it passes and
    what it returns of the response. *)
Record rpc : Type := mkRpc {
  request : object;
  result : object -> value
}.

(** A parameter with a default value: the default is taken for
    [undefined] only. *)
Definition or_default (default argument : value) : value :=
  if is_undefined argument then default else argument.

Definition getAccountInformation : rpc :=
  mkRpc [("type", VStr "getAccountInformation")] (prop_get "accountInformation").

Definition getPositions : rpc :=
  mkRpc [("type", VStr "getPositions")] (prop_get "positions").

Definition getPosition (positionId : value) : rpc :=
  mkRpc [("type", VStr "getPosition"); ("positionId", positionId)] (prop_get "position").

Definition getOrders : rpc :=
  mkRpc [("type", VStr "getOrders")] (prop_get "orders").

Definition getOrder (orderId : value) : rpc :=
  mkRpc [("type", VStr "getOrder"); ("orderId", orderId)] (prop_get "order").

(** [{historyOrders: response.historyOrders, synchronizing: response.synchronizing}] *)
Definition historyOrders_of (response : object) : value :=
  VObj [("historyOrders", prop_get "historyOrders" response);
        ("synchronizing", prop_get "synchronizing" response)].

(** [{deals: response.deals, synchronizing: response.synchronizing}] *)
Definition deals_of (response : object) : value :=
  VObj [("deals", prop_get "deals" response);
        ("synchronizing", prop_get "synchronizing" response)].

Definition getHistoryOrdersByTicket (ticket : value) : rpc :=
  mkRpc [("type", VStr "getHistoryOrdersByTicket"); ("ticket", ticket)] historyOrders_of.

Definition getHistoryOrdersByPosition (positionId : value) : rpc :=
  mkRpc [("type", VStr "getHistoryOrdersByPosition"); ("positionId", positionId)]
        historyOrders_of.

Definition getHistoryOrdersByTimeRange (startTime endTime offset limit : value) : rpc :=
  mkRpc [("type", VStr "getHistoryOrdersByTimeRange"); ("startTime", startTime);
         ("endTime", endTime); ("offset", or_default (VNum 0) offset);
         ("limit", or_default (VNum 1000) limit)]
        historyOrders_of.

Definition getDealsByTicket (ticket : value) : rpc :=
  mkRpc [("type", VStr "getDealsByTicket"); ("ticket", ticket)] deals_of.

Definition getDealsByPosition (positionId : value) : rpc :=
  mkRpc [("type", VStr "getDealsByPosition"); ("positionId", positionId)] deals_of.

Definition getDealsByTimeRange (startTime endTime offset limit : value) : rpc :=
  mkRpc [("type", VStr "getDealsByTimeRange"); ("startTime", startTime);
         ("endTime", endTime); ("offset", or_default (VNum 0) offset);
         ("limit", or_default (VNum 1000) limit)]
        deals_of.

(** [removeHistory] and [reconnect] return the promise of [_rpcRequest]
    itself: they resolve with the whole response. *)
Definition removeHistory : rpc := mkRpc [("type", VStr "removeHistory")] VObj.

Definition trade (trade : value) : rpc :=
  mkRpc [("type", VStr "trade"); ("trade", trade)] (prop_get "response").

Definition reconnect : rpc := mkRpc [("type", VStr "reconnect")] VObj.

(** The calls a user can make. *)
Inductive method : Type :=
| GetAccountInformation
| GetPositions
| GetPosition (positionId : value)
| GetOrders
| GetOrder (orderId : value)
| GetHistoryOrdersByTicket (ticket : value)
| GetHistoryOrdersByPosition (positionId : value)
| GetHistoryOrdersByTimeRange (startTime endTime offset limit : value)
| GetDealsByTicket (ticket : value)
| GetDealsByPosition (positionId : value)
| GetDealsByTimeRange (startTime endTime offset limit : value)
| RemoveHistory
| Trade (trade : value)
| Reconnect.

Definition rpc_of (m : method) : rpc :=
  match m with
  | GetAccountInformation => getAccountInformation
  | GetPositions => getPositions
  | GetPosition positionId => getPosition positionId
  | GetOrders => getOrders
  | GetOrder orderId => getOrder orderId
  | GetHistoryOrdersByTicket ticket => getHistoryOrdersByTicket ticket
  | GetHistoryOrdersByPosition positionId => getHistoryOrdersByPosition positionId
  | GetHistoryOrdersByTimeRange startTime endTime offset limit =>
      getHistoryOrdersByTimeRange startTime endTime offset limit
  | GetDealsByTicket ticket => getDealsByTicket ticket
  | GetDealsByPosition positionId => getDealsByPosition positionId
  | GetDealsByTimeRange startTime endTime offset limit =>
      getDealsByTimeRange startTime endTime offset limit
  | RemoveHistory => removeHistory
  | Trade t => trade t
  | Reconnect => reconnect
  end.

(** How the promise a method returns ends. *)
Inductive outcome : Type :=
| Resolved (v : value)
| Rejected (e : Error).

(** What a method makes of what reaches the promise of its request. *)
Definition settle (m : rpc) (d : delivery) : outcome :=
  match d with
  | Response data => Resolved (result m data)
  | ProcessingError _ e => Rejected e
  | Closed => Rejected ConnectionClosed
  end.

(** Everything passed to a promise: responses, errors and the rejection
    of [close]. *)
Definition settlements (promise : nat) (c : Client) : list delivery :=
  List.map snd (List.filter (fun fd => Nat.eqb (fst fd) promise) (delivered c)).

(** No string is left under a key that names a time, at any depth. *)
Fixpoint converted (v : value) : bool :=
  match v with
  | VObj props =>
      forallb (fun kv => match snd kv with
                         | VStr _ => negb (matches_time (fst kv))
                         | _ => converted (snd kv)
                         end) props
  | VArr items => forallb converted items
  | _ => true
  end.

End Rpc.

(** ** The connection: trades and synchronization retries *)

Module MetaApiConnection.
Import JS.

(** [v.value] and [v.units] of a stop that is truthy and no number: only
    an object can have them. *)
Definition member (k : string) (v : value) : value :=
  match v with
  | VObj props => prop_get k props
  | _ => VUndefined
  end.

(** The elements of an array, or the characters of a string, under
    their indices. *)
Fixpoint indexed {A} (i : nat) (l : list A) : dict A :=
  match l with
  | [] => []
  | x :: l' => (decimal_of_N (N.of_nat i), x) :: indexed (S i) l'
  end.

(** The own enumerable properties [Object.assign] copies from a source:
    those of an object, the elements of an array, the characters of a
    string (of an ASCII string, the characters of the model being bytes);
    a number, a boolean, a date, [null] and [undefined] have none. *)
Definition own_enumerable (source : value) : dict value :=
  match source with
  | VObj props => props
  | VArr items => indexed 0 items
  | VStr s =>
      indexed 0 (List.map (fun c => VStr (String c EmptyString)) (list_ascii_of_string s))
  | _ => []
  end.

(** [Object.assign(target, ...sources)].  The properties of the result
    are in the order they were added; an engine lists those named by
    array indices, as the elements of an array or the characters of a
    string are, before the others, which a read by name does not
    observe. *)
Definition Object_assign (target : object) (sources : list value) : object :=
  List.fold_left
    (fun target source =>
       List.fold_left (fun target kv => prop_set (fst kv) (snd kv) target)
                      (own_enumerable source) target)
    sources target.

(** [options || {}]. *)
Definition or_empty (options : value) : value :=
  if truthy options then options else VObj [].

(** [_generateStopOptions(stopLoss, takeProfit)]. *)
Definition _generateStopOptions (stopLoss takeProfit : value) : object :=
  let trade : object := [] in
  let trade :=
    match stopLoss with
    | VNum _ => prop_set "stopLoss" stopLoss trade
    | _ =>
        if truthy stopLoss then
          prop_set "stopLossUnits" (member "units" stopLoss)
            (prop_set "stopLoss" (member "value" stopLoss) trade)
        else trade
    end in
  match takeProfit with
  | VNum _ => prop_set "takeProfit" takeProfit trade
  | _ =>
      if truthy takeProfit then
        prop_set "takeProfitUnits" (member "units" takeProfit)
          (prop_set "takeProfit" (member "value" takeProfit) trade)
      else trade
  end.

(** The fields of the connection the trade methods read: [_account.id]
    and [_application]. *)
Record Connection : Type := mkConnection {
  _account_id : value;
  _application : value
}.

(** [this._websocketClient.trade(accountId, trade, application)]: the
    method of the websocket client has two parameters, so that the third
    argument goes nowhere. *)
Definition websocketClient_trade (accountId : value) (trade : object) (application : value)
  : value * Rpc.rpc :=
  (accountId, Rpc.trade (VObj trade)).

Section WithConnection.
Variable this : Connection.

Definition createMarketBuyOrder (symbol volume stopLoss takeProfit options : value) :=
  websocketClient_trade (_account_id this)
    (Object_assign [("actionType", VStr "ORDER_TYPE_BUY"); ("symbol", symbol);
                    ("volume", volume)]
       [VObj (_generateStopOptions stopLoss takeProfit); or_empty options])
    (_application this).

Definition createMarketSellOrder (symbol volume stopLoss takeProfit options : value) :=
  websocketClient_trade (_account_id this)
    (Object_assign [("actionType", VStr "ORDER_TYPE_SELL"); ("symbol", symbol);
                    ("volume", volume)]
       [VObj (_generateStopOptions stopLoss takeProfit); or_empty options])
    (_application this).

Definition createLimitBuyOrder (symbol volume openPrice stopLoss takeProfit options : value) :=
  websocketClient_trade (_account_id this)
    (Object_assign [("actionType", VStr "ORDER_TYPE_BUY_LIMIT"); ("symbol", symbol);
                    ("volume", volume); ("openPrice", openPrice)]
       [VObj (_generateStopOptions stopLoss takeProfit); or_empty options])
    (_application this).

Definition createLimitSellOrder (symbol volume openPrice stopLoss takeProfit options : value) :=
  websocketClient_trade (_account_id this)
    (Object_assign [("actionType", VStr "ORDER_TYPE_SELL_LIMIT"); ("symbol", symbol);
                    ("volume", volume); ("openPrice", openPrice)]
       [VObj (_generateStopOptions stopLoss takeProfit); or_empty options])
    (_application this).

Definition createStopBuyOrder (symbol volume openPrice stopLoss takeProfit options : value) :=
  websocketClient_trade (_account_id this)
    (Object_assign [("actionType", VStr "ORDER_TYPE_BUY_STOP"); ("symbol", symbol);
                    ("volume", volume); ("openPrice", openPrice)]
       [VObj (_generateStopOptions stopLoss takeProfit); or_empty options])
    (_application this).

Definition createStopSellOrder (symbol volume openPrice stopLoss takeProfit options : value) :=
  websocketClient_trade (_account_id this)
    (Object_assign [("actionType", VStr "ORDER_TYPE_SELL_STOP"); ("symbol", symbol);
                    ("volume", volume); ("openPrice", openPrice)]
       [VObj (_generateStopOptions stopLoss takeProfit); or_empty options])
    (_application this).

Definition createStopLimitBuyOrder
    (symbol volume openPrice stopLimitPrice stopLoss takeProfit options : value) :=
  websocketClient_trade (_account_id this)
    (Object_assign [("actionType", VStr "ORDER_TYPE_BUY_STOP_LIMIT"); ("symbol", symbol);
                    ("volume", volume); ("openPrice", openPrice);
                    ("stopLimitPrice", stopLimitPrice)]
       [VObj (_generateStopOptions stopLoss takeProfit); or_empty options])
    (_application this).

Definition createStopLimitSellOrder
    (symbol volume openPrice stopLimitPrice stopLoss takeProfit options : value) :=
  websocketClient_trade (_account_id this)
    (Object_assign [("actionType", VStr "ORDER_TYPE_SELL_STOP_LIMIT"); ("symbol", symbol);
                    ("volume", volume); ("openPrice", openPrice);
                    ("stopLimitPrice", stopLimitPrice)]
       [VObj (_generateStopOptions stopLoss takeProfit); or_empty options])
    (_application this).

Definition modifyPosition (positionId stopLoss takeProfit : value) :=
  websocketClient_trade (_account_id this)
    (Object_assign [("actionType", VStr "POSITION_MODIFY"); ("positionId", positionId)]
       [VObj (_generateStopOptions stopLoss takeProfit)])
    (_application this).

Definition closePositionPartially (positionId volume options : value) :=
  websocketClient_trade (_account_id this)
    (Object_assign [("actionType", VStr "POSITION_PARTIAL"); ("positionId", positionId);
                    ("volume", volume)]
       [or_empty options])
    (_application this).

Definition closePosition (positionId options : value) :=
  websocketClient_trade (_account_id this)
    (Object_assign [("actionType", VStr "POSITION_CLOSE_ID"); ("positionId", positionId)]
       [or_empty options])
    (_application this).

Definition closeBy (positionId oppositePositionId options : value) :=
  websocketClient_trade (_account_id this)
    (Object_assign [("actionType", VStr "POSITION_CLOSE_BY"); ("positionId", positionId);
                    ("closeByPositionId", oppositePositionId)]
       [or_empty options])
    (_application this).

Definition closePositionsBySymbol (symbol options : value) :=
  websocketClient_trade (_account_id this)
    (Object_assign [("actionType", VStr "POSITIONS_CLOSE_SYMBOL"); ("symbol", symbol)]
       [or_empty options])
    (_application this).

Definition modifyOrder (orderId openPrice stopLoss takeProfit : value) :=
  websocketClient_trade (_account_id this)
    (Object_assign [("actionType", VStr "ORDER_MODIFY"); ("orderId", orderId);
                    ("openPrice", openPrice)]
       [VObj (_generateStopOptions stopLoss takeProfit)])
    (_application this).

Definition cancelOrder (orderId : value) :=
  websocketClient_trade (_account_id this)
    [("actionType", VStr "ORDER_CANCEL"); ("orderId", orderId)]
    (_application this).

(** [reconnect()]. *)
Definition reconnect : value * Rpc.rpc := (_account_id this, Rpc.reconnect).

End WithConnection.

(** The trades a user can ask for, with their arguments. *)
Inductive trade_call : Type :=
| CreateMarketBuyOrder (symbol volume stopLoss takeProfit options : value)
| CreateMarketSellOrder (symbol volume stopLoss takeProfit options : value)
| CreateLimitBuyOrder (symbol volume openPrice stopLoss takeProfit options : value)
| CreateLimitSellOrder (symbol volume openPrice stopLoss takeProfit options : value)
| CreateStopBuyOrder (symbol volume openPrice stopLoss takeProfit options : value)
| CreateStopSellOrder (symbol volume openPrice stopLoss takeProfit options : value)
| CreateStopLimitBuyOrder
    (symbol volume openPrice stopLimitPrice stopLoss takeProfit options : value)
| CreateStopLimitSellOrder
    (symbol volume openPrice stopLimitPrice stopLoss takeProfit options : value)
| ModifyPosition (positionId stopLoss takeProfit : value)
| ClosePositionPartially (positionId volume options : value)
| ClosePosition (positionId options : value)
| CloseBy (positionId oppositePositionId options : value)
| ClosePositionsBySymbol (symbol options : value)
| ModifyOrder (orderId openPrice stopLoss takeProfit : value)
| CancelOrder (orderId : value).

Definition perform (this : Connection) (call : trade_call) : value * Rpc.rpc :=
  match call with
  | CreateMarketBuyOrder symbol volume stopLoss takeProfit options =>
      createMarketBuyOrder this symbol volume stopLoss takeProfit options
  | CreateMarketSellOrder symbol volume stopLoss takeProfit options =>
      createMarketSellOrder this symbol volume stopLoss takeProfit options
  | CreateLimitBuyOrder symbol volume openPrice stopLoss takeProfit options =>
      createLimitBuyOrder this symbol volume openPrice stopLoss takeProfit options
  | CreateLimitSellOrder symbol volume openPrice stopLoss takeProfit options =>
      createLimitSellOrder this symbol volume openPrice stopLoss takeProfit options
  | CreateStopBuyOrder symbol volume openPrice stopLoss takeProfit options =>
      createStopBuyOrder this symbol volume openPrice stopLoss takeProfit options
  | CreateStopSellOrder symbol volume openPrice stopLoss takeProfit options =>
      createStopSellOrder this symbol volume openPrice stopLoss takeProfit options
  | CreateStopLimitBuyOrder symbol volume openPrice stopLimitPrice stopLoss takeProfit
      options =>
      createStopLimitBuyOrder this symbol volume openPrice stopLimitPrice stopLoss
        takeProfit options
  | CreateStopLimitSellOrder symbol volume openPrice stopLimitPrice stopLoss takeProfit
      options =>
      createStopLimitSellOrder this symbol volume openPrice stopLimitPrice stopLoss
        takeProfit options
  | ModifyPosition positionId stopLoss takeProfit =>
      modifyPosition this positionId stopLoss takeProfit
  | ClosePositionPartially positionId volume options =>
      closePositionPartially this positionId volume options
  | ClosePosition positionId options => closePosition this positionId options
  | CloseBy positionId oppositePositionId options =>
      closeBy this positionId oppositePositionId options
  | ClosePositionsBySymbol symbol options => closePositionsBySymbol this symbol options
  | ModifyOrder orderId openPrice stopLoss takeProfit =>
      modifyOrder this orderId openPrice stopLoss takeProfit
  | CancelOrder orderId => cancelOrder this orderId
  end.

(** What the documentation of each method says it sends: the action
    type, and the arguments under their names. *)
Definition documented (call : trade_call) : object :=
  match call with
  | CreateMarketBuyOrder symbol volume _ _ _ =>
      [("actionType", VStr "ORDER_TYPE_BUY"); ("symbol", symbol); ("volume", volume)]
  | CreateMarketSellOrder symbol volume _ _ _ =>
      [("actionType", VStr "ORDER_TYPE_SELL"); ("symbol", symbol); ("volume", volume)]
  | CreateLimitBuyOrder symbol volume openPrice _ _ _ =>
      [("actionType", VStr "ORDER_TYPE_BUY_LIMIT"); ("symbol", symbol); ("volume", volume);
       ("openPrice", openPrice)]
  | CreateLimitSellOrder symbol volume openPrice _ _ _ =>
      [("actionType", VStr "ORDER_TYPE_SELL_LIMIT"); ("symbol", symbol); ("volume", volume);
       ("openPrice", openPrice)]
  | CreateStopBuyOrder symbol volume openPrice _ _ _ =>
      [("actionType", VStr "ORDER_TYPE_BUY_STOP"); ("symbol", symbol); ("volume", volume);
       ("openPrice", openPrice)]
  | CreateStopSellOrder symbol volume openPrice _ _ _ =>
      [("actionType", VStr "ORDER_TYPE_SELL_STOP"); ("symbol", symbol); ("volume", volume);
       ("openPrice", openPrice)]
  | CreateStopLimitBuyOrder symbol volume openPrice stopLimitPrice _ _ _ =>
      [("actionType", VStr "ORDER_TYPE_BUY_STOP_LIMIT"); ("symbol", symbol);
       ("volume", volume); ("openPrice", openPrice); ("stopLimitPrice", stopLimitPrice)]
  | CreateStopLimitSellOrder symbol volume openPrice stopLimitPrice _ _ _ =>
      [("actionType", VStr "ORDER_TYPE_SELL_STOP_LIMIT"); ("symbol", symbol);
       ("volume", volume); ("openPrice", openPrice); ("stopLimitPrice", stopLimitPrice)]
  | ModifyPosition positionId _ _ =>
      [("actionType", VStr "POSITION_MODIFY"); ("positionId", positionId)]
  | ClosePositionPartially positionId volume _ =>
      [("actionType", VStr "POSITION_PARTIAL"); ("positionId", positionId);
       ("volume", volume)]
  | ClosePosition positionId _ =>
      [("actionType", VStr "POSITION_CLOSE_ID"); ("positionId", positionId)]
  | CloseBy positionId oppositePositionId _ =>
      [("actionType", VStr "POSITION_CLOSE_BY"); ("positionId", positionId);
       ("closeByPositionId", oppositePositionId)]
  | ClosePositionsBySymbol symbol _ =>
      [("actionType", VStr "POSITIONS_CLOSE_SYMBOL"); ("symbol", symbol)]
  | ModifyOrder orderId openPrice _ _ =>
      [("actionType", VStr "ORDER_MODIFY"); ("orderId", orderId); ("openPrice", openPrice)]
  | CancelOrder orderId => [("actionType", VStr "ORDER_CANCEL"); ("orderId", orderId)]
  end.

(** The stops and the options a call was given; a method without the
    parameter has none. *)
Definition stops_of (call : trade_call) : object :=
  match call with
  | CreateMarketBuyOrder _ _ stopLoss takeProfit _
  | CreateMarketSellOrder _ _ stopLoss takeProfit _
  | CreateLimitBuyOrder _ _ _ stopLoss takeProfit _
  | CreateLimitSellOrder _ _ _ stopLoss takeProfit _
  | CreateStopBuyOrder _ _ _ stopLoss takeProfit _
  | CreateStopSellOrder _ _ _ stopLoss takeProfit _
  | CreateStopLimitBuyOrder _ _ _ _ stopLoss takeProfit _
  | CreateStopLimitSellOrder _ _ _ _ stopLoss takeProfit _
  | ModifyPosition _ stopLoss takeProfit
  | ModifyOrder _ _ stopLoss takeProfit => _generateStopOptions stopLoss takeProfit
  | _ => []
  end.

Definition options_of (call : trade_call) : dict value :=
  match call with
  | CreateMarketBuyOrder _ _ _ _ options
  | CreateMarketSellOrder _ _ _ _ options
  | CreateLimitBuyOrder _ _ _ _ _ options
  | CreateLimitSellOrder _ _ _ _ _ options
  | CreateStopBuyOrder _ _ _ _ _ options
  | CreateStopSellOrder _ _ _ _ _ options
  | CreateStopLimitBuyOrder _ _ _ _ _ _ options
  | CreateStopLimitSellOrder _ _ _ _ _ _ options
  | ClosePositionPartially _ _ options
  | ClosePosition _ options
  | CloseBy _ _ options
  | ClosePositionsBySymbol _ options => own_enumerable (or_empty options)
  | _ => []
  end.

(** *** Synchronization retries *)

(** The state the connection keeps for an instance index, as
    [_getState] makes it. *)
Record SynchronizationState : Type := mkSynchronizationState {
  instanceIndex : value;
  ordersSynchronized : dict value;
  dealsSynchronized : dict value;
  shouldSynchronize : value;
  synchronizationRetryIntervalInSeconds : float;
  synchronized : bool;
  lastDisconnectedSynchronizationId : value;
  lastSynchronizationId : value;
  disconnected : bool
}.

Definition new_state (instanceIndex : value) : SynchronizationState :=
  mkSynchronizationState instanceIndex [] [] VUndefined 1 false VUndefined VUndefined false.

Definition set_synchronizationRetryIntervalInSeconds (v : float)
    (s : SynchronizationState) : SynchronizationState :=
  mkSynchronizationState (instanceIndex s) (ordersSynchronized s) (dealsSynchronized s)
    (shouldSynchronize s) v (synchronized s) (lastDisconnectedSynchronizationId s)
    (lastSynchronizationId s) (disconnected s).

Definition set_synchronized (v : bool) (s : SynchronizationState) : SynchronizationState :=
  mkSynchronizationState (instanceIndex s) (ordersSynchronized s) (dealsSynchronized s)
    (shouldSynchronize s) (synchronizationRetryIntervalInSeconds s) v
    (lastDisconnectedSynchronizationId s) (lastSynchronizationId s) (disconnected s).

(** [Math.min] of two numbers: [NaN] if one is, and [-0] below [0]. *)
Definition Math_min (a b : float) : float :=
  if is_nan a || is_nan b then nan
  else if PrimFloat.ltb a b then a
  else if PrimFloat.ltb b a then b
  else if get_sign a then a else b.

(** How [await this.synchronize(instanceIndex)] ends. *)
Inductive attempt : Type :=
| Returned (synchronizationResult : value)
| Thrown.

(** [_ensureSynchronized(instanceIndex, key)] from the end of the
    [await] on, on the state object it got from [_getState] before: the
    state it leaves, and the delay in milliseconds of the timer it sets
    to run again, if it sets one. *)
Definition synchronization_ended (key : value) (ended : attempt)
    (state : SynchronizationState) : SynchronizationState * option float :=
  match ended with
  | Returned synchronizationResult =>
      if truthy synchronizationResult then
        (set_synchronizationRetryIntervalInSeconds 1 (set_synchronized true state), None)
      else (state, None)
  | Thrown =>
      if strict_eq (shouldSynchronize state) key then
        (set_synchronizationRetryIntervalInSeconds
           (Math_min (synchronizationRetryIntervalInSeconds state * 2) 300) state,
         Some (synchronizationRetryIntervalInSeconds state * 1000)%float)
      else (state, None)
  end.

Section WithRuntime.
Context `{Runtime}.

(** [_getState(instanceIndex)] of the connection. *)
Definition _getState (instanceIndex : value) (states : gmap string SynchronizationState)
  : SynchronizationState * gmap string SynchronizationState :=
  match states !! ToString instanceIndex with
  | Some state => (state, states)
  | None =>
      (new_state instanceIndex, <[ToString instanceIndex := new_state instanceIndex]> states)
  end.

End WithRuntime.

(** [_ensureSynchronized(instanceIndex, key)] on the state object that
    [_getState] returns: nothing is done on a closed connection, and
    [ended] is how [this.synchronize] ends otherwise. *)
Definition _ensureSynchronized (_closed key : value) (ended : attempt)
    (state : SynchronizationState) : SynchronizationState * option float :=
  if truthy _closed then (state, None) else synchronization_ended key ended state.

End MetaApiConnection.

(** ** Reading the terminal state *)

Module TerminalStateReads.
Import JS TerminalState.


(** The fields of a position that [_updatePositionProfits] assigns, and
    the fields of the account information that [updateSymbolPrices]
    assigns. *)
Definition profit_fields : list string :=
  ["profit"; "unrealizedProfit"; "realizedProfit"; "currentPrice"; "currentTickValue"].

Definition margin_fields : list string :=
  ["equity"; "margin"; "freeMargin"; "marginLevel"].

(** A state with the prices and the time of the last update of another. *)
Definition with_quotes_of (old st : State) : State :=
  set_lastUpdateTime (lastUpdateTime old) (set_pricesBySymbol (pricesBySymbol old) st).

(** From [ts] to [ts']: the combined state differs at most in its prices
    and in the time of its last update; every array holds the same
    positions or orders; a position differs at most in its profit
    fields, an order in its current price and an account information
    object in its margin fields. *)
Record quoted (ts ts' : TerminalState) : Prop := mk_quoted {
  quoted_combinedState :
    with_quotes_of (combinedState ts) (combinedState ts') = combinedState ts;
  quoted_positionArrays : forall l, read_positionArray l ts' = read_positionArray l ts;
  quoted_orderArrays : forall l, read_orderArray l ts' = read_orderArray l ts;
  quoted_position :
    forall l k, k ∉ profit_fields ->
                prop_get k (read_position l ts') = prop_get k (read_position l ts);
  quoted_order :
    forall l k, k ≠ "currentPrice" ->
                prop_get k (read_order l ts') = prop_get k (read_order l ts);
  quoted_account :
    forall l k, k ∉ margin_fields ->
                prop_get k (read_account l ts') = prop_get k (read_account l ts)
}.

(** [state.positions.findIndex(p => p.id === id)] and the same for the
    orders. *)
Definition position_index (id : value) (tgt : target) (ts : TerminalState) : option nat :=
  findIndex (fun p => strict_eq (prop_get "id" (read_position p ts)) id)
            (read_positionArray (positions (get_state tgt ts)) ts).

Definition order_index (id : value) (tgt : target) (ts : TerminalState) : option nat :=
  findIndex (fun o => strict_eq (prop_get "id" (read_order o ts)) id)
            (read_orderArray (orders (get_state tgt ts)) ts).

(** The state of the instance and the combined state hold the same array
    of positions, or of orders. *)
Definition positions_shared (i : string) (ts : TerminalState) : bool :=
  bool_decide (positions (get_state (Instance i) ts) = positions (combinedState ts)).

Definition orders_shared (i : string) (ts : TerminalState) : bool :=
  bool_decide (orders (get_state (Instance i) ts) = orders (combinedState ts)).

(** An array after [array[index] = item] where the index was found, and
    after [array.push(item)] where it was not and [pushed] holds. *)
Definition upsert (found : option nat) (pushed : bool) (item : loc) (array : list loc)
  : list loc :=
  match found with
  | Some index => <[index := item]> array
  | None => if pushed then array ++ [item] else array
  end.


(** The promises waiting for the price of a symbol. *)
Definition waiting (symbol : string) (ts : TerminalState) : list nat :=
  default [] (waitForPriceResolves ts !! symbol).

Section WithRuntime.
Context `{Runtime}.



End WithRuntime.

End TerminalStateReads.

(** ** Data for the closed examples *)

Module Example.
Import JS TerminalState.

Fixpoint power (x : float) (n : nat) : float :=
  match n with
  | O => one
  | S n' => (x * power x n')%float
  end.

(** A runtime to evaluate the examples with.  [Math.pow] is repeated
    multiplication, which is exact for the powers of ten the examples
    take. *)
#[export] Instance runtime : Runtime := {|
  Math_pow x y :=
    match safe_integer y with
    | Some n => if (0 <=? n)%Z then power x (Z.to_nat n)
                else (1 / power x (Z.to_nat (- n)))%float
    | None => nan
    end;
  number_repr := Engine.shortest_repr;
  Date_toISOString := Engine.toISOString;
  Date_toString := Engine.toString
|}.

(** A terminal state whose store already holds the objects a caller is
    about to pass in. *)
Definition with_positions (ps : list object) (ts : TerminalState) : TerminalState :=
  set_heap (set_positionObjects (positionObjects (heap ts) ++ ps) (heap ts)) ts.

Definition with_orders (os : list object) (ts : TerminalState) : TerminalState :=
  set_heap (set_orderObjects (orderObjects (heap ts) ++ os) (heap ts)) ts.

Definition with_accounts (accounts : list object) (ts : TerminalState) : TerminalState :=
  set_heap (set_accountObjects (accountObjects (heap ts) ++ accounts) (heap ts)) ts.

(** [{id: "42", symbol: "EURUSD", type: "POSITION_TYPE_BUY"}] *)
Definition position42 : object :=
  [("id", VStr "42"); ("symbol", VStr "EURUSD"); ("type", VStr "POSITION_TYPE_BUY")].

Definition account_mt5 : object :=
  [("platform", VStr "mt5"); ("balance", VNum 10000); ("equity", VNum 9000);
   ("margin", VNum 1); ("freeMargin", VNum 2); ("marginLevel", VNum 100)].

Definition eurusd_position (id : string) (swap unrealizedProfit : float) : object :=
  [("id", VStr id); ("symbol", VStr "EURUSD"); ("type", VStr "POSITION_TYPE_BUY");
   ("swap", VNum swap); ("unrealizedProfit", VNum unrealizedProfit)].

Definition eurusd_price (t : float) : object :=
  [("symbol", VStr "EURUSD"); ("bid", VNum 1.1); ("ask", VNum 1.2);
   ("profitTickValue", VNum 1); ("lossTickValue", VNum 1); ("time", VDate t)].

(** Scenario S2 of the specification: instance "0" gets the account
    information and two positions, and ends its synchronization, which
    promotes it to the combined state. *)
Definition s2_positions : list object :=
  [eurusd_position "1" (-1) 25.123; eurusd_position "2" (-2) (-10)].

Definition synchronized (account : object) (positions : list object) : TerminalState :=
  let ts := with_accounts [account] TerminalState.constructor in
  let ts := with_positions positions ts in
  let ts := onAccountInformationUpdated "0" (Some 0) ts in
  let ts := List.fold_left (fun ts l => onPositionUpdated "0" l ts)
              (List.seq 0 (length positions)) ts in
  let ts := onPositionsSynchronized "0" "sync" ts in
  onPendingOrdersSynchronized "0" "sync" ts.

Definition s2_state : TerminalState := synchronized account_mt5 s2_positions.




Definition eurusd_specification : object :=
  [("symbol", VStr "EURUSD"); ("digits", VNum 5); ("tickSize", VNum 0.00001);
   ("description", VStr "Euro vs US Dollar")].

Definition buy_position : object :=
  [("id", VStr "7"); ("symbol", VStr "EURUSD"); ("type", VStr "POSITION_TYPE_BUY");
   ("openPrice", VNum 1); ("currentPrice", VNum 1.05); ("currentTickValue", VNum 1);
   ("volume", VNum 1); ("profit", VNum 10); ("unrealizedProfit", VNum 10);
   ("realizedProfit", VNum 0)].

(** A position whose symbol is the name of a member of
    [Object.prototype]. *)
Definition constructor_position : object :=
  [("id", VStr "8"); ("symbol", VStr "constructor"); ("type", VStr "POSITION_TYPE_BUY");
   ("openPrice", VNum 1); ("currentPrice", VNum 1.05); ("currentTickValue", VNum 1);
   ("volume", VNum 1); ("profit", VNum 10); ("unrealizedProfit", VNum 10);
   ("realizedProfit", VNum 0)].

(** Instance "0" holds a position and the specification of its symbol.
    Instance "1" then ends its synchronization: the combined state takes
    the dictionary of instance "1", which is empty. *)
Definition two_instances_before_promotion : TerminalState :=
  let ts := with_positions [buy_position] TerminalState.constructor in
  let ts := onSymbolSpecificationsUpdated "0" [eurusd_specification] [] ts in
  onPositionUpdated "0" 0 ts.

Definition two_instances : TerminalState :=
  onPendingOrdersSynchronized "1" "sync" two_instances_before_promotion.

(** Scenario S2 with the two positions arriving in the other order. *)
Definition s2_state_reversed : TerminalState :=
  synchronized account_mt5
    [eurusd_position "2" (-2) (-10); eurusd_position "1" (-1) 25.123].

(** Scenario S3 of the specification: instance "0" holds the
    specification of EURUSD. *)
Definition s3_specification : object :=
  [("symbol", VStr "EURUSD"); ("digits", VNum 5); ("tickSize", VNum 0.00001);
   ("description", VStr "...")].

Definition s3_state : TerminalState :=
  onSymbolSpecificationsUpdated "0" [s3_specification] [] TerminalState.constructor.

(** The serialization of scenario S3 under cloud-g1. *)
Definition s3_serialization : string :=
  "[{" +:+ dquote +:+ "symbol" +:+ dquote +:+ ":" +:+ dquote +:+ "EURUSD" +:+ dquote
  +:+ "," +:+ dquote +:+ "digits" +:+ dquote +:+ ":5"
  +:+ "," +:+ dquote +:+ "tickSize" +:+ dquote +:+ ":0.00001000" +:+ "}]".

End Example.

(** ** A client to run *)

Module ClientExample.
Import JS WebsocketClient.

(** The characters [randomstring.generate] draws from. *)
Definition alphabet : list ascii :=
  list_ascii_of_string "0123456789ABCDEFGHIJKLMNOPQRSTUVWXYZabcdefghijklmnopqrstuvwxyz".

(** [length] characters of the alphabet, one for each base-62 digit of
    the entropy. *)
Fixpoint generate_from (length : nat) (seed : N) : string :=
  match length with
  | O => EmptyString
  | S length' =>
      String (List.nth (N.to_nat (seed mod 62)) alphabet "0"%char)
             (generate_from length' (seed / 62))
  end.

#[export] Instance environment : Environment.
Proof.
  refine {| generate := generate_from; Date_parse := Engine.parse |}.
  - intros n. induction n as [|n IH]; intros seed; simpl; [done|]. by rewrite IH.
  - intros n. induction n as [|n IH]; intros seed; [done|].
    cbn [generate_from list_ascii_of_string forallb]. rewrite IH, andb_true_r.
    assert (Hall : forallb alphanumeric alphabet = true) by reflexivity.
    rewrite forallb_forall in Hall. apply Hall, nth_In.
    change (List.length alphabet) with 62%nat.
    pose proof (N.mod_upper_bound seed 62). lia.
Defined.

(** A request for the account information, its reply, and the reply
    once more. *)
Definition reply (requestId : string) : object :=
  [("type", VStr "response"); ("requestId", VStr requestId);
   ("accountInformation", VObj [("broker", VStr "Broker"); ("balance", VNum 10000)])].

Definition request_trace : list event :=
  [Connect;
   RpcRequest (VStr "accountId") [("type", VStr "getAccountInformation")] 2020;
   ResponsePacket (reply (generate 32 2020));
   ResponsePacket (reply (generate 32 2020))].

End ClientExample.

(** ** Requests to run *)

Module RpcExample.
Import JS WebsocketClient Rpc Example ClientExample.

(** A connected client with two requests in its table. *)
Definition two_requests : Client :=
  run [Connect;
       RpcRequest (VStr "accountId") (request getPositions) 1;
       RpcRequest (VStr "accountId") (request (getPosition (VStr "42"))) 2]
      constructor.

Definition unauthorized : object :=
  [("requestId", VStr (generate 32 1)); ("error", VStr "UnauthorizedError");
   ("message", VStr "not allowed")].

Definition not_found : object :=
  [("requestId", VStr (generate 32 2)); ("error", VStr "NotFoundError");
   ("message", VStr "no such position")].

(** A reply whose position carries two times and a time zone. *)
Definition position_reply : object :=
  [("type", VStr "response"); ("requestId", VStr (generate 32 2));
   ("position", VObj [("id", VStr "42"); ("time", VStr "2020-11-03T00:00:00.000Z");
                      ("updateTime", VStr "2020-11-03T00:00:00.123Z");
                      ("brokerTimezone", VStr "EET")])].

End RpcExample.

(** ** Trades to run *)

Module ConnectionExample.
Import JS MetaApiConnection.

Definition connection : Connection := mkConnection (VStr "accountId") (VStr "MetaApi").

(** A limit buy order with a stop loss as a price, a take profit in
    relative units, and options that name a comment and another volume. *)
Definition limit_buy : trade_call :=
  CreateLimitBuyOrder (VStr "EURUSD") (VNum 0.07) (VNum 1) (VNum 0.9)
    (VObj [("value", VNum 0.02); ("units", VStr "RELATIVE_PRICE")])
    (VObj [("comment", VStr "comment"); ("volume", VNum 0.1)]).

(** The state of an instance that was told to synchronize with a key. *)
Definition waiting : SynchronizationState :=
  mkSynchronizationState (VStr "0") [] [] (VStr "key") 1 false VUndefined VUndefined false.

End ConnectionExample.

Module ListsExample.
Import JS TerminalState Example.

(** [{id: "46", symbol: "EURUSD", type: "ORDER_TYPE_BUY_LIMIT", openPrice: 1}] *)
Definition order46 : object :=
  [("id", VStr "46"); ("symbol", VStr "EURUSD"); ("type", VStr "ORDER_TYPE_BUY_LIMIT");
   ("openPrice", VNum 1)].

(** A position and an order whose ids are names of members of
    [Object.prototype]. *)
Definition position_constructor : object :=
  [("id", VStr "constructor"); ("symbol", VStr "EURUSD"); ("type", VStr "POSITION_TYPE_BUY")].

Definition order_toString : object :=
  [("id", VStr "toString"); ("symbol", VStr "EURUSD"); ("type", VStr "ORDER_TYPE_BUY_LIMIT");
   ("openPrice", VNum 1)].

(** A new terminal state whose store holds the positions "42" and
    "constructor" and the orders "46" and "toString", which no state
    refers to yet. *)
Definition empty_handed : TerminalState :=
  with_orders [order46; order_toString]
    (with_positions [position42; position_constructor] TerminalState.constructor).

(** Instance "0" has then been told of both. *)
Definition holding : TerminalState :=
  onPendingOrderUpdated "0" 0 (onPositionUpdated "0" 0 empty_handed).

End ListsExample.

(** * Properties *)

(** ** Dictionaries and objects *)

Section DictFacts.
Context {A : Type}.
Implicit Types (d : JS.dict A) (k : string).

Lemma dict_get_set_eq k v d : JS.dict_get k (JS.dict_set k v d) = Some v.
Proof.
  induction d as [|[k' v'] d IH]; simpl.
  - by rewrite String.eqb_refl.
  - destruct (String.eqb k k') eqn:E; simpl; rewrite ?String.eqb_refl, ?E; auto.
Qed.

Lemma dict_get_set_ne k k' v d :
  k ≠ k' -> JS.dict_get k (JS.dict_set k' v d) = JS.dict_get k d.
Proof.
  intros Hne. apply String.eqb_neq in Hne.
  induction d as [|[k0 v0] d IH]; simpl.
  - by rewrite Hne.
  - destruct (String.eqb k' k0) eqn:E; simpl.
    + apply String.eqb_eq in E; subst k0. by rewrite Hne.
    + by rewrite IH.
Qed.

Lemma dict_get_delete_eq k d : JS.dict_get k (JS.dict_delete k d) = None.
Proof.
  induction d as [|[k' v'] d IH]; simpl; auto.
  destruct (String.eqb k k') eqn:E; simpl; rewrite ?E; auto.
Qed.

Lemma dict_get_delete_ne k k' d :
  k ≠ k' -> JS.dict_get k (JS.dict_delete k' d) = JS.dict_get k d.
Proof.
  intros Hne. apply String.eqb_neq in Hne.
  induction d as [|[k0 v0] d IH]; simpl; auto.
  destruct (String.eqb k' k0) eqn:E; simpl.
  - apply String.eqb_eq in E; subst k0. by rewrite Hne.
  - by rewrite IH.
Qed.

End DictFacts.

Lemma prop_get_set_eq k v o : JS.prop_get k (JS.prop_set k v o) = v.
Proof. unfold JS.prop_get, JS.prop_set. by rewrite dict_get_set_eq. Qed.

Lemma prop_get_set_ne k k' v o :
  k ≠ k' -> JS.prop_get k (JS.prop_set k' v o) = JS.prop_get k o.
Proof. intros. unfold JS.prop_get, JS.prop_set. by rewrite dict_get_set_ne. Qed.

Lemma prop_get_delete_eq k o : JS.prop_get k (JS.prop_delete k o) = JS.VUndefined.
Proof. unfold JS.prop_get, JS.prop_delete. by rewrite dict_get_delete_eq. Qed.

Lemma prop_get_delete_ne k k' o :
  k ≠ k' -> JS.prop_get k (JS.prop_delete k' o) = JS.prop_get k o.
Proof. intros. unfold JS.prop_get, JS.prop_delete. by rewrite dict_get_delete_ne. Qed.

(** Rewriting a read after writes, for keys that are literals. *)
Ltac prop_simpl :=
  repeat first
    [ rewrite prop_get_set_eq
    | rewrite prop_get_set_ne by discriminate
    | rewrite prop_get_delete_ne by discriminate ].

(** ** The states and the store under the steps of the callbacks *)

Section TerminalStateFacts.
Import JS TerminalState.
Context `{Runtime}.

Lemma same_states_refl ts : same_states ts ts.
Proof. by split. Qed.


Lemma same_states_get tgt ts ts' :
  same_states ts ts' -> get_state tgt ts' = get_state tgt ts.
Proof. intros [Hi Hc]. destruct tgt; simpl; congruence. Qed.

Lemma same_states_set_heap h ts : same_states ts (set_heap h ts).
Proof. by split. Qed.

Lemma get_put_same tgt st ts : get_state tgt (put_state tgt st ts) = st.
Proof. destruct tgt; simpl; auto. by rewrite lookup_total_insert_eq. Qed.

Lemma get_put_instance_combined i st ts :
  get_state (Instance i) (put_state Combined st ts) = get_state (Instance i) ts.
Proof. reflexivity. Qed.


Lemma get_put_instance_ne i j st ts :
  i ≠ j -> get_state (Instance i) (put_state (Instance j) st ts) = get_state (Instance i) ts.
Proof. intros. simpl. by rewrite lookup_total_insert_ne. Qed.

Lemma heap_put_state tgt st ts : heap (put_state tgt st ts) = heap ts.
Proof. by destruct tgt. Qed.

Lemma heap_modify_state tgt f ts : heap (modify_state tgt f ts) = heap ts.
Proof. apply heap_put_state. Qed.

Lemma get_modify_same tgt f ts :
  get_state tgt (modify_state tgt f ts) = f (get_state tgt ts).
Proof. apply get_put_same. Qed.

(** A step that leaves a property alone leaves it alone when folded. *)
Lemma fold_left_preserves {S X} (P : S -> Prop) (f : S -> X -> S) (l : list X) (s : S) :
  (forall s x, P s -> P (f s x)) -> P s -> P (List.fold_left f l s).
Proof. intros Hf. revert s. induction l; simpl; auto. Qed.


Lemma same_states_set_waitForPriceResolves v ts :
  same_states ts (set_waitForPriceResolves v ts).
Proof. by split. Qed.

Lemma same_states_set_resolved v ts : same_states ts (set_resolved v ts).
Proof. by split. Qed.

Lemma get_modify tgt tgt' f ts :
  get_state tgt' (modify_state tgt f ts)
  = if decide (tgt' = tgt) then f (get_state tgt ts) else get_state tgt' ts.
Proof.
  case_decide as E.
  - subst. apply get_modify_same.
  - destruct tgt, tgt'; simpl; try done.
    rewrite lookup_total_insert_ne; [done|congruence].
Qed.

Lemma read_position_modify l tgt f ts :
  read_position l (modify_state tgt f ts) = read_position l ts.
Proof. unfold read_position. by rewrite heap_modify_state. Qed.

Lemma price_frame_refl ts : price_frame ts ts.
Proof. by constructor. Qed.

Lemma specification_frame symbol ts ts' :
  price_frame ts ts' -> specification symbol ts' = specification symbol ts.
Proof.
  intros F. unfold specification, read_specificationMap.
  rewrite (frame_specificationMaps _ _ F).
  pose proof (frame_states _ _ F Combined) as E.
  apply (f_equal specificationsBySymbol) in E. simpl in E. by rewrite E.
Qed.

Lemma price_frame_trans ts1 ts2 ts3 :
  price_frame ts1 ts2 -> price_frame ts2 ts3 -> price_frame ts1 ts3.
Proof.
  intros F G. constructor.
  - intros tgt. by rewrite (frame_states _ _ G), (frame_states _ _ F).
  - by rewrite (frame_positionArrays _ _ G), (frame_positionArrays _ _ F).
  - by rewrite (frame_orderArrays _ _ G), (frame_orderArrays _ _ F).
  - by rewrite (frame_accountObjects _ _ G), (frame_accountObjects _ _ F).
  - by rewrite (frame_specificationMaps _ _ G), (frame_specificationMaps _ _ F).
  - intros l. by rewrite (frame_symbols _ _ G), (frame_symbols _ _ F).
  - intros l Hnone.
    rewrite (frame_unspecified _ _ G), (frame_unspecified _ _ F); auto.
    rewrite (frame_symbols _ _ F), (specification_frame _ _ _ F); auto.
Qed.

Lemma price_frame_modify tgt f ts :
  (forall st, erase_prices (f st) = erase_prices st) ->
  price_frame ts (modify_state tgt f ts).
Proof.
  intros Hf. constructor; rewrite ?heap_modify_state; auto.
  - intros tgt'. rewrite get_modify. case_decide; subst; auto.
  - intros l. by rewrite read_position_modify.
  - intros l _. by rewrite read_position_modify.
Qed.

Lemma price_frame_same_heap ts ts' :
  same_states ts ts' -> heap ts' = heap ts -> price_frame ts ts'.
Proof.
  intros Hs Hh. constructor; rewrite ?Hh; auto.
  - intros tgt. by rewrite (same_states_get _ _ _ Hs).
  - intros l. unfold read_position. by rewrite Hh.
  - intros l _. unfold read_position. by rewrite Hh.
Qed.

(** [_updatePositionProfits] writes five fields of the position. *)
Lemma updatePositionProfits_fields_other k spec price o :
  k ≠ "profit" -> k ≠ "unrealizedProfit" -> k ≠ "realizedProfit" ->
  k ≠ "currentPrice" -> k ≠ "currentTickValue" ->
  prop_get k (updatePositionProfits_fields spec price o) = prop_get k o.
Proof.
  intros. unfold updatePositionProfits_fields. cbv zeta.
  rewrite !prop_get_set_ne by done.
  destruct (is_undefined (prop_get "unrealizedProfit" _) || _);
    destruct (negb (is_undefined (prop_get "profit" o)));
    rewrite ?prop_get_set_ne by done; done.
Qed.

Lemma read_position_write_ne l l' o ts :
  l ≠ l' -> read_position l (write_position l' o ts) = read_position l ts.
Proof.
  intros. unfold read_position, write_position. simpl.
  by rewrite list_lookup_total_insert_ne.
Qed.

Lemma read_position_write_eq l o ts :
  read_position l (write_position l o ts) = o
  \/ read_position l (write_position l o ts) = read_position l ts.
Proof.
  unfold read_position, write_position. simpl.
  destruct (decide (l < length (positionObjects (heap ts)))).
  - left. by rewrite list_lookup_total_insert_eq.
  - right. rewrite list_insert_ge; [done|lia].
Qed.

Lemma price_frame_updatePositionProfits position p ts :
  price_frame ts (_updatePositionProfits position p ts).
Proof.
  unfold _updatePositionProfits.
  destruct (specification _ ts) as [spec|] eqn:Hspec; [|apply price_frame_refl].
  constructor; try done.
  - intros l. destruct (decide (l = position)) as [->|Hne].
    + destruct (read_position_write_eq position
                  (updatePositionProfits_fields (found_fields spec) p
                   (read_position position ts)) ts)
        as [-> | ->]; [|done].
      by apply updatePositionProfits_fields_other.
    + by rewrite read_position_write_ne.
  - intros l Hnone. destruct (decide (l = position)) as [->|Hne].
    + congruence.
    + by rewrite read_position_write_ne.
Qed.

Lemma price_frame_write_order order o ts : price_frame ts (write_order order o ts).
Proof. by constructor. Qed.

Lemma price_frame_update_otherPositions state others ts :
  price_frame ts (update_otherPositions state others ts).1.
Proof.
  unfold update_otherPositions.
  apply (fold_left_preserves (fun acc => price_frame ts acc.1)); [|apply price_frame_refl].
  intros [ts' b] position F. simpl in *.
  destruct (price_found state _); simpl; auto.
  destruct (is_undefined _); auto.
  eapply price_frame_trans; [exact F|]. apply price_frame_updatePositionProfits.
Qed.

Lemma price_frame_update_positions price positions ts :
  price_frame ts (update_positions price positions ts).
Proof.
  unfold update_positions.
  apply (fold_left_preserves (price_frame ts)); [|apply price_frame_refl].
  intros ts' position F.
  eapply price_frame_trans; [exact F|]. apply price_frame_updatePositionProfits.
Qed.

Lemma price_frame_update_orders price orders ts :
  price_frame ts (update_orders price orders ts).
Proof.
  unfold update_orders.
  apply (fold_left_preserves (price_frame ts)); [|apply price_frame_refl].
  intros ts' order F.
  eapply price_frame_trans; [exact F|]. apply price_frame_write_order.
Qed.

Lemma price_frame_resolve_price symbol ts : price_frame ts (resolve_price symbol ts).
Proof.
  unfold resolve_price. destruct (default [] _); [apply price_frame_refl|].
  by apply price_frame_same_heap.
Qed.

Lemma price_frame_updateSymbolPrice tgt price ts :
  price_frame ts (updateSymbolPrice tgt price ts).1.
Proof.
  unfold updateSymbolPrice. cbv zeta.
  set (ts1 := modify_state tgt (set_price price) ts).
  assert (F1 : price_frame ts ts1) by (by apply price_frame_modify).
  match goal with
  | |- context [update_otherPositions ?st ?l ts1] =>
      pose proof (price_frame_update_otherPositions st l ts1) as F2;
      destruct (update_otherPositions st l ts1) as [ts2 initialized]
  end.
  simpl in *.
  eapply price_frame_trans; [exact F1|].
  eapply price_frame_trans; [exact F2|].
  eapply price_frame_trans; [apply price_frame_update_positions|].
  eapply price_frame_trans; [apply price_frame_update_orders|].
  apply price_frame_resolve_price.
Qed.

Lemma price_frame_update_prices tgt prices ts :
  price_frame ts (update_prices tgt prices ts).1.
Proof.
  unfold update_prices.
  apply (fold_left_preserves (fun acc => price_frame ts acc.1)); [|apply price_frame_refl].
  intros [ts' b] price F. simpl in *.
  eapply price_frame_trans; [exact F|]. apply price_frame_updateSymbolPrice.
Qed.

Lemma specification_modify symbol tgt f ts :
  (forall st, specificationsBySymbol (f st) = specificationsBySymbol st) ->
  specification symbol (modify_state tgt f ts) = specification symbol ts.
Proof.
  intros Hf. unfold specification, read_specificationMap.
  rewrite heap_modify_state.
  change (combinedState (modify_state tgt f ts))
    with (get_state Combined (modify_state tgt f ts)).
  rewrite get_modify. case_decide; subst; simpl; by rewrite ?Hf.
Qed.

Lemma lookup_total_snoc_default {A} `{Inhabited A} (xs : list A) (n : nat) (d : A) :
  d = inhabitant -> (xs ++ [d]) !!! n = xs !!! n.
Proof.
  intros ->. rewrite !list_lookup_total_alt.
  destruct (decide (n < length xs)).
  - by rewrite lookup_app_l.
  - rewrite (lookup_ge_None_2 xs) by lia.
    destruct (decide (n = length xs)) as [->|].
    + by rewrite list_lookup_middle.
    + rewrite lookup_ge_None_2; [done|]. rewrite length_app. simpl. lia.
Qed.

(** [_getState] allocates two empty arrays and an empty dictionary, and
    may add an instance state. *)
Lemma _getState_combined i ts : combinedState (_getState i ts) = combinedState ts.
Proof. unfold _getState. by destruct (stateByInstanceIndex ts !! i). Qed.

Lemma _getState_positionObjects i ts :
  positionObjects (heap (_getState i ts)) = positionObjects (heap ts).
Proof. unfold _getState. by destruct (stateByInstanceIndex ts !! i). Qed.

Lemma _getState_accountObjects i ts :
  accountObjects (heap (_getState i ts)) = accountObjects (heap ts).
Proof. unfold _getState. by destruct (stateByInstanceIndex ts !! i). Qed.

Lemma _getState_orderObjects i ts :
  orderObjects (heap (_getState i ts)) = orderObjects (heap ts).
Proof. unfold _getState. by destruct (stateByInstanceIndex ts !! i). Qed.

Lemma _getState_read_specificationMap i l ts :
  read_specificationMap l (_getState i ts) = read_specificationMap l ts.
Proof.
  unfold _getState, read_specificationMap.
  destruct (stateByInstanceIndex ts !! i); [done|]. simpl.
  by apply lookup_total_snoc_default.
Qed.

Lemma _getState_read_positionArray i l ts :
  read_positionArray l (_getState i ts) = read_positionArray l ts.
Proof.
  unfold _getState, read_positionArray.
  destruct (stateByInstanceIndex ts !! i); [done|]. simpl.
  by apply lookup_total_snoc_default.
Qed.

Lemma _getState_read_orderArray i l ts :
  read_orderArray l (_getState i ts) = read_orderArray l ts.
Proof.
  unfold _getState, read_orderArray.
  destruct (stateByInstanceIndex ts !! i); [done|]. simpl.
  by apply lookup_total_snoc_default.
Qed.

Lemma _getState_read_position i l ts :
  read_position l (_getState i ts) = read_position l ts.
Proof. unfold read_position. by rewrite _getState_positionObjects. Qed.

Lemma _getState_specification i symbol ts :
  specification symbol (_getState i ts) = specification symbol ts.
Proof.
  unfold specification. by rewrite _getState_combined, _getState_read_specificationMap.
Qed.

Lemma _getState_is_Some i ts : is_Some (stateByInstanceIndex (_getState i ts) !! i).
Proof.
  unfold _getState. destruct (stateByInstanceIndex ts !! i) eqn:E.
  - by rewrite E.
  - simpl. by rewrite lookup_insert_eq.
Qed.

Lemma _getState_idempotent i ts : _getState i (_getState i ts) = _getState i ts.
Proof.
  destruct (_getState_is_Some i ts) as [st E].
  unfold _getState at 1. by rewrite E.
Qed.

(** One pass of [updateSymbolPrices] over a state. *)
Lemma update_accountInformation_states pi equity margin freeMargin marginLevel tgt ts :
  same_states ts (update_accountInformation pi equity margin freeMargin marginLevel tgt ts).
Proof.
  unfold update_accountInformation.
  destruct (accountInformation _); [apply same_states_set_heap | apply same_states_refl].
Qed.

Lemma update_accountInformation_positionObjects pi equity margin freeMargin marginLevel
    tgt ts :
  positionObjects
    (heap (update_accountInformation pi equity margin freeMargin marginLevel tgt ts))
  = positionObjects (heap ts).
Proof. unfold update_accountInformation. by destruct (accountInformation _). Qed.

Lemma update_accountInformation_specificationMaps pi equity margin freeMargin marginLevel
    tgt ts :
  specificationMaps
    (heap (update_accountInformation pi equity margin freeMargin marginLevel tgt ts))
  = specificationMaps (heap ts).
Proof. unfold update_accountInformation. by destruct (accountInformation _). Qed.

Lemma updateSymbolPrices_unspecified prices times equity margin freeMargin marginLevel
    tgt ts :
  let ts' := updateSymbolPrices prices times equity margin freeMargin marginLevel tgt ts in
  (forall symbol, specification symbol ts' = specification symbol ts)
  /\ (forall l, prop_get "symbol" (read_position l ts') = prop_get "symbol" (read_position l ts))
  /\ (forall l, specification (ToString (prop_get "symbol" (read_position l ts))) ts = None ->
                read_position l ts' = read_position l ts).
Proof.
  unfold updateSymbolPrices. cbv zeta.
  set (ts1 := modify_state tgt _ ts).
  pose proof (price_frame_update_prices tgt prices ts1) as F.
  destruct (update_prices tgt prices ts1) as [ts2 pi]. simpl in F.
  set (ts3 := update_accountInformation _ _ _ _ _ _ ts2).
  assert (Hspec1 : forall symbol, specification symbol ts1 = specification symbol ts)
    by (intros; by apply specification_modify).
  assert (Hspec3 : forall symbol, specification symbol ts3 = specification symbol ts2).
  { intros symbol. unfold specification, read_specificationMap, ts3.
    rewrite update_accountInformation_specificationMaps.
    by destruct (update_accountInformation_states pi equity margin freeMargin marginLevel
                   tgt ts2) as [_ ->]. }
  assert (Hread3 : forall l, read_position l ts3 = read_position l ts2).
  { intros l. unfold read_position, ts3.
    by rewrite update_accountInformation_positionObjects. }
  assert (Hread1 : forall l, read_position l ts1 = read_position l ts)
    by (intros; apply read_position_modify).
  split; [|split].
  - intros symbol. by rewrite Hspec3, (specification_frame _ _ _ F), Hspec1.
  - intros l. by rewrite Hread3, (frame_symbols _ _ F), Hread1.
  - intros l Hnone. rewrite Hread3, (frame_unspecified _ _ F), Hread1; [done|].
    by rewrite Hread1, Hspec1.
Qed.

(** *** Strict equality and property keys *)



(** *** The flag [pricesInitialized] *)













(** *** The account information after a pass *)


Lemma updateAccountInformation_fields_margins pI prI positions equity margin freeMargin
    marginLevel ai :
  let ai' := updateAccountInformation_fields pI prI positions equity margin freeMargin
               marginLevel ai in
  prop_get "margin" ai' = defined_or margin (prop_get "margin" ai)
  /\ prop_get "freeMargin" ai' = defined_or freeMargin (prop_get "freeMargin" ai)
  /\ prop_get "marginLevel" ai'
     = if negb (is_undefined freeMargin) then marginLevel else prop_get "marginLevel" ai.
Proof.
  unfold updateAccountInformation_fields. cbv zeta.
  repeat split.
  - rewrite !prop_get_set_ne by done. rewrite prop_get_set_eq.
    destruct (pI && prI); [destruct (strict_eq _ _)|]; by rewrite ?prop_get_set_ne by done.
  - rewrite prop_get_set_ne by done. rewrite prop_get_set_eq. rewrite prop_get_set_ne by done.
    destruct (pI && prI); [destruct (strict_eq _ _)|]; by rewrite ?prop_get_set_ne by done.
  - rewrite prop_get_set_eq. rewrite !prop_get_set_ne by done.
    destruct (pI && prI); [destruct (strict_eq _ _)|]; by rewrite ?prop_get_set_ne by done.
Qed.





End TerminalStateFacts.

(** ** Profits are computed from the specifications of the combined state *)

Section ProfitsAndSpecifications.
Import JS TerminalState.
Context `{Runtime}.

Lemma same_profit_fields_eq p p' : p' = p -> same_profit_fields p p'.
Proof. intros ->. by repeat split. Qed.

(** C10.  [_updatePositionProfits] takes the specification from
    [specification(symbol)], which reads the combined state.  So a price
    update leaves the profit, unrealizedProfit, realizedProfit,
    currentPrice and currentTickValue of a position alone when the
    combined state has no specification for its symbol, whatever the
    instance's own specifications hold: after the pass over the instance
    state, and after the whole callback.  The combined state has no
    specification for a symbol when [specification(symbol)] returns
    [undefined]; for the name of a member of [Object.prototype] it never
    does. *)
Theorem profits_need_combined_specification
    i prices times equity margin freeMargin marginLevel ts l :
  specification (ToString (prop_get "symbol" (read_position l ts))) ts = None ->
  same_profit_fields (read_position l ts)
    (read_position l
       (updateSymbolPrices prices times equity margin freeMargin marginLevel (Instance i) ts))
  /\ same_profit_fields (read_position l ts)
       (read_position l
          (state_after
             (onSymbolPricesUpdated i prices equity margin freeMargin marginLevel ts))).
Proof.
  intros Hnone. split; apply same_profit_fields_eq.
  - by apply updateSymbolPrices_unspecified.
  - unfold onSymbolPricesUpdated.
    destruct (mapM getTime prices) as [times'|]; simpl.
    + set (ts0 := _getState i ts).
      assert (Hnone0 : specification (ToString (prop_get "symbol" (read_position l ts0))) ts0
                       = None)
        by (unfold ts0; by rewrite _getState_read_position, _getState_specification).
      destruct (updateSymbolPrices_unspecified prices times' equity margin freeMargin
                  marginLevel (Instance i) ts0) as (Hspec & Hsym & Hsame).
      destruct (updateSymbolPrices_unspecified prices times' equity margin freeMargin
                  marginLevel Combined
                  (updateSymbolPrices prices times' equity margin freeMargin marginLevel
                     (Instance i) ts0)) as (_ & _ & Hsame').
      rewrite Hsame', Hsame; auto.
      * apply _getState_read_position.
      * by rewrite Hsym, Hspec.
    + apply _getState_read_position.
Qed.

End ProfitsAndSpecifications.

Section ProfitsAndSpecificationsExample.
Import JS TerminalState Example.

(** In [two_instances] the dictionary of instance "0" has the
    specification of EURUSD and the combined state has none: the tick
    leaves the position of instance "0" as it is. *)
Lemma profits_need_combined_specification_witness :
  specification "EURUSD" two_instances = None
  /\ dict_get "EURUSD"
       (read_specificationMap
          (specificationsBySymbol (get_state (Instance "0") two_instances)) two_instances)
     = Some eurusd_specification
  /\ same_profit_fields buy_position
       (read_position 0
          (updateSymbolPrices [eurusd_price 1000] [1000%float]
             VUndefined VUndefined VUndefined VUndefined (Instance "0") two_instances))
  /\ same_profit_fields buy_position
       (read_position 0
          (state_after
             (onSymbolPricesUpdated "0" [eurusd_price 1000]
                VUndefined VUndefined VUndefined VUndefined two_instances))).
Proof.
  split; [reflexivity|]. split; [reflexivity|].
  apply (profits_need_combined_specification "0" [eurusd_price 1000] [1000%float]
           VUndefined VUndefined VUndefined VUndefined two_instances 0).
  reflexivity.
Defined.

(** Before instance "1" ends its synchronization the combined state has
    the specification, and the same tick recomputes the position. *)
Example profits_with_combined_specification :
  prop_get "currentPrice"
    (read_position 0
       (state_after
          (onSymbolPricesUpdated "0" [eurusd_price 1000]
             VUndefined VUndefined VUndefined VUndefined two_instances_before_promotion)))
  = VNum 1.1.
Proof. vm_compute. reflexivity. Qed.

(** For the symbol [constructor] the getter finds the function every
    object inherits under that name, in a combined state that was given
    no specification at all, and [_updatePositionProfits] takes it for
    one: the position gets the price of the tick. *)
Example profits_under_an_inherited_name :
  let ts := with_positions [constructor_position] TerminalState.constructor in
  get_specifications ts = []
  /\ specification "constructor" ts = Some (Inherited "constructor")
  /\ prop_get "currentPrice" (read_position 0 (_updatePositionProfits 0 (eurusd_price 1000) ts))
     = VNum 1.1.
Proof. vm_compute. repeat split; reflexivity. Qed.

End ProfitsAndSpecificationsExample.

(** ** The last update time *)

Section LastUpdateTime.
Import JS TerminalState.
Context `{Runtime}.



End LastUpdateTime.

Section LastUpdateTimeExample.
Import JS TerminalState Example.



End LastUpdateTimeExample.

(** ** Equity and margins on a price update *)

Section Equity.
Import JS TerminalState TerminalStateReads.
Context `{Runtime}.



Lemma updateAccountInformation_fields_other
    k positionsInitialized pricesInitialized positions equity margin freeMargin marginLevel ai :
  k ∉ margin_fields ->
  prop_get k (updateAccountInformation_fields positionsInitialized pricesInitialized
                positions equity margin freeMargin marginLevel ai)
  = prop_get k ai.
Proof.
  unfold margin_fields. rewrite !not_elem_of_cons. intros (? & ? & ? & ? & _).
  unfold updateAccountInformation_fields. cbv zeta.
  rewrite !prop_get_set_ne by done.
  destruct (positionsInitialized && pricesInitialized);
    [destruct (strict_eq (prop_get "platform" ai) (VStr "mt5"))|];
    by rewrite !prop_get_set_ne by done.
Qed.






End Equity.

Section EquityExamples.
Import JS TerminalState Example.


Example s2_equity_through_the_getter :
  let ts' := state_after
               (onSymbolPricesUpdated "0" [eurusd_price 1000]
                  VUndefined VUndefined VUndefined VUndefined s2_state) in
  option_map (fun a => prop_get "equity" (read_account a ts')) (get_accountInformation ts')
  = Some (VNum 10012.12).
Proof. vm_compute. reflexivity. Qed.


(** C7: the code at two inputs.  With a [marginLevel] argument of 150 and
    no [freeMargin] argument, [marginLevel] stays 100; with a
    [freeMargin] argument and no [marginLevel] argument, [marginLevel]
    becomes [undefined].  [margin] and [freeMargin] follow their own
    arguments. *)
Theorem marginLevel_is_gated_on_freeMargin :
  (let ts' := state_after (onSymbolPricesUpdated "0" [eurusd_price 1000]
                             VUndefined VUndefined VUndefined (VNum 150) s2_state) in
   prop_get "marginLevel" (read_account 0 s2_state) = VNum 100
   /\ prop_get "marginLevel" (read_account 0 ts') = VNum 100
   /\ prop_get "margin" (read_account 0 ts') = VNum 1
   /\ prop_get "freeMargin" (read_account 0 ts') = VNum 2)
  /\
  (let ts' := state_after (onSymbolPricesUpdated "0" [eurusd_price 1000]
                             VUndefined (VNum 3) (VNum 5) VUndefined s2_state) in
   prop_get "marginLevel" (read_account 0 ts') = VUndefined
   /\ prop_get "margin" (read_account 0 ts') = VNum 3
   /\ prop_get "freeMargin" (read_account 0 ts') = VNum 5).
Proof. vm_compute. repeat split; reflexivity. Qed.

End EquityExamples.

(** ** Which callbacks write the combined state *)

Section CombinedState.
Import JS TerminalState.
Context `{Runtime}.

Lemma store_kept_refl ts : store_kept ts ts.
Proof. by constructor. Qed.

Lemma store_kept_trans ts1 ts2 ts3 :
  store_kept ts1 ts2 -> store_kept ts2 ts3 -> store_kept ts1 ts3.
Proof.
  intros F G. constructor.
  - by rewrite (kept_combinedState _ _ G), (kept_combinedState _ _ F).
  - by rewrite (kept_positionObjects _ _ G), (kept_positionObjects _ _ F).
  - by rewrite (kept_orderObjects _ _ G), (kept_orderObjects _ _ F).
  - by rewrite (kept_accountObjects _ _ G), (kept_accountObjects _ _ F).
  - intros l. by rewrite (kept_positionArrays _ _ G), (kept_positionArrays _ _ F).
  - intros l. by rewrite (kept_orderArrays _ _ G), (kept_orderArrays _ _ F).
  - intros l. by rewrite (kept_specificationMaps _ _ G), (kept_specificationMaps _ _ F).
Qed.

Lemma store_kept_getState i ts : store_kept ts (_getState i ts).
Proof.
  constructor.
  - apply _getState_combined.
  - apply _getState_positionObjects.
  - apply _getState_orderObjects.
  - apply _getState_accountObjects.
  - intros. apply _getState_read_positionArray.
  - intros. apply _getState_read_orderArray.
  - intros. apply _getState_read_specificationMap.
Qed.

Lemma store_kept_modify_instance i f ts : store_kept ts (modify_state (Instance i) f ts).
Proof. by constructor. Qed.

Lemma store_kept_alloc_positionArray ts : store_kept ts (alloc_positionArray [] ts).2.
Proof.
  constructor; try done.
  intros l. unfold read_positionArray. simpl. by apply lookup_total_snoc_default.
Qed.

Lemma store_kept_alloc_orderArray ts : store_kept ts (alloc_orderArray [] ts).2.
Proof.
  constructor; try done.
  intros l. unfold read_orderArray. simpl. by apply lookup_total_snoc_default.
Qed.

Lemma store_kept_alloc_specificationMap ts :
  store_kept ts (alloc_specificationMap [] ts).2.
Proof.
  constructor; try done.
  intros l. unfold read_specificationMap. simpl. by apply lookup_total_snoc_default.
Qed.

Lemma store_kept_onSynchronizationStarted i su pu ou ts :
  store_kept ts (onSynchronizationStarted i su pu ou ts).
Proof.
  unfold onSynchronizationStarted. cbv zeta.
  set (ts1 := modify_state (Instance i) _ (_getState i ts)).
  assert (K1 : store_kept ts ts1).
  { eapply store_kept_trans; [apply store_kept_getState|apply store_kept_modify_instance]. }
  eapply store_kept_trans; [exact K1|].
  set (ts2 := if pu then _ else ts1).
  assert (K2 : store_kept ts1 ts2).
  { unfold ts2. destruct pu; [|apply store_kept_refl].
    eapply store_kept_trans; [apply store_kept_alloc_positionArray|].
    apply store_kept_modify_instance. }
  set (ts3 := if ou then _ else ts2).
  assert (K3 : store_kept ts2 ts3).
  { unfold ts3. destruct ou; [|apply store_kept_refl].
    eapply store_kept_trans; [apply store_kept_alloc_orderArray|].
    apply store_kept_modify_instance. }
  eapply store_kept_trans; [exact K2|].
  eapply store_kept_trans; [exact K3|].
  destruct su; [|apply store_kept_refl].
  eapply store_kept_trans; [apply store_kept_alloc_specificationMap|].
  apply store_kept_modify_instance.
Qed.

Lemma store_kept_instance_only e ts :
  instance_only e = true -> store_kept ts (dispatch e ts).
Proof.
  destruct e; try discriminate; intros _; simpl.
  - eapply store_kept_trans; [apply store_kept_getState|apply store_kept_modify_instance].
  - eapply store_kept_trans; [apply store_kept_getState|apply store_kept_modify_instance].
  - eapply store_kept_trans; [apply store_kept_getState|apply store_kept_modify_instance].
  - apply store_kept_onSynchronizationStarted.
  - eapply store_kept_trans; [apply store_kept_getState|apply store_kept_modify_instance].
  - eapply store_kept_trans; [apply store_kept_getState|apply store_kept_modify_instance].
  - eapply store_kept_trans; [apply store_kept_getState|apply store_kept_modify_instance].
  - by constructor.
Qed.

Lemma store_kept_view ts ts' : store_kept ts ts' -> view Combined ts' = view Combined ts.
Proof.
  intros K. unfold view, position_objects, order_objects, read_position, read_order,
    read_account. simpl.
  rewrite (kept_combinedState _ _ K), (kept_positionObjects _ _ K),
    (kept_orderObjects _ _ K), (kept_accountObjects _ _ K),
    (kept_positionArrays _ _ K), (kept_orderArrays _ _ K), (kept_specificationMaps _ _ K).
  done.
Qed.

(** C1, as amended.  The callbacks that leave the combined state
    unchanged are those that work on the instance state only:
    onConnected, onDisconnected, onBrokerConnectionStatusChanged,
    onSynchronizationStarted, onPositionsReplaced,
    onPositionsSynchronized, onPendingOrdersReplaced and onStreamClosed.
    After any of them the combined state has the same fields and a caller
    reads the same account information, positions, orders and
    specifications through them. *)
Theorem instance_only_callbacks_keep_the_combined_state e ts :
  instance_only e = true ->
  combinedState (dispatch e ts) = combinedState ts
  /\ view Combined (dispatch e ts) = view Combined ts.
Proof.
  intros He. pose proof (store_kept_instance_only e ts He) as K.
  split; [apply (kept_combinedState _ _ K) | by apply store_kept_view].
Qed.

End CombinedState.

Section CombinedStateExamples.
Import JS TerminalState Example.

Lemma instance_only_callbacks_keep_the_combined_state_witness :
  instance_only (OnSynchronizationStarted "0" true true true) = true
  /\ combinedState (dispatch (OnSynchronizationStarted "0" true true true) s2_state)
     = combinedState s2_state
  /\ view Combined (dispatch (OnSynchronizationStarted "0" true true true) s2_state)
     = view Combined s2_state.
Proof.
  split; [reflexivity|].
  apply (instance_only_callbacks_keep_the_combined_state
           (OnSynchronizationStarted "0" true true true) s2_state).
  reflexivity.
Defined.

(** C1, as stated, fails: onAccountInformationUpdated assigns the account
    information of the combined state, and onPositionUpdated appends to
    its array of positions, without any synchronization having ended. *)
Lemma callbacks_other_than_promotion_write_the_combined_state :
  let ts := with_positions [position42] (with_accounts [account_mt5] TerminalState.constructor) in
  (accountInformation (combinedState ts) = None
   /\ accountInformation (combinedState (dispatch (OnAccountInformationUpdated "0" (Some 0)) ts))
      = Some 0)
  /\ (get_positions ts = []
      /\ get_positions (dispatch (OnPositionUpdated "0" 0) ts) = [0]).
Proof. vm_compute. repeat split; reflexivity. Qed.

End CombinedStateExamples.

(** ** Tombstones of removed positions *)

Section Tombstones.
Import JS TerminalState.
Context `{Runtime}.


End Tombstones.

Section TombstonesExamples.
Import JS TerminalState Example.

(** C3: the code at the failing input.  Instance "0" is told that
    position "42", which it does not hold, is removed; both the instance
    state and the combined state record the tombstone.  The
    synchronization of instance "0" then ends: the combined state takes
    the instance's array of positions by reference and an empty
    [removedPositions].  A stale update of position "42" is then ignored
    by the step on the instance state and appended by the step on the
    combined state, to the array the two states share: the positions of
    instance "0" now hold "42", against the tombstone still in its
    [removedPositions]. *)
Theorem stale_update_after_promotion_is_inserted :
  let ts0 := with_positions [position42] TerminalState.constructor in
  let ts1 := onPositionRemoved "0" (VStr "42") 1000 ts0 in
  let ts2 := onPendingOrdersSynchronized "0" "sync" ts1 in
  let ts3 := onPositionUpdated "0" 0 ts2 in
  removedPositions (get_state (Instance "0") ts2) !! "42" = Some 1000%Z
  /\ position_objects (Instance "0") ts2 = []
  /\ positions (combinedState ts2) = positions (get_state (Instance "0") ts2)
  /\ removedPositions (combinedState ts2) !! "42" = None
  /\ updatePosition 0 (Instance "0") ts2 = ts2
  /\ removedPositions (get_state (Instance "0") ts3) !! "42" = Some 1000%Z
  /\ position_objects (Instance "0") ts3 = [position42]
  /\ List.map (fun l => read_position l ts3) (get_positions ts3) = [position42].
Proof. vm_compute. repeat split; reflexivity. Qed.

(** Without the promotion in between, the stale update changes nothing. *)
Example stale_update_right_after_removal_is_ignored :
  let ts0 := with_positions [position42] TerminalState.constructor in
  let ts1 := onPositionRemoved "0" (VStr "42") 1000 ts0 in
  onPositionUpdated "0" 0 ts1 = ts1.
Proof. vm_compute. reflexivity. Qed.

End TombstonesExamples.

(** ** Tombstones: recording and eviction *)

Section Eviction.
Import JS TerminalState.
Context `{Runtime}.










End Eviction.

Section TombstonesKept.
Import JS TerminalState.
Context `{Runtime}.

Lemma same_states_updatePosition position tgt ts :
  same_states ts (updatePosition position tgt ts).
Proof.
  unfold updatePosition. cbv zeta.
  destruct (findIndex _ _); [apply same_states_set_heap|].
  destruct (negb _); [apply same_states_set_heap|apply same_states_refl].
Qed.

Lemma same_states_updatePendingOrder order tgt ts :
  same_states ts (updatePendingOrder order tgt ts).
Proof.
  unfold updatePendingOrder. cbv zeta.
  destruct (findIndex _ _); [apply same_states_set_heap|].
  destruct (negb _); [apply same_states_set_heap|apply same_states_refl].
Qed.






End TombstonesKept.

Section TombstoneLifetime.
Import JS TerminalState.
Context `{Runtime}.


End TombstoneLifetime.

Section TombstoneLifetimeExamples.
Import JS TerminalState Example.



End TombstoneLifetimeExamples.

(** ** The order of strings *)

Section StringOrder.

Lemma ascii_compare_refl c : Ascii.compare c c = Eq.
Proof. unfold Ascii.compare. apply N.compare_refl. Qed.

Lemma ascii_compare_lt_trans a b c :
  Ascii.compare a b = Lt -> Ascii.compare b c = Lt -> Ascii.compare a c = Lt.
Proof. unfold Ascii.compare. rewrite !N.compare_lt_iff. lia. Qed.

Lemma string_compare_lt_trans a b c :
  String.compare a b = Lt -> String.compare b c = Lt -> String.compare a c = Lt.
Proof.
  revert b c. induction a as [|c1 a IH]; intros [|c2 b] [|c3 c]; simpl; try done.
  destruct (Ascii.compare c1 c2) eqn:E12; destruct (Ascii.compare c2 c3) eqn:E23;
    try discriminate; intros H1 H2.
  - apply Ascii.compare_eq_iff in E12, E23. subst. rewrite ascii_compare_refl. eauto.
  - apply Ascii.compare_eq_iff in E12. subst. by rewrite E23.
  - apply Ascii.compare_eq_iff in E23. subst. by rewrite E12.
  - by rewrite (ascii_compare_lt_trans _ _ _ E12 E23).
Qed.

Lemma string_compare_refl a : String.compare a a = Eq.
Proof. induction a as [|c a IH]; simpl; [done|]. by rewrite ascii_compare_refl. Qed.

Lemma string_leb_ltb a b : String.leb a b = negb (String.ltb b a).
Proof.
  unfold String.leb, String.ltb. rewrite (String.compare_antisym a b).
  by destruct (String.compare b a).
Qed.

Lemma string_leb_trans a b c :
  String.leb a b = true -> String.leb b c = true -> String.leb a c = true.
Proof.
  unfold String.leb.
  destruct (String.compare a b) eqn:Eab; try discriminate;
    destruct (String.compare b c) eqn:Ebc; try discriminate; intros _ _.
  - apply String.compare_eq_iff in Eab, Ebc. subst. by rewrite string_compare_refl.
  - apply String.compare_eq_iff in Eab. subst. by rewrite Ebc.
  - apply String.compare_eq_iff in Ebc. subst. by rewrite Eab.
  - by rewrite (string_compare_lt_trans _ _ _ Eab Ebc).
Qed.

End StringOrder.

(** ** Sorting an array of objects by a key *)

Section Sorting.
Import JS TerminalState.
Context `{Runtime}.
Variable key : string.

Let keyed (o : object) : Prop := prop_get key o = VStr (string_key key o).
Let le (a b : object) : Prop := String.leb (string_key key a) (string_key key b) = true.
Let cmp (a b : object) : Z := sortByKey a b key.

Lemma sortByKey_le a b :
  keyed a -> keyed b ->
  (cmp a b <=? 0)%Z = String.leb (string_key key a) (string_key key b).
Proof.
  unfold keyed, cmp, sortByKey, js_lt. intros -> ->.
  rewrite string_leb_ltb. unfold String.ltb.
  rewrite (String.compare_antisym (string_key key a) (string_key key b)).
  by destruct (String.compare (string_key key b) (string_key key a)).
Qed.

Lemma sort_insert_Permutation (x : object) l : Permutation (sort_insert cmp x l) (x :: l).
Proof.
  induction l as [|y l IH]; simpl; [done|].
  destruct (cmp x y <=? 0)%Z; [done|].
  rewrite IH. apply perm_swap.
Qed.

Lemma Array_sort_Permutation (l : list object) : Permutation (Array_sort cmp l) l.
Proof.
  induction l as [|x l IH]; simpl; [done|].
  rewrite sort_insert_Permutation. by constructor.
Qed.

Lemma sort_insert_sorted x l :
  keyed x -> Forall keyed l -> StronglySorted le l -> StronglySorted le (sort_insert cmp x l).
Proof.
  intros Hx Hl Hs. induction Hs as [|y l Hs IH Hy]; simpl.
  - repeat constructor.
  - apply Forall_cons_iff in Hl as [Hky Hkl].
    rewrite (sortByKey_le x y Hx Hky).
    destruct (String.leb (string_key key x) (string_key key y)) eqn:E.
    + constructor; [by constructor|].
      constructor; [exact E|].
      eapply Forall_impl; [exact Hy|]. intros z Hz. unfold le in *.
      eapply string_leb_trans; eauto.
    + constructor; [by apply IH|].
      rewrite sort_insert_Permutation. constructor; [|exact Hy].
      unfold le. destruct (String.leb_total (string_key key x) (string_key key y)); congruence.
Qed.

Lemma Array_sort_sorted l : Forall keyed l -> StronglySorted le (Array_sort cmp l).
Proof.
  induction l as [|x l IH]; simpl; intros Hl; [constructor|].
  apply Forall_cons_iff in Hl as [Hx Hl].
  apply sort_insert_sorted; auto.
  by rewrite Array_sort_Permutation.
Qed.

Lemma sorted_unique l1 l2 :
  StronglySorted le l1 -> StronglySorted le l2 -> Permutation l1 l2 ->
  NoDup (List.map (string_key key) l1) -> l1 = l2.
Proof.
  intros Hs1. revert l2. induction Hs1 as [|a l1 Hs1 IH Ha]; intros l2 Hs2 Hp Hnd.
  - by apply Permutation_nil in Hp.
  - destruct Hs2 as [|b l2 Hs2 Hb].
    + symmetry in Hp. by apply Permutation_nil in Hp.
    + assert (a = b) as ->.
      { assert (Hin_a : In a (b :: l2))
          by (eapply Permutation_in; [exact Hp|by left]).
        assert (Hin_b : In b (a :: l1))
          by (eapply Permutation_in; [symmetry; exact Hp|by left]).
        destruct Hin_a as [->|Hin_a]; [done|].
        destruct Hin_b as [->|Hin_b]; [done|].
        exfalso.
        rewrite Forall_forall in Ha, Hb.
        pose proof (Ha b (proj2 (list_elem_of_In _ _) Hin_b)) as Hab.
        pose proof (Hb a (proj2 (list_elem_of_In _ _) Hin_a)) as Hba.
        pose proof (String.leb_antisym _ _ Hab Hba) as Hk.
        inversion Hnd as [|? ? Hnotin _]; subst. apply Hnotin.
        rewrite Hk. apply list_elem_of_In. by apply in_map. }
      f_equal. apply IH; [done| |].
      * by apply Permutation_cons_inv in Hp.
      * by inversion Hnd.
Qed.

(** Two arrangements of the same keyed objects sort to the same array. *)
Lemma Array_sort_order_independent l1 l2 :
  Permutation l1 l2 -> Forall keyed l1 -> NoDup (List.map (string_key key) l1) ->
  Array_sort cmp l1 = Array_sort cmp l2.
Proof.
  intros Hp Hk Hnd. apply sorted_unique.
  - by apply Array_sort_sorted.
  - apply Array_sort_sorted. by rewrite <- Hp.
  - by rewrite !Array_sort_Permutation.
  - assert (Hpm : Permutation (List.map (string_key key) (Array_sort cmp l1))
                              (List.map (string_key key) l1))
      by apply Permutation_map, Array_sort_Permutation.
    by rewrite Hpm.
Qed.

End Sorting.

(** ** The hashes *)

Section Hashes.
Import JS TerminalState.
Context `{Runtime}.

Lemma clone_object_omap (o : object) :
  clone_object o
  = omap (fun kv => match JSON_clone (snd kv) with
                    | Some v' => Some (fst kv, v')
                    | None => None
                    end) o.
Proof. reflexivity. Qed.

(** Cloning through JSON keeps a string property. *)
Lemma clone_object_string key o s :
  prop_get key o = VStr s -> prop_get key (clone_object o) = VStr s.
Proof.
  rewrite clone_object_omap. unfold prop_get.
  induction o as [|[k v] o IH]; simpl; [done|].
  destruct (String.eqb key k) eqn:E.
  - simpl. intros ->. simpl. by rewrite E.
  - intros Hget. destruct (JSON_clone v); simpl; rewrite ?E; auto.
Qed.

Lemma clone_object_keyed key o :
  prop_get key o = VStr (string_key key o) ->
  string_key key (clone_object o) = string_key key o
  /\ prop_get key (clone_object o) = VStr (string_key key (clone_object o)).
Proof.
  intros Hk. pose proof (clone_object_string key o _ Hk) as Hc.
  unfold string_key at 1 3. by rewrite Hc.
Qed.

Lemma clones_keyed key l :
  keyed_by key l -> keyed_by key (List.map clone_object l).
Proof.
  intros [Hnd Hk]. split.
  - rewrite List.map_map.
    erewrite List.map_ext_Forall; [exact Hnd|].
    eapply Forall_impl; [exact Hk|]. intros o Ho. by apply clone_object_keyed.
  - apply Forall_forall. intros o' Ho'.
    apply list_elem_of_In, in_map_iff in Ho' as (o & <- & Ho).
    rewrite Forall_forall in Hk. apply clone_object_keyed, Hk. by apply list_elem_of_In.
Qed.

Lemma sorted_clones_order_independent key l1 l2 :
  Permutation l1 l2 -> keyed_by key l1 ->
  Array_sort (fun a b => sortByKey a b key) (List.map clone_object l1)
  = Array_sort (fun a b => sortByKey a b key) (List.map clone_object l2).
Proof.
  intros Hp Hk. destruct (clones_keyed key l1 Hk) as [Hnd Hkeyed].
  apply Array_sort_order_independent; auto.
  by apply Permutation_map.
Qed.

Lemma hashed_specifications_order_independent accountType l1 l2 :
  Permutation l1 l2 -> keyed_by "symbol" l1 ->
  hashed_specifications accountType l1 = hashed_specifications accountType l2.
Proof.
  intros Hp Hk. unfold hashed_specifications.
  by rewrite (sorted_clones_order_independent "symbol" l1 l2 Hp Hk).
Qed.

Lemma hashed_positions_order_independent accountType l1 l2 :
  Permutation l1 l2 -> keyed_by "id" l1 ->
  hashed_positions accountType l1 = hashed_positions accountType l2.
Proof.
  intros Hp Hk. unfold hashed_positions.
  by rewrite (sorted_clones_order_independent "id" l1 l2 Hp Hk).
Qed.

Lemma hashed_orders_order_independent accountType l1 l2 :
  Permutation l1 l2 -> keyed_by "id" l1 ->
  hashed_orders accountType l1 = hashed_orders accountType l2.
Proof.
  intros Hp Hk. unfold hashed_orders.
  by rewrite (sorted_clones_order_independent "id" l1 l2 Hp Hk).
Qed.

(** C4.  [getHashes] called again on the state it left gives the same
    hashes; and two terminal states whose instance holds the same
    specifications, keyed by symbol, the same positions and the same
    orders, keyed by id, in any order, with the same initialized flags,
    have the same three hashes. *)
Theorem getHashes_deterministic_and_order_independent accountType i ts1 ts2 :
  Permutation (specification_objects i ts1) (specification_objects i ts2) ->
  keyed_by "symbol" (specification_objects i ts1) ->
  Permutation (position_objects (Instance i) (_getState i ts1))
              (position_objects (Instance i) (_getState i ts2)) ->
  keyed_by "id" (position_objects (Instance i) (_getState i ts1)) ->
  Permutation (order_objects (Instance i) (_getState i ts1))
              (order_objects (Instance i) (_getState i ts2)) ->
  keyed_by "id" (order_objects (Instance i) (_getState i ts1)) ->
  positionsInitialized (get_state (Instance i) (_getState i ts1))
  = positionsInitialized (get_state (Instance i) (_getState i ts2)) ->
  ordersInitialized (get_state (Instance i) (_getState i ts1))
  = ordersInitialized (get_state (Instance i) (_getState i ts2)) ->
  (getHashes accountType i ts1).1 = (getHashes accountType i ts2).1
  /\ (getHashes accountType i (getHashes accountType i ts1).2).1
     = (getHashes accountType i ts1).1.
Proof.
  intros Hps Hks Hpp Hkp Hpo Hko Hpi Hoi. split.
  - unfold getHashes. cbn [fst].
    fold (specification_objects i ts1). fold (specification_objects i ts2).
    rewrite (hashed_specifications_order_independent accountType _ _ Hps Hks).
    rewrite (hashed_positions_order_independent accountType _ _ Hpp Hkp).
    rewrite (hashed_orders_order_independent accountType _ _ Hpo Hko).
    by rewrite Hpi, Hoi.
  - unfold getHashes. cbn [fst snd]. by rewrite _getState_idempotent.
Qed.

End Hashes.

Section HashesExamples.
Import JS TerminalState Example.

Lemma getHashes_deterministic_and_order_independent_witness :
  position_objects (Instance "0") s2_state
  = [eurusd_position "1" (-1) 25.123; eurusd_position "2" (-2) (-10)]
  /\ position_objects (Instance "0") s2_state_reversed
     = [eurusd_position "2" (-2) (-10); eurusd_position "1" (-1) 25.123]
  /\ (getHashes "cloud-g1" "0" s2_state).1 = (getHashes "cloud-g1" "0" s2_state_reversed).1
  /\ (getHashes "cloud-g1" "0" (getHashes "cloud-g1" "0" s2_state).2).1
     = (getHashes "cloud-g1" "0" s2_state).1.
Proof.
  split; [reflexivity|]. split; [reflexivity|].
  apply (getHashes_deterministic_and_order_independent "cloud-g1" "0"
           s2_state s2_state_reversed).
  - vm_compute. constructor.
  - split; vm_compute; constructor.
  - vm_compute. apply perm_swap.
  - split; vm_compute.
    + apply NoDup_cons. split; [|apply NoDup_singleton].
      intros Hin. apply list_elem_of_singleton in Hin. discriminate.
    + repeat constructor.
  - vm_compute. constructor.
  - split; vm_compute; constructor.
  - reflexivity.
  - reflexivity.
Defined.

End HashesExamples.

Section Serialization.
Import JS TerminalState.
Context `{Runtime}.

Lemma hashed_specifications_g1_description specifications :
  Forall (fun o => prop_get "description" o = VUndefined)
         (hashed_specifications "cloud-g1" specifications).
Proof.
  unfold hashed_specifications. simpl.
  apply Forall_forall. intros o Ho.
  apply list_elem_of_In, in_map_iff in Ho as (o' & <- & _).
  apply prop_get_delete_eq.
Qed.

(** C5.  When [getHashes] returns hashes [h]:
    - the hash of the specifications is [null] for no specification and
      otherwise [_getHash] with the integer key [digits]; the hashes of the
      positions and of the orders are [null] before their
      synchronization and otherwise [_getHash] with the integer key
      [magic];
    - for cloud-g1, [_getHash] is the MD5 in hexadecimal of what the
      local [stringify] returns, and for cloud-g2 of [JSON.stringify];
    - [stringify] leaves a number under an integer key as it is, so that
      it prints as a bare number, and formats every other number with
      [toFixed(8)];
    - for cloud-g1 no hashed specification has a description;
    - the specification of scenario S3 serializes with [digits] as [5]
      and [tickSize] as [0.00001000], without its description. *)
Theorem g1_hash_is_md5_of_custom_serialization accountType i ts h :
  (getHashes accountType i ts).1 = Some h ->
  let ts' := _getState i ts in
  let state := get_state (Instance i) ts' in
  (specificationsMd5 h
   = match hashed_specifications accountType (specification_objects i ts) with
     | [] => None
     | specifications => _getHash specifications accountType ["digits"]
     end
   /\ positionsMd5 h
      = (if positionsInitialized state
         then _getHash (hashed_positions accountType (position_objects (Instance i) ts'))
                       accountType ["magic"]
         else None)
   /\ ordersMd5 h
      = (if ordersInitialized state
         then _getHash (hashed_orders accountType (order_objects (Instance i) ts'))
                       accountType ["magic"]
         else None))
  /\ (forall obj integerKeys,
        _getHash obj "cloud-g1" integerKeys
        = option_map (fun r => MD5.hex (interpolate r))
                     (stringify integerKeys (VArr (List.map VObj obj)) None))
  /\ (forall obj integerKeys,
        _getHash obj "cloud-g2" integerKeys
        = Some (MD5.hex (default "undefined" (JSON_stringify (VArr (List.map VObj obj))))))
  /\ (forall integerKeys x key,
        stringify integerKeys (VNum x) key
        = Some (if includes integerKeys key then SNum x else SStr (toFixed x 8)))
  /\ (forall x, interpolate (SNum x) = Number_toString x)
  /\ (forall specifications,
        Forall (fun o => prop_get "description" o = VUndefined)
               (hashed_specifications "cloud-g1" specifications))
  /\ (stringify ["digits"]
        (VArr (List.map VObj (hashed_specifications "cloud-g1" [Example.s3_specification])))
        None
      = Some (SStr Example.s3_serialization)).
Proof.
  intros Hh ts' state.
  split; [|split; [|split; [|split; [|split; [|split]]]]].
  - unfold getHashes in Hh. cbn [fst] in Hh.
    fold (specification_objects i ts) in Hh. fold ts' in Hh. fold state in Hh.
    destruct (hashed_specifications accountType (specification_objects i ts))
      as [|spec specs].
    + destruct (positionsInitialized state), (ordersInitialized state);
        repeat match type of Hh with
               | context [_getHash ?a ?b ?c] => destruct (_getHash a b c)
               end;
        simpl in Hh; try discriminate; by inversion Hh.
    + destruct (_getHash (spec :: specs) accountType ["digits"]);
        [|discriminate].
      destruct (positionsInitialized state), (ordersInitialized state);
        repeat match type of Hh with
               | context [_getHash ?a ?b ?c] => destruct (_getHash a b c)
               end;
        simpl in Hh; try discriminate; by inversion Hh.
  - intros obj integerKeys. unfold _getHash. simpl.
    by destruct (stringify integerKeys (VArr (List.map VObj obj)) None).
  - intros obj integerKeys. unfold _getHash. by simpl.
  - done.
  - done.
  - apply hashed_specifications_g1_description.
  - vm_compute. reflexivity.
Qed.

End Serialization.

Section SerializationExamples.
Import JS TerminalState Example.

Lemma g1_hash_is_md5_of_custom_serialization_witness :
  (getHashes "cloud-g1" "0" s3_state).1
  = Some (mkHashes (Some "d54b7f91fd016f0a75110c82843d91f8") None None)
  /\ hashed_specifications "cloud-g1" (specification_objects "0" s3_state)
     = [[("symbol", VStr "EURUSD"); ("digits", VNum 5); ("tickSize", VNum 0.00001)]]
  /\ MD5.hex s3_serialization = "d54b7f91fd016f0a75110c82843d91f8"
  /\ Some "d54b7f91fd016f0a75110c82843d91f8"
     = _getHash [[("symbol", VStr "EURUSD"); ("digits", VNum 5); ("tickSize", VNum 0.00001)]]
                "cloud-g1" ["digits"].
Proof.
  split; [vm_compute; reflexivity|]. split; [vm_compute; reflexivity|].
  split; [vm_compute; reflexivity|].
  destruct (g1_hash_is_md5_of_custom_serialization "cloud-g1" "0" s3_state
              (mkHashes (Some "d54b7f91fd016f0a75110c82843d91f8") None None)
              ltac:(vm_compute; reflexivity)) as ((Hspec & _) & _).
  exact Hspec.
Defined.

(** Scenario S3 under cloud-g2: the specification keeps its description
    and [tickSize] prints as [JSON.stringify] prints it. *)
Example s3_hash_cloud_g2 :
  JSON_stringify (VArr (List.map VObj
                          (hashed_specifications "cloud-g2" (specification_objects "0" s3_state))))
  = Some ("[{" +:+ dquote +:+ "symbol" +:+ dquote +:+ ":" +:+ dquote +:+ "EURUSD" +:+ dquote
          +:+ "," +:+ dquote +:+ "digits" +:+ dquote +:+ ":5"
          +:+ "," +:+ dquote +:+ "tickSize" +:+ dquote +:+ ":0.00001"
          +:+ "," +:+ dquote +:+ "description" +:+ dquote +:+ ":" +:+ dquote +:+ "..."
          +:+ dquote +:+ "}]")
  /\ (getHashes "cloud-g2" "0" s3_state).1
     = Some (mkHashes (Some "bbf047073f3a0dbbf5b979df28c26535") None None).
Proof. split; vm_compute; reflexivity. Qed.

End SerializationExamples.

(** ** The engine at some inputs *)

Section EngineExamples.
Import JS Engine.

Example shortest_repr_examples :
  List.map shortest_repr
    [0.1; 25.123; 0.00001; 10012.12; 1e21; 1e-7; 123456789012345680000; 5e-324;
     1.7976931348623157e308; -0.000001234; 9007199254740994]%float
  = ["0.1"; "25.123"; "0.00001"; "10012.12"; "1e+21"; "1e-7"; "123456789012345680000";
     "5e-324"; "1.7976931348623157e+308"; "-0.000001234"; "9007199254740994"].
Proof. vm_compute. reflexivity. Qed.

Example toISOString_examples :
  List.map toISOString [0; 1604361600000; -1; 951782400000; 253402300800000]%float
  = ["1970-01-01T00:00:00.000Z"; "2020-11-03T00:00:00.000Z"; "1969-12-31T23:59:59.999Z";
     "2000-02-29T00:00:00.000Z"; "+010000-01-01T00:00:00.000Z"].
Proof. vm_compute. reflexivity. Qed.

Example toString_examples :
  toString 0 = "Thu Jan 01 1970 00:00:00 GMT+0000 (Coordinated Universal Time)"
  /\ toString 1604361600000 = "Tue Nov 03 2020 00:00:00 GMT+0000 (Coordinated Universal Time)"
  /\ toString nan = "Invalid Date".
Proof. vm_compute. repeat split; reflexivity. Qed.

Example parse_examples :
  parse "2020-11-03T00:00:00.000Z" = 1604361600000%float
  /\ parse "1969-12-31T23:59:59.999Z" = (-1)%float
  /\ parse (toISOString 951782400123) = 951782400123%float
  /\ PrimFloat.is_nan (parse "2021-02-29T00:00:00.000Z") = true
  /\ PrimFloat.is_nan (parse "yesterday") = true.
Proof. vm_compute. repeat split; reflexivity. Qed.

End EngineExamples.

(** ** Requests and their replies *)

Section Correlation.
Import JS WebsocketClient.
Context `{Runtime} `{Environment}.

Lemma dict_get_map_values {A} (g : string * A -> string * A) k (d : dict A) :
  (forall kv, fst (g kv) = fst kv) ->
  dict_get k (List.map g d) = option_map (fun v => snd (g (k, v))) (dict_get k d).
Proof.
  intros Hg. induction d as [|[k' v] d IH]; simpl; [done|].
  pose proof (Hg (k', v)) as Hk. destruct (g (k', v)) as [k'' v'] eqn:Eg. simpl in Hk. subst k''.
  destruct (String.eqb k k') eqn:E; [|done].
  apply String.eqb_eq in E. subst k'. simpl. by rewrite Eg.
Qed.

Lemma ToString_convertIsoTimeToDate v :
  ToString (convertIsoTimeToDate v) = ToString v.
Proof.
  revert v. fix IH 1. intros [| | | | | |items|props]; try reflexivity.
  cbn [convertIsoTimeToDate ToString]. f_equal.
  induction items as [|item items IHitems]; [reflexivity|].
  cbn [List.map]. f_equal; [|exact IHitems].
  pose proof (IH item) as Hitem. destruct item; try reflexivity; exact Hitem.
Qed.

(** The date conversion of a 'response' packet leaves its request id. *)
Lemma requestId_of_converted data :
  requestId_of (convertIsoTimeToDate_object data) = requestId_of data.
Proof.
  unfold requestId_of, convertIsoTimeToDate_object, prop_get. simpl.
  rewrite dict_get_map_values.
  - destruct (dict_get "requestId" data) as [v|]; simpl; [|done].
    destruct v; try done; apply ToString_convertIsoTimeToDate.
  - intros [k v]. simpl. destruct v; try done. by destruct (matches_time k).
Qed.

Lemma invariant_constructor : invariant constructor.
Proof.
  constructor; simpl; try done.
  - constructor.
  - intros f d r Hin. by apply elem_of_nil in Hin.
  - intros f Hin. by apply elem_of_nil in Hin.
Qed.

Lemma invariant_connect c : invariant c -> invariant (connect c).
Proof.
  intros I. unfold connect. destruct (_connected c); [done|].
  destruct I. by constructor.
Qed.

(** No two request ids of the table lead to the same promise. *)
Lemma pending_NoDup c :
  invariant c -> NoDup (List.map (fun kf => snd kf) (map_to_list (_requestResolves c))).
Proof.
  intros I.
  change (NoDup ((fun kf : string * nat => snd kf) <$> map_to_list (_requestResolves c))).
  apply NoDup_fmap_2_strong; [|apply NoDup_map_to_list].
  intros [k f] [k' f'] Hin Hin' Heq. simpl in Heq. subst f'.
  apply elem_of_map_to_list in Hin, Hin'.
  destruct (inv_pending c I k f Hin) as [Hp _].
  destruct (inv_pending c I k' f Hin') as [Hp' _].
  congruence.
Qed.

Lemma closed_deliveries_fst (l : list (string * nat)) :
  (List.map (fun kf => (snd kf, Closed)) l).*1 = List.map (fun kf => snd kf) l.
Proof. induction l as [|kf l IH]; [done|]. csimpl. by rewrite IH. Qed.

Lemma invariant_close c : invariant c -> invariant (close c).
Proof.
  intros I. unfold close. destruct (_connected c); [|done].
  pose proof (pending_NoDup c I) as Hnd.
  constructor; simpl.
  - apply (inv_emitted c I).
  - done.
  - rewrite fmap_app, closed_deliveries_fst. apply NoDup_app. split; [apply (inv_once c I)|].
    split; [|exact Hnd].
    intros f Hf Hin. apply list_elem_of_In, in_map_iff in Hin as ([k f'] & Hf' & Hin).
    simpl in Hf'. subst f'. apply list_elem_of_In, elem_of_map_to_list in Hin.
    by destruct (inv_pending c I k f Hin) as [_ Hnot].
  - intros f d r Hin Hd. apply elem_of_app in Hin as [Hin|Hin].
    + by apply (inv_correlated c I f d r).
    + apply list_elem_of_In, in_map_iff in Hin as (kf & Heq & _).
      inversion Heq; subst. discriminate.
  - apply (inv_requestId c I).
  - intros f Hf. rewrite fmap_app, closed_deliveries_fst in Hf.
    apply elem_of_app in Hf as [Hf|Hf]; [by apply (inv_bounded c I)|].
    apply list_elem_of_In, in_map_iff in Hf as ([k f'] & Hf' & Hin).
    simpl in Hf'. subst f'. apply list_elem_of_In, elem_of_map_to_list in Hin.
    destruct (inv_pending c I k f Hin) as [Hp _].
    by apply lookup_lt_Some in Hp.
Qed.

Lemma invariant__rpcRequest accountId request seed c :
  invariant c -> invariant (_rpcRequest accountId request seed c).
Proof.
  intros I. unfold _rpcRequest. constructor; simpl.
  - rewrite !length_app. simpl. by rewrite (inv_emitted c I).
  - intros k f Hk. destruct (decide (k = generate 32 seed)) as [->|Hne].
    + rewrite lookup_insert_eq in Hk. inversion Hk; subst. split.
      * by rewrite list_lookup_middle.
      * intros Hin. apply (inv_bounded c I) in Hin. lia.
    + rewrite lookup_insert_ne in Hk by done.
      destruct (inv_pending c I k f Hk) as [Hp Hnot]. split; [|done].
      rewrite lookup_app_l; [done|]. by apply lookup_lt_Some in Hp.
  - apply (inv_once c I).
  - intros f d r Hin Hd. pose proof (inv_correlated c I f d r Hin Hd) as Hp.
    rewrite lookup_app_l; [done|]. by apply lookup_lt_Some in Hp.
  - intros f r Hf. destruct (decide (f < length (promises c))) as [Hlt|Hge].
    + rewrite lookup_app_l in Hf by done.
      destruct (inv_requestId c I f r Hf) as (Hlen & Halnum & request' & Hreq & Hid).
      split; [done|]. split; [done|]. exists request'. split; [|done].
      rewrite lookup_app_l; [done|]. rewrite (inv_emitted c I). done.
    + assert (f = length (promises c)) as ->.
      { apply lookup_lt_Some in Hf. rewrite length_app in Hf. simpl in Hf. lia. }
      rewrite list_lookup_middle in Hf by done. inversion Hf; subst.
      split; [apply generate_length|]. split; [apply generate_alphanumeric|].
      eexists. split.
      * rewrite <- (inv_emitted c I). by rewrite list_lookup_middle.
      * apply prop_get_set_eq.
  - intros f Hf. apply (inv_bounded c I) in Hf. rewrite length_app. simpl. lia.
Qed.

(** Taking an entry out of the table. *)
Lemma invariant_delete k c :
  invariant c -> invariant (set_requestResolves (delete k (_requestResolves c)) c).
Proof.
  intros I. destruct I. constructor; simpl; try done.
  intros k' f Hk. apply lookup_delete_Some in Hk as [_ Hk]. eauto.
Qed.

(** Delivering to a promise that is out of the table and was never
    delivered to. *)
Lemma invariant_deliver f d c :
  invariant c ->
  f < length (promises c) ->
  f ∉ (delivered c).*1 ->
  (forall k, _requestResolves c !! k <> Some f) ->
  (forall r, delivered_requestId d = Some r -> promises c !! f = Some r) ->
  invariant (deliver (Some f) d c).
Proof.
  intros I Hlt Hnot Hout Hd. constructor; simpl.
  - apply (inv_emitted c I).
  - intros k f' Hk. destruct (inv_pending c I k f' Hk) as [Hp Hn]. split; [done|].
    rewrite fmap_app. simpl. intros Hin. apply elem_of_app in Hin as [Hin|Hin]; [done|].
    apply list_elem_of_singleton in Hin. subst f'. by apply (Hout k).
  - rewrite fmap_app. simpl. apply NoDup_app. split; [apply (inv_once c I)|].
    split; [|apply NoDup_singleton].
    intros f' Hf' Hin. apply list_elem_of_singleton in Hin. by subst f'.
  - intros f' d' r Hin Hr. apply elem_of_app in Hin as [Hin|Hin].
    + by apply (inv_correlated c I f' d' r).
    + apply list_elem_of_singleton in Hin. inversion Hin; subst. by apply Hd.
  - apply (inv_requestId c I).
  - intros f' Hf'. rewrite fmap_app in Hf'. simpl in Hf'.
    apply elem_of_app in Hf' as [Hf'|Hf']; [by apply (inv_bounded c I)|].
    apply list_elem_of_singleton in Hf'. by subst f'.
Qed.

End Correlation.

Section CorrelationTheorem.
Import JS WebsocketClient.
Context `{Runtime} `{Environment}.

Lemma close_keeps_out f c :
  f ∉ (delivered c).*1 ->
  (forall k, _requestResolves c !! k <> Some f) ->
  (f ∉ (delivered (close c)).*1)
  /\ (forall k, _requestResolves (close c) !! k <> Some f)
  /\ promises (close c) = promises c.
Proof.
  intros Hnot Hout. unfold close. destruct (_connected c); [|done]. simpl.
  split; [|split; [|done]].
  - rewrite fmap_app, closed_deliveries_fst. intros Hin.
    apply elem_of_app in Hin as [Hin|Hin]; [done|].
    apply list_elem_of_In, in_map_iff in Hin as ([k f'] & Hf' & Hin).
    simpl in Hf'. subst f'. apply list_elem_of_In, elem_of_map_to_list in Hin.
    by apply (Hout k).
  - intros k. by rewrite lookup_empty.
Qed.

(** What taking the entry of a packet out of the table leaves. *)
Lemma taken_out data c f :
  invariant c ->
  _requestResolves c !! requestId_of data = Some f ->
  let c' := set_requestResolves (delete (requestId_of data) (_requestResolves c)) c in
  invariant c'
  /\ f < length (promises c')
  /\ (f ∉ (delivered c').*1)
  /\ (forall k, _requestResolves c' !! k <> Some f)
  /\ promises c' !! f = Some (requestId_of data).
Proof.
  intros I Hf c'. destruct (inv_pending c I _ f Hf) as [Hp Hnot].
  split; [by apply invariant_delete|]. split; [by apply lookup_lt_Some in Hp|].
  split; [done|]. split; [|done].
  intros k Hk. simpl in Hk. apply lookup_delete_Some in Hk as [Hne Hk].
  destruct (inv_pending c I k f Hk) as [Hp' _]. congruence.
Qed.

Lemma invariant_onResponse data c : invariant c -> invariant (onResponse data c).
Proof.
  intros I. unfold onResponse.
  destruct (_requestResolves c !! requestId_of data) as [f|] eqn:Hf.
  - destruct (taken_out data c f I Hf) as (I' & Hlt & Hnot & Hout & Hp).
    apply invariant_deliver; auto.
    intros r Hr. simpl in Hr. rewrite requestId_of_converted in Hr. congruence.
  - simpl. by apply invariant_delete.
Qed.

Lemma _convertError_client data c :
  (_convertError data c).2 = c \/ (_convertError data c).2 = close c.
Proof.
  unfold _convertError.
  repeat match goal with |- context [if ?b then _ else _] => destruct b end; auto.
Qed.

Lemma invariant_onProcessingError data c :
  invariant c -> invariant (onProcessingError data c).
Proof.
  intros I. unfold onProcessingError.
  set (c' := set_requestResolves (delete (requestId_of data) (_requestResolves c)) c).
  pose proof (_convertError_client data c') as Hc.
  destruct (_convertError data c') as [e c1]. simpl in Hc.
  destruct (_requestResolves c !! requestId_of data) as [f|] eqn:Hf.
  - destruct (taken_out data c f I Hf) as (I' & Hlt & Hnot & Hout & Hp). fold c' in I', Hlt, Hnot, Hout, Hp.
    destruct Hc as [->| ->].
    + apply invariant_deliver; auto. intros r Hr. simpl in Hr. congruence.
    + destruct (close_keeps_out f c' Hnot Hout) as (Hnot' & Hout' & Hpr).
      apply invariant_deliver; auto.
      * by apply invariant_close.
      * by rewrite Hpr.
      * intros r Hr. simpl in Hr. rewrite Hpr. congruence.
  - simpl. assert (I' : invariant c') by (by apply invariant_delete).
    destruct Hc as [->| ->]; [done|by apply invariant_close].
Qed.

Lemma invariant_step c e : invariant c -> invariant (step c e).
Proof.
  intros I. destruct e; simpl.
  - by apply invariant_connect.
  - by apply invariant_close.
  - by apply invariant__rpcRequest.
  - by apply invariant_onResponse.
  - by apply invariant_onProcessingError.
Qed.

Lemma invariant_run trace : invariant (run trace constructor).
Proof.
  unfold run. apply (fold_left_preserves invariant); [|apply invariant_constructor].
  intros c e. apply invariant_step.
Qed.

Lemma at_most_one_of {A} (P : A -> bool) (f : nat) (l : list (nat * A)) :
  NoDup l.*1 ->
  length (List.filter (fun fd => Nat.eqb (fst fd) f && P (snd fd)) l) <= 1.
Proof.
  induction l as [|[f' d] l IH]; simpl; [lia|].
  intros Hnd. apply NoDup_cons in Hnd as [Hnot Hnd].
  destruct (Nat.eqb_spec f' f) as [->|Hne]; simpl; [|by apply IH].
  assert (Hnone : List.filter (fun fd => Nat.eqb (fst fd) f && P (snd fd)) l = []).
  { clear IH Hnd. induction l as [|[f'' d'] l IHl]; simpl; [done|].
    rewrite fmap_cons in Hnot. apply not_elem_of_cons in Hnot as [Hne Hnot]. simpl in Hne.
    destruct (Nat.eqb_spec f'' f); [congruence|]. simpl. by apply IHl. }
  rewrite Hnone. destruct (P d); simpl; lia.
Qed.

Lemma deliver_kept p d c :
  emitted (deliver p d c) = emitted c /\ promises (deliver p d c) = promises c.
Proof. by destruct p. Qed.

Lemma close_kept c : emitted (close c) = emitted c /\ promises (close c) = promises c.
Proof. unfold close. by destruct (_connected c). Qed.

(** Only [_rpcRequest] makes promises and emits requests. *)
Lemma step_kept c e :
  (forall accountId request seed, e <> RpcRequest accountId request seed) ->
  emitted (step c e) = emitted c /\ promises (step c e) = promises c.
Proof.
  intros Hne. destruct e; simpl.
  - unfold connect. by destruct (_connected c).
  - apply close_kept.
  - by destruct (Hne accountId request seed).
  - unfold onResponse. destruct (deliver_kept
      (_requestResolves c !! requestId_of data)
      (Response (convertIsoTimeToDate_object data))
      (set_requestResolves (delete (requestId_of data) (_requestResolves c)) c)) as [-> ->].
    done.
  - unfold onProcessingError.
    set (c' := set_requestResolves (delete (requestId_of data) (_requestResolves c)) c).
    pose proof (_convertError_client data c') as Hc.
    destruct (_convertError data c') as [e c1]. simpl in Hc.
    destruct (deliver_kept (_requestResolves c !! requestId_of data)
                (ProcessingError data e) c1) as [-> ->].
    destruct Hc as [->| ->]; [done|]. by destruct (close_kept c') as [-> ->].
Qed.

Lemma run_snoc trace e c : run (trace ++ [e]) c = step (run trace c) e.
Proof. unfold run. by rewrite fold_left_app. Qed.

(** A promise was made by a call of [_rpcRequest] in the trace, which
    emitted the request it was given with the two fields set. *)
Lemma promise_of_a_request trace f r :
  promises (run trace constructor) !! f = Some r ->
  exists accountId request seed,
    In (RpcRequest accountId request seed) trace
    /\ r = generate 32 seed
    /\ emitted (run trace constructor) !! f
       = Some (prop_set "requestId" (VStr r) (prop_set "accountId" accountId request)).
Proof.
  revert f r. induction trace as [|e trace IH] using rev_ind; intros f r.
  - by cbn.
  - rewrite run_snoc. pose proof (invariant_run trace) as I.
    set (c := run trace constructor) in *.
    assert (Hold : forall accountId request seed,
      In (RpcRequest accountId request seed) trace ->
      In (RpcRequest accountId request seed) (trace ++ [e])).
    { intros. apply in_or_app. by left. }
    destruct e as [| |accountId request seed|data|data].
    1,2,4,5:
      match goal with
      | |- context [step ?c0 ?e] => destruct (step_kept c0 e) as [-> ->]; [done|]
      end;
      intros Hf; destruct (IH f r Hf) as (a & q & s & Hin & Hr & He);
      exists a, q, s; auto.
    simpl. intros Hf. apply lookup_app_Some in Hf as [Hf|[Hge Hf]].
    + destruct (IH f r Hf) as (a & q & s & Hin & Hr & He). exists a, q, s.
      split; [auto|]. split; [done|]. by apply lookup_app_l_Some.
    + apply list_lookup_singleton_Some in Hf as [Hf0 Hr].
      assert (f = length (promises c)) as -> by lia.
      exists accountId, request, seed. split; [apply in_or_app; right; by left|].
      split; [done|]. rewrite <- (inv_emitted c I), <- Hr.
      by rewrite lookup_app_r, Nat.sub_diag.
Qed.

(** C8.  After any sequence of connections, closings, requests and
    packets on a new client, every promise [f] that [_rpcRequest]
    returned was made for a request of the sequence: the request was
    emitted with the account id and with a request id [r] of 32 letters
    and digits, drawn from [randomstring.generate(32)] by that call.  At
    most one packet, 'response' or 'processingError', was delivered to the
    promise, and a packet delivered to it carries the request id [r]: its
    [requestId], as the property key the handler looks up, is [r]. *)
Theorem reply_is_delivered_once_to_its_request trace f r :
  let c := run trace constructor in
  promises c !! f = Some r ->
  (exists accountId request seed emittedRequest,
     In (RpcRequest accountId request seed) trace
     /\ r = generate 32 seed
     /\ emitted c !! f = Some emittedRequest
     /\ emittedRequest
        = prop_set "requestId" (VStr r) (prop_set "accountId" accountId request)
     /\ prop_get "accountId" emittedRequest = accountId
     /\ prop_get "requestId" emittedRequest = VStr r)
  /\ String.length r = 32
  /\ forallb alphanumeric (list_ascii_of_string r) = true
  /\ length (packets_of f c) <= 1
  /\ (forall d, In d (packets_of f c) -> delivered_requestId d = Some r).
Proof.
  intros c Hf. pose proof (invariant_run trace) as I. fold c in I.
  destruct (inv_requestId c I f r Hf) as (Hlen & Halnum & _).
  split; [|split; [done|split; [done|split]]].
  - destruct (promise_of_a_request trace f r Hf) as (a & q & s & Hin & Hr & He).
    exists a, q, s, (prop_set "requestId" (VStr r) (prop_set "accountId" a q)).
    split; [done|]. split; [done|]. split; [done|]. split; [done|].
    split; [|apply prop_get_set_eq].
    rewrite prop_get_set_ne by done. apply prop_get_set_eq.
  - unfold packets_of. rewrite length_map.
    apply (at_most_one_of (fun d => is_Some_b (delivered_requestId d)) f (delivered c)).
    apply (inv_once c I).
  - intros d Hd. unfold packets_of in Hd.
    apply in_map_iff in Hd as ([f' d'] & Heq & Hin). simpl in Heq. subst d'.
    apply filter_In in Hin as [Hin Hcond]. simpl in Hcond.
    apply andb_true_iff in Hcond as [Hff Hsome].
    apply Nat.eqb_eq in Hff. subst f'.
    destruct (delivered_requestId d) as [r'|] eqn:Hr; [|discriminate].
    apply list_elem_of_In in Hin.
    pose proof (inv_correlated c I f d r' Hin Hr) as Hp. congruence.
Qed.

End CorrelationTheorem.

Section CorrelationExample.
Import JS WebsocketClient Example ClientExample.

Lemma reply_is_delivered_once_to_its_request_witness :
  let c := run request_trace constructor in
  let r := generate 32 2020 in
  promises c !! 0 = Some r
  /\ packets_of 0 c = [Response (reply r)]
  /\ emitted c !! 0
     = Some [("type", VStr "getAccountInformation"); ("accountId", VStr "accountId");
             ("requestId", VStr r)]
  /\ length (packets_of 0 c) <= 1
  /\ (forall d, In d (packets_of 0 c) -> delivered_requestId d = Some r).
Proof.
  intros c r.
  assert (Hmade : promises c !! 0 = Some r) by reflexivity.
  split; [exact Hmade|]. split; [reflexivity|]. split; [reflexivity|].
  destruct (reply_is_delivered_once_to_its_request request_trace 0 r Hmade)
    as (_ & _ & _ & Honce & Hid).
  split; [exact Honce|exact Hid].
Defined.

End CorrelationExample.

(** ** The methods of the client and what reaches their promises *)

Section RpcFacts.
Import JS WebsocketClient Rpc.
Context `{Runtime} `{Environment}.

Lemma converted_convertIsoTimeToDate v : converted (convertIsoTimeToDate v) = true.
Proof.
  revert v. fix IH 1. intros [| | | | | |items|props]; try reflexivity.
  - cbn [convertIsoTimeToDate converted].
    induction items as [|item items IHitems]; [reflexivity|].
    cbn [List.map forallb]. by rewrite (IH item), IHitems.
  - cbn [convertIsoTimeToDate converted].
    induction props as [|[k v] props IHprops]; [reflexivity|].
    cbn [List.map forallb fst snd]. rewrite IHprops, andb_true_r.
    pose proof (IH v) as Hv.
    destruct v; try exact Hv; try reflexivity.
    destruct (matches_time k) eqn:Ek; cbn [fst snd]; [reflexivity|by rewrite Ek].
Qed.

Lemma convertIsoTimeToDate_converted v :
  converted v = true -> convertIsoTimeToDate v = v.
Proof.
  revert v. fix IH 1. intros [| | | | | |items|props]; try reflexivity.
  - cbn [convertIsoTimeToDate converted]. intros Hitems. f_equal.
    induction items as [|item items IHitems]; [reflexivity|].
    cbn [List.map forallb] in *. apply andb_true_iff in Hitems as [Hitem Hitems].
    by rewrite (IH item Hitem), (IHitems Hitems).
  - cbn [convertIsoTimeToDate converted]. intros Hprops. f_equal.
    induction props as [|[k v] props IHprops]; [reflexivity|].
    cbn [List.map forallb fst snd] in *. apply andb_true_iff in Hprops as [Hv Hprops].
    rewrite (IHprops Hprops). f_equal.
    pose proof (IH v) as Hfix.
    destruct v; try (by rewrite (Hfix Hv)); try reflexivity.
    apply negb_true_iff in Hv. by rewrite Hv.
Qed.

Lemma convertIsoTimeToDate_object_eq data :
  VObj (convertIsoTimeToDate_object data) = convertIsoTimeToDate (VObj data).
Proof. reflexivity. Qed.

(** X1.  [_convertIsoTimeToDate] keeps the keys of a packet in their
    order.  A string under a key that matches [/time|Time/] becomes the
    [Date] made from it, whatever the string; any other string stays
    and anything else is walked.  Afterwards no string is left under
    such a key at any depth, so that walking the packet again changes
    nothing, and a packet that has no such string is returned as it
    is. *)
Theorem time_strings_become_dates (data : object) :
  let data' := convertIsoTimeToDate_object data in
  List.map fst data' = List.map fst data
  /\ (forall k,
        prop_get k data'
        = match prop_get k data with
          | VStr s => if matches_time k then VDate (Date_parse s) else VStr s
          | v => convertIsoTimeToDate v
          end)
  /\ converted (VObj data') = true
  /\ convertIsoTimeToDate_object data' = data'
  /\ (converted (VObj data) = true -> data' = data).
Proof.
  intros data'.
  assert (Hconv : converted (VObj data') = true).
  { unfold data'. rewrite convertIsoTimeToDate_object_eq.
    apply converted_convertIsoTimeToDate. }
  assert (Hfixed : forall d, converted (VObj d) = true -> convertIsoTimeToDate_object d = d).
  { intros d Hd. pose proof (convertIsoTimeToDate_converted (VObj d) Hd) as Heq.
    rewrite <- convertIsoTimeToDate_object_eq in Heq. by injection Heq. }
  split; [|split; [|split; [exact Hconv|split; [by apply Hfixed|apply Hfixed]]]].
  - unfold data', convertIsoTimeToDate_object. cbn [convertIsoTimeToDate].
    rewrite List.map_map. apply List.map_ext. intros [k v]. cbn [fst snd].
    destruct v; try reflexivity. by destruct (matches_time k).
  - intros k. unfold data', convertIsoTimeToDate_object, prop_get.
    cbn [convertIsoTimeToDate]. rewrite dict_get_map_values.
    + destruct (dict_get k data) as [v|]; cbn [option_map default fst snd]; [|reflexivity].
      destruct v; try reflexivity. by destruct (matches_time k).
    + intros [k' v]. cbn [fst snd]. destruct v; try reflexivity.
      by destruct (matches_time k').
Qed.

(** X2.  After any sequence of connections, closings, requests and
    packets on a new client, at most one thing was ever passed to a
    promise of [_rpcRequest], counting the responses, the errors and the
    rejections of [close]; and nothing was passed yet to a promise
    whose request is still in the table. *)
Theorem promise_is_settled_at_most_once trace f :
  let c := run trace constructor in
  length (settlements f c) <= 1
  /\ (forall k, _requestResolves c !! k = Some f -> settlements f c = []).
Proof.
  intros c. pose proof (invariant_run trace) as I. fold c in I. split.
  - unfold settlements. rewrite length_map.
    pose proof (at_most_one_of (fun _ : delivery => true) f (delivered c) (inv_once c I)) as Hle.
    erewrite List.filter_ext; [exact Hle|]. intros [f' d]. cbn [fst snd]. by rewrite andb_true_r.
  - intros k Hk. destruct (inv_pending c I k f Hk) as [_ Hnot].
    unfold settlements.
    assert (Hnone : forall l : list (nat * delivery),
               f ∉ l.*1 -> List.filter (fun fd => Nat.eqb (fst fd) f) l = []).
    { induction l as [|[f' d] l IHl]; [done|]. rewrite fmap_cons.
      intros Hl. apply not_elem_of_cons in Hl as [Hne Hl]. cbn [fst] in Hne. cbn [List.filter fst].
      destruct (Nat.eqb_spec f' f); [congruence|]. by apply IHl. }
    by rewrite (Hnone _ Hnot).
Qed.

Lemma strict_eq_VStr v s : strict_eq v (VStr s) = true <-> v = VStr s.
Proof.
  destruct v; cbn [strict_eq]; try (split; [discriminate|discriminate]).
  rewrite String.eqb_eq. split; [by intros ->|by intros [= ->]].
Qed.

Lemma strict_eq_VStr_false v s : v <> VStr s -> strict_eq v (VStr s) = false.
Proof.
  intros Hne. destruct (strict_eq v (VStr s)) eqn:E; [|done].
  by apply strict_eq_VStr in E.
Qed.

(** X3.  A 'processingError' packet whose [error] is 'UnauthorizedError',
    on a connected client: the client is closed and its table of
    requests emptied; every request that was in the table is rejected,
    the one the packet names with an [UnauthorizedError] carrying the
    packet's message and every other one with 'connection closed'; as
    many promises are rejected as there were requests. *)
Theorem unauthorized_error_closes_the_client data c :
  prop_get "error" data = VStr "UnauthorizedError" ->
  _connected c = true ->
  let c' := onProcessingError data c in
  _connected c' = false
  /\ _requestResolves c' = ∅
  /\ (forall k f,
        _requestResolves c !! k = Some f ->
        (f, if String.eqb k (requestId_of data)
            then ProcessingError data (UnauthorizedError (prop_get "message" data))
            else Closed) ∈ delivered c')
  /\ (exists rejections,
        delivered c' = delivered c ++ rejections
        /\ length rejections = size (_requestResolves c)).
Proof.
  intros Herror Hconnected c'. unfold c', onProcessingError.
  set (r := requestId_of data). set (m := _requestResolves c).
  unfold _convertError. rewrite Herror. cbn [strict_eq String.eqb Ascii.eqb Bool.eqb andb].
  unfold close. cbn [set_requestResolves _connected _requestResolves promises emitted delivered].
  rewrite Hconnected.
  set (closed := List.map (fun kf : string * nat => (kf.2, Closed)) (map_to_list (delete r m))).
  assert (Hclosed : forall k f, m !! k = Some f -> k <> r -> (f, Closed) ∈ closed).
  { intros k f Hk Hne. unfold closed. apply list_elem_of_In, in_map_iff.
    exists (k, f). split; [done|]. apply list_elem_of_In, elem_of_map_to_list.
    by rewrite lookup_delete_ne. }
  destruct (m !! r) as [f0|] eqn:Hr; cbn [deliver _connected _requestResolves delivered].
  - split; [done|]. split; [done|]. split.
    + intros k f Hk. destruct (String.eqb_spec k r) as [->|Hne].
      * assert (f = f0) as -> by congruence. apply elem_of_app. right. apply list_elem_of_singleton.
        reflexivity.
      * apply elem_of_app. left. apply elem_of_app. right. by apply (Hclosed k).
    + exists (closed ++ [(f0, ProcessingError data (UnauthorizedError (prop_get "message" data)))]).
      split; [by rewrite app_assoc|].
      rewrite length_app. unfold closed. rewrite length_map, length_map_to_list.
      rewrite map_size_delete, Hr. cbn [length].
      assert (size m <> 0).
      { intros Hz. apply map_size_empty_iff in Hz. rewrite Hz in Hr. by rewrite lookup_empty in Hr. }
      lia.
  - split; [done|]. split; [done|]. split.
    + intros k f Hk. destruct (String.eqb_spec k r) as [->|Hne]; [congruence|].
      apply elem_of_app. right. by apply (Hclosed k).
    + exists closed. split; [done|].
      unfold closed. by rewrite length_map, length_map_to_list, map_size_delete, Hr.
Qed.

(** X4.  A 'processingError' packet with any other [error] touches its
    own request only: the client stays as connected as it was, the
    other requests stay in the table, and the promise of the request the
    packet names, if there is one, is rejected with the error made from
    the packet: a [ValidationError] with the details, a [NotFoundError],
    a [NotSynchronizedError], a [NotConnectedError] for
    'NotAuthenticatedError', and an [InternalError] for any other
    name. *)
Theorem processing_error_rejects_its_request_only data c :
  prop_get "error" data <> VStr "UnauthorizedError" ->
  let c' := onProcessingError data c in
  let error := prop_get "error" data in
  let message := prop_get "message" data in
  let e := (_convertError data c).1 in
  _connected c' = _connected c
  /\ _requestResolves c' = delete (requestId_of data) (_requestResolves c)
  /\ delivered c'
     = delivered c ++ match _requestResolves c !! requestId_of data with
                      | Some f => [(f, ProcessingError data e)]
                      | None => []
                      end
  /\ (error = VStr "ValidationError" -> e = ValidationError message (prop_get "details" data))
  /\ (error = VStr "NotFoundError" -> e = NotFoundError message)
  /\ (error = VStr "NotSynchronizedError" -> e = NotSynchronizedError message)
  /\ (error = VStr "NotAuthenticatedError" -> e = NotConnectedError message)
  /\ (error <> VStr "ValidationError" -> error <> VStr "NotFoundError" ->
      error <> VStr "NotSynchronizedError" -> error <> VStr "NotAuthenticatedError" ->
      e = InternalError message).
Proof.
  intros Hne c' error message e.
  assert (Hclient : forall c0, (_convertError data c0).2 = c0).
  { intros c0. unfold _convertError.
    rewrite (strict_eq_VStr_false _ "UnauthorizedError" Hne).
    by repeat match goal with |- context [if ?b then _ else _] => destruct b end. }
  assert (Herr : forall c0, (_convertError data c0).1 = e).
  { intros c0. unfold e, _convertError.
    by repeat match goal with |- context [if ?b then _ else _] => destruct b end. }
  split; [|split; [|split]].
  1-3: unfold c', onProcessingError;
    set (c0 := set_requestResolves (delete (requestId_of data) (_requestResolves c)) c);
    pose proof (Hclient c0) as Hc; pose proof (Herr c0) as He;
    destruct (_convertError data c0) as [e1 c1]; cbn [fst snd] in Hc, He;
    rewrite Hc, He; destruct (_requestResolves c !! requestId_of data);
    rewrite ?app_nil_r; reflexivity.
  unfold e, _convertError. fold error message.
  split; [by intros ->|]. split; [by intros ->|]. split; [by intros ->|]. split; [by intros ->|].
  intros H1 H2 H3 H4.
  rewrite (strict_eq_VStr_false _ _ H1), (strict_eq_VStr_false _ _ H2),
    (strict_eq_VStr_false _ _ H3), (strict_eq_VStr_false _ _ H4).
  unfold error in Hne. fold error in Hne. by rewrite (strict_eq_VStr_false _ _ Hne).
Qed.

Lemma result_converted m data :
  converted (VObj data) = true -> converted (result (rpc_of m) data) = true.
Proof.
  intros Hdata.
  assert (Hget : forall k, converted (prop_get k data) = true).
  { intros k. unfold prop_get. cbn [converted] in Hdata.
    induction data as [|[k' v] data IH]; [reflexivity|].
    cbn [forallb fst snd] in Hdata. apply andb_true_iff in Hdata as [Hv Hdata].
    cbn [dict_get]. destruct (String.eqb k k'); [|by apply IH].
    cbn [default]. by destruct v. }
  assert (Hpair : forall k1 k2,
             matches_time k1 = false -> matches_time k2 = false ->
             converted (VObj [(k1, prop_get k1 data); (k2, prop_get k2 data)]) = true).
  { intros k1 k2 H1 H2. cbn [converted forallb fst snd].
    pose proof (Hget k1) as G1. pose proof (Hget k2) as G2.
    rewrite H1, H2. destruct (prop_get k1 data), (prop_get k2 data); cbn [negb andb];
      rewrite ?G1, ?G2; reflexivity. }
  destruct m; cbn [rpc_of result getAccountInformation getPositions getPosition getOrders
                   getOrder getHistoryOrdersByTicket getHistoryOrdersByPosition
                   getHistoryOrdersByTimeRange getDealsByTicket getDealsByPosition
                   getDealsByTimeRange removeHistory trade reconnect];
    try apply Hget; try exact Hdata; unfold historyOrders_of, deals_of; by apply Hpair.
Qed.

(** X5.  A method of the client called on any client, and then the
    'response' packet that carries the request id drawn for it: the
    request was emitted with the method's type, the account id and the
    request id; the promise is passed that packet, and nothing else is
    passed to anyone; the method resolves with the part of the packet it
    returns, dates converted, in which no string is left under a key that
    names a time; the request is out of the table, and the same packet
    coming again changes nothing. *)
Theorem method_resolves_with_its_response m accountId seed data c :
  requestId_of data = generate 32 seed ->
  let call := rpc_of m in
  let c1 := _rpcRequest accountId (request call) seed c in
  let c2 := onResponse data c1 in
  let promise := length (promises c) in
  let response := convertIsoTimeToDate_object data in
  (exists sent,
     emitted c1 = emitted c ++ [sent]
     /\ prop_get "type" sent = prop_get "type" (request call)
     /\ prop_get "accountId" sent = accountId
     /\ prop_get "requestId" sent = VStr (generate 32 seed))
  /\ promises c1 = promises c ++ [generate 32 seed]
  /\ delivered c2 = delivered c ++ [(promise, Response response)]
  /\ settle call (Response response) = Resolved (result call response)
  /\ converted (result call response) = true
  /\ _requestResolves c2 !! generate 32 seed = None
  /\ onResponse data c2 = c2.
Proof.
  intros Hid call c1 c2 promise response.
  assert (Hc2 : c2 = mkClient (_connected c)
                       (delete (generate 32 seed)
                          (<[generate 32 seed := promise]> (_requestResolves c)))
                       (promises c ++ [generate 32 seed])
                       (emitted c ++ [prop_set "requestId" (VStr (generate 32 seed))
                                        (prop_set "accountId" accountId (request call))])
                       (delivered c ++ [(promise, Response response)])).
  { unfold c2, onResponse, c1, _rpcRequest.
    cbn [_connected _requestResolves promises emitted delivered set_requestResolves].
    rewrite Hid, lookup_insert_eq. reflexivity. }
  split; [|split; [done|split; [by rewrite Hc2|split; [done|split; [|split]]]]].
  - eexists. split; [reflexivity|]. split; [|split].
    + rewrite !prop_get_set_ne by (destruct m; done). reflexivity.
    + rewrite prop_get_set_ne by done. apply prop_get_set_eq.
    + apply prop_get_set_eq.
  - apply result_converted. unfold response. rewrite convertIsoTimeToDate_object_eq.
    apply converted_convertIsoTimeToDate.
  - rewrite Hc2. cbn [_requestResolves]. apply lookup_delete_eq.
  - rewrite Hc2. unfold onResponse.
    cbn [_connected _requestResolves promises emitted delivered set_requestResolves].
    rewrite Hid, lookup_delete_eq. cbn [deliver].
    by rewrite delete_id by apply lookup_delete_eq.
Qed.

End RpcFacts.

Section RpcExamples.
Import JS WebsocketClient Rpc Example ClientExample RpcExample.

(** The two times of the position become dates, and so does its time
    zone, which is no date: its key matches [/time|Time/] too. *)
Lemma time_strings_become_dates_witness :
  prop_get "position" (convertIsoTimeToDate_object position_reply)
  = VObj [("id", VStr "42"); ("time", VDate 1604361600000);
          ("updateTime", VDate 1604361600123);
          ("brokerTimezone", VDate (Date_parse "EET"))]
  /\ PrimFloat.is_nan (Date_parse "EET") = true
  /\ convertIsoTimeToDate_object (convertIsoTimeToDate_object position_reply)
     = convertIsoTimeToDate_object position_reply
  /\ convertIsoTimeToDate_object unauthorized = unauthorized.
Proof.
  split; [vm_compute; reflexivity|]. split; [vm_compute; reflexivity|].
  destruct (time_strings_become_dates position_reply) as (_ & _ & _ & Hagain & _).
  split; [exact Hagain|].
  destruct (time_strings_become_dates unauthorized) as (_ & _ & _ & _ & Hsame).
  apply Hsame. reflexivity.
Defined.

Lemma unauthorized_error_closes_the_client_witness :
  prop_get "error" unauthorized = VStr "UnauthorizedError"
  /\ _connected two_requests = true
  /\ size (_requestResolves two_requests) = 2
  /\ _connected (onProcessingError unauthorized two_requests) = false
  /\ _requestResolves (onProcessingError unauthorized two_requests) = ∅
  /\ delivered (onProcessingError unauthorized two_requests)
     = [(1, Closed);
        (0, ProcessingError unauthorized (UnauthorizedError (VStr "not allowed")))].
Proof.
  split; [reflexivity|]. split; [reflexivity|]. split; [reflexivity|].
  destruct (unauthorized_error_closes_the_client unauthorized two_requests
              eq_refl eq_refl) as (Hconnected & Htable & _ & _).
  split; [exact Hconnected|]. split; [exact Htable|]. vm_compute. reflexivity.
Defined.

Lemma processing_error_rejects_its_request_only_witness :
  prop_get "error" not_found <> VStr "UnauthorizedError"
  /\ _connected (onProcessingError not_found two_requests) = true
  /\ delivered (onProcessingError not_found two_requests)
     = [(1, ProcessingError not_found (NotFoundError (VStr "no such position")))]
  /\ _requestResolves (onProcessingError not_found two_requests) !! generate 32 1 = Some 0.
Proof.
  assert (Hne : prop_get "error" not_found <> VStr "UnauthorizedError") by discriminate.
  split; [exact Hne|].
  destruct (processing_error_rejects_its_request_only not_found two_requests Hne)
    as (Hconnected & _ & _).
  split; [exact Hconnected|]. split; vm_compute; reflexivity.
Defined.

Lemma method_resolves_with_its_response_witness :
  let c := run [Connect] constructor in
  let call := getPosition (VStr "42") in
  let c1 := _rpcRequest (VStr "accountId") (request call) 2 c in
  requestId_of position_reply = generate 32 2
  /\ delivered (onResponse position_reply c1)
     = [(0, Response (convertIsoTimeToDate_object position_reply))]
  /\ settle call (Response (convertIsoTimeToDate_object position_reply))
     = Resolved (VObj [("id", VStr "42"); ("time", VDate 1604361600000);
                       ("updateTime", VDate 1604361600123);
                       ("brokerTimezone", VDate (Date_parse "EET"))]).
Proof.
  intros c call c1.
  assert (Hid : requestId_of position_reply = generate 32 2) by reflexivity.
  split; [exact Hid|].
  destruct (method_resolves_with_its_response (GetPosition (VStr "42")) (VStr "accountId")
              2 position_reply c Hid) as (_ & _ & Hdelivered & _).
  split; [exact Hdelivered|]. vm_compute. reflexivity.
Defined.

End RpcExamples.

(** ** Trades *)

Section Trades.
Import JS MetaApiConnection.

Lemma dict_get_app {A} k (d d' : dict A) :
  dict_get k (d ++ d')
  = match dict_get k d with Some v => Some v | None => dict_get k d' end.
Proof.
  induction d as [|[k' v] d IH]; [reflexivity|].
  cbn [app dict_get]. by destruct (String.eqb k k').
Qed.

Lemma dict_get_None {A} k (d : dict A) :
  dict_get k d = None <-> ~ In k (List.map fst d).
Proof.
  induction d as [|[k' v] d IH]; cbn [dict_get List.map fst In]; [tauto|].
  destruct (String.eqb_spec k k') as [->|Hne]; [|rewrite IH; intuition congruence].
  split; [discriminate|]. intros Hnot. destruct Hnot. by left.
Qed.

(** In a list without two properties of the same name, the last
    property of a name is the first. *)
Lemma dict_get_rev {A} k (d : dict A) :
  List.NoDup (List.map fst d) -> dict_get k (List.rev d) = dict_get k d.
Proof.
  induction d as [|[k' v] d IH]; [reflexivity|].
  cbn [List.map fst List.rev dict_get]. intros Hnd.
  apply List.NoDup_cons_iff in Hnd as [Hnot Hnd].
  rewrite dict_get_app, (IH Hnd). cbn [dict_get].
  destruct (String.eqb_spec k k') as [->|Hne]; [|by destruct (dict_get k d)].
  apply dict_get_None in Hnot. by rewrite Hnot.
Qed.

(** Copying the properties of a source: the last property of a name
    wins, and a name the source does not have keeps its value. *)
Lemma dict_get_copy k (source : dict value) (target : object) :
  dict_get k (List.fold_left (fun target kv => prop_set (fst kv) (snd kv) target)
                             source target)
  = match dict_get k (List.rev source) with
    | Some v => Some v
    | None => dict_get k target
    end.
Proof.
  revert target. induction source as [|[k' v] source IH]; intros target; [reflexivity|].
  cbn [List.fold_left List.rev fst snd]. rewrite IH, dict_get_app.
  destruct (dict_get k (List.rev source)); [reflexivity|].
  cbn [dict_get]. unfold prop_set.
  destruct (String.eqb_spec k k') as [->|Hne].
  - apply dict_get_set_eq.
  - by apply dict_get_set_ne.
Qed.

Lemma dict_get_Object_assign k target sources :
  dict_get k (Object_assign target sources)
  = List.fold_left
      (fun found source =>
         match dict_get k (List.rev (own_enumerable source)) with
         | Some v => Some v
         | None => found
         end)
      sources (dict_get k target).
Proof.
  unfold Object_assign. revert target.
  induction sources as [|source sources IH]; intros target; [reflexivity|].
  cbn [List.fold_left]. by rewrite IH, dict_get_copy.
Qed.

Lemma stops_NoDup stopLoss takeProfit :
  List.NoDup (List.map fst (_generateStopOptions stopLoss takeProfit)).
Proof.
  assert (Hdec : forall l : list string,
             bool_decide (NoDup l) = true -> List.NoDup l).
  { intros l Hl. apply NoDup_ListNoDup. by apply bool_decide_eq_true in Hl. }
  unfold _generateStopOptions.
  destruct stopLoss; destruct takeProfit;
    repeat match goal with |- context [if ?b then _ else _] => destruct b end;
    by apply Hdec.
Qed.

(** X6.  [_generateStopOptions]: a stop that is a number, zero and [NaN]
    included, is sent as it is, without units; a stop that is not a
    number and is truthy is sent as its [value] and its [units]; any other
    stop ([undefined], [null], the empty string, [false]) is left out.
    What is sent for the stop loss does not depend on the take profit, nor
    the other way round, and nothing else is sent. *)
Theorem stop_options_follow_their_argument stopLoss takeProfit :
  let trade := _generateStopOptions stopLoss takeProfit in
  let sent name units stop :=
    match stop with
    | VNum _ => dict_get name trade = Some stop /\ dict_get units trade = None
    | _ =>
        if truthy stop
        then dict_get name trade = Some (member "value" stop)
             /\ dict_get units trade = Some (member "units" stop)
        else dict_get name trade = None /\ dict_get units trade = None
    end in
  sent "stopLoss" "stopLossUnits" stopLoss
  /\ sent "takeProfit" "takeProfitUnits" takeProfit
  /\ (forall k, k <> "stopLoss" -> k <> "stopLossUnits" -> k <> "takeProfit" ->
                k <> "takeProfitUnits" -> dict_get k trade = None).
Proof.
  cbv zeta. unfold _generateStopOptions. split; [|split].
  - destruct stopLoss; destruct takeProfit;
      repeat match goal with |- context [if ?b then _ else _] => destruct b end;
      split; reflexivity.
  - destruct stopLoss; destruct takeProfit;
      repeat match goal with |- context [if ?b then _ else _] => destruct b end;
      split; reflexivity.
  - intros k H1 H2 H3 H4.
    assert (Hset : forall k' v (o : object),
               k <> k' -> dict_get k o = None -> dict_get k (prop_set k' v o) = None).
    { intros k' v o Hne Ho. unfold prop_set. by rewrite dict_get_set_ne. }
    destruct stopLoss; destruct takeProfit;
      repeat match goal with |- context [if ?b then _ else _] => destruct b end;
      repeat (apply Hset; [assumption|]); reflexivity.
Qed.

(** X7.  Each trade method calls [trade] of the websocket client with
    the account id and one trade object, the application going nowhere.
    A property of the trade is read from the options when they have it,
    else from the stops when they give it, else from the action type and
    the arguments the method documents: the options can replace any
    field, the action type included. *)
Theorem options_override_the_trade this call :
  List.NoDup (List.map fst (options_of call)) ->
  exists trade,
    perform this call = (_account_id this, Rpc.trade (VObj trade))
    /\ (forall application,
          perform (mkConnection (_account_id this) application) call = perform this call)
    /\ (forall k,
          dict_get k trade
          = match dict_get k (options_of call) with
            | Some v => Some v
            | None =>
                match dict_get k (stops_of call) with
                | Some v => Some v
                | None => dict_get k (documented call)
                end
            end).
Proof.
  intros Hnd.
  destruct call; cbn [perform];
    unfold createMarketBuyOrder, createMarketSellOrder, createLimitBuyOrder,
      createLimitSellOrder, createStopBuyOrder, createStopSellOrder,
      createStopLimitBuyOrder, createStopLimitSellOrder, modifyPosition,
      closePositionPartially, closePosition, closeBy, closePositionsBySymbol,
      modifyOrder, cancelOrder, websocketClient_trade;
    (eexists; split; [reflexivity|]; split; [reflexivity|]; intros k;
     cbn [options_of stops_of documented] in *;
     rewrite ?dict_get_Object_assign; cbn [List.fold_left own_enumerable];
     rewrite ?(dict_get_rev k _ Hnd), ?(dict_get_rev k _ (stops_NoDup _ _));
     reflexivity).
Qed.

End Trades.

(** ** Synchronization retries *)

Section Retries.
Import JS MetaApiConnection.

(** The interval after one more failure. *)
Lemma backoff_steps :
  forall n, (n <= 9)%nat ->
    Nat.iter n (fun i => Math_min (i * 2) 300) 1%float
    = float_of_Z (Z.min (2 ^ Z.of_nat n) 300).
Proof.
  intros n Hn.
  do 10 (destruct n as [|n]; [vm_compute; reflexivity|]). lia.
Qed.

Lemma backoff_capped n :
  Nat.iter n (fun i => Math_min (i * 2) 300) 300%float = 300%float.
Proof.
  induction n as [|n IH]; [reflexivity|]. rewrite Nat.iter_succ, IH.
  vm_compute. reflexivity.
Qed.

Lemma backoff_interval n :
  Nat.iter n (fun i => Math_min (i * 2) 300) 1%float
  = float_of_Z (Z.min (2 ^ Z.of_nat n) 300).
Proof.
  destruct (Nat.le_gt_cases n 9) as [Hle|Hgt]; [by apply backoff_steps|].
  assert (Hn : exists m, n = (m + 9)%nat) by (exists (n - 9)%nat; lia).
  destruct Hn as [m ->].
  rewrite Nat.iter_add, (backoff_steps 9) by lia.
  replace (float_of_Z (Z.min (2 ^ Z.of_nat 9) 300)) with 300%float
    by (vm_compute; reflexivity).
  rewrite backoff_capped.
  assert (2 ^ 9 <= 2 ^ Z.of_nat (m + 9))%Z by (apply Z.pow_le_mono_r; lia).
  rewrite Z.min_r by lia. reflexivity.
Qed.

Lemma failures_keep_the_key closed key n state :
  truthy closed = false ->
  shouldSynchronize
    (Nat.iter n (fun state => (_ensureSynchronized closed key Thrown state).1) state)
  = shouldSynchronize state
  /\ synchronizationRetryIntervalInSeconds
       (Nat.iter n (fun state => (_ensureSynchronized closed key Thrown state).1) state)
     = if strict_eq (shouldSynchronize state) key
       then Nat.iter n (fun i => Math_min (i * 2) 300)
                     (synchronizationRetryIntervalInSeconds state)
       else synchronizationRetryIntervalInSeconds state.
Proof.
  intros Hopen. induction n as [|n [IHkey IHinterval]]; rewrite ?Nat.iter_succ.
  - split; [reflexivity|]. by destruct (strict_eq _ _).
  - unfold _ensureSynchronized at 1 3. rewrite Hopen. cbn [synchronization_ended].
    rewrite IHkey. destruct (strict_eq (shouldSynchronize state) key) eqn:E;
      cbn [fst shouldSynchronize synchronizationRetryIntervalInSeconds
           set_synchronizationRetryIntervalInSeconds]; by rewrite ?IHkey, ?IHinterval.
Qed.

(** X8.  [_ensureSynchronized] retries with a delay that doubles and is
    capped.  On a connection that is not closed, with [shouldSynchronize]
    still the key of the call, starting from the interval of one second
    of a new state: the failure that follows [n] failures sets the timer
    to [min(2^n, 300)] seconds and leaves an interval of
    [min(2^(n+1), 300)] seconds, so that no delay exceeds five minutes.  A
    synchronization that succeeds sets the interval back to one second
    and sets no timer; and no timer is set when the connection is closed
    or the key is another one. *)
Theorem retry_delay_doubles_up_to_five_minutes closed key n state :
  truthy closed = false ->
  synchronizationRetryIntervalInSeconds state = 1%float ->
  strict_eq (shouldSynchronize state) key = true ->
  let failed state := (_ensureSynchronized closed key Thrown state).1 in
  let state' := Nat.iter n failed state in
  _ensureSynchronized closed key Thrown state'
  = (set_synchronizationRetryIntervalInSeconds
       (float_of_Z (Z.min (2 ^ Z.of_nat (S n)) 300)) state',
     Some (float_of_Z (Z.min (2 ^ Z.of_nat n) 300) * 1000)%float)
  /\ (forall result,
        truthy result = true ->
        _ensureSynchronized closed key (Returned result) state'
        = (set_synchronizationRetryIntervalInSeconds 1 (set_synchronized true state'), None))
  /\ (forall ended closed',
        truthy closed' = true -> _ensureSynchronized closed' key ended state' = (state', None))
  /\ (forall other,
        strict_eq (shouldSynchronize state) other = false ->
        _ensureSynchronized closed other Thrown state' = (state', None)).
Proof.
  intros Hopen Hone Hkey failed state'.
  destruct (failures_keep_the_key closed key n state Hopen) as [Hsame Hinterval].
  fold failed in Hsame, Hinterval. fold state' in Hsame, Hinterval.
  rewrite Hkey, Hone, backoff_interval in Hinterval.
  split; [|split; [|split]].
  - unfold _ensureSynchronized. rewrite Hopen. cbn [synchronization_ended].
    rewrite Hsame, Hkey, Hinterval. do 2 f_equal.
    pose proof (backoff_interval (S n)) as Hnext. rewrite Nat.iter_succ in Hnext.
    rewrite backoff_interval in Hnext. exact Hnext.
  - intros result Hresult. unfold _ensureSynchronized.
    rewrite Hopen. cbn [synchronization_ended]. by rewrite Hresult.
  - intros ended closed' Hclosed. unfold _ensureSynchronized. by rewrite Hclosed.
  - intros other Hother. unfold _ensureSynchronized. rewrite Hopen.
    cbn [synchronization_ended]. by rewrite Hsame, Hother.
Qed.

End Retries.

Section ConnectionExamples.
Import JS MetaApiConnection ConnectionExample.

Lemma options_override_the_trade_witness :
  List.NoDup (List.map fst (options_of limit_buy))
  /\ perform connection limit_buy
     = (VStr "accountId",
        Rpc.trade (VObj [("actionType", VStr "ORDER_TYPE_BUY_LIMIT"); ("symbol", VStr "EURUSD");
                         ("volume", VNum 0.1); ("openPrice", VNum 1);
                         ("stopLoss", VNum 0.9); ("takeProfit", VNum 0.02);
                         ("takeProfitUnits", VStr "RELATIVE_PRICE");
                         ("comment", VStr "comment")]))
  /\ (exists trade,
        perform connection limit_buy = (VStr "accountId", Rpc.trade (VObj trade))
        /\ dict_get "volume" trade = Some (VNum 0.1)
        /\ dict_get "actionType" trade = Some (VStr "ORDER_TYPE_BUY_LIMIT")).
Proof.
  assert (Hnd : List.NoDup (List.map fst (options_of limit_buy))).
  { apply NoDup_ListNoDup. apply (bool_decide_unpack _). vm_compute. reflexivity. }
  split; [exact Hnd|]. split; [reflexivity|].
  destruct (options_override_the_trade connection limit_buy Hnd) as (trade & Hcall & _ & Hget).
  exists trade. split; [exact Hcall|].
  rewrite (Hget "volume"), (Hget "actionType"). split; reflexivity.
Defined.

(** Three failures, and then a fourth: the timer is set to eight seconds
    and the interval left at sixteen.  After ten failures the timer is
    set to five minutes. *)
Lemma retry_delay_doubles_up_to_five_minutes_witness :
  truthy (VBool false) = false
  /\ synchronizationRetryIntervalInSeconds waiting = 1%float
  /\ strict_eq (shouldSynchronize waiting) (VStr "key") = true
  /\ (let failed state := (_ensureSynchronized (VBool false) (VStr "key") Thrown state).1 in
      _ensureSynchronized (VBool false) (VStr "key") Thrown (Nat.iter 3 failed waiting)
      = (set_synchronizationRetryIntervalInSeconds 16 (Nat.iter 3 failed waiting), Some 8000%float)
      /\ snd (_ensureSynchronized (VBool false) (VStr "key") Thrown (Nat.iter 10 failed waiting))
         = Some 300000%float).
Proof.
  split; [reflexivity|]. split; [reflexivity|]. split; [reflexivity|].
  intros failed. split.
  - destruct (retry_delay_doubles_up_to_five_minutes (VBool false) (VStr "key") 3 waiting
                eq_refl eq_refl eq_refl) as [Hthird _].
    exact Hthird.
  - destruct (retry_delay_doubles_up_to_five_minutes (VBool false) (VStr "key") 10 waiting
                eq_refl eq_refl eq_refl) as [Htenth _].
    fold failed in Htenth. rewrite Htenth. reflexivity.
Defined.

End ConnectionExamples.

(** ** The getters of the terminal state *)

Section Getters.
Import JS TerminalState.







End Getters.

(** ** Specifications *)

Section Specifications.
Import JS TerminalState.
Context `{Runtime}.

Lemma find_snoc {A} (f : A -> bool) (l : list A) (x : A) :
  List.find f (l ++ [x])
  = match List.find f l with Some y => Some y | None => if f x then Some x else None end.
Proof.
  induction l as [|y l IH]; cbn [app List.find]; [reflexivity|].
  by destruct (f y).
Qed.

(** The dictionary after the loop over the specifications: the last
    specification of a symbol is the one kept. *)
Lemma dict_get_specifications symbol (specifications : list object) (m : dict object) :
  dict_get symbol
    (List.fold_left (fun m spec => dict_set (ToString (prop_get "symbol" spec)) spec m)
                    specifications m)
  = match List.find (fun spec => String.eqb (ToString (prop_get "symbol" spec)) symbol)
                    (List.rev specifications) with
    | Some spec => Some spec
    | None => dict_get symbol m
    end.
Proof.
  revert m. induction specifications as [|spec specifications IH]; intros m; [reflexivity|].
  cbn [List.fold_left List.rev]. rewrite IH, find_snoc.
  destruct (List.find _ (List.rev specifications)); [reflexivity|].
  destruct (String.eqb_spec (ToString (prop_get "symbol" spec)) symbol) as [<-|Hne].
  - apply dict_get_set_eq.
  - by apply dict_get_set_ne.
Qed.

Lemma dict_get_removedSymbols symbol (removedSymbols : list value) (m : dict object) :
  dict_get symbol
    (List.fold_left (fun m removed => dict_delete (ToString removed) m) removedSymbols m)
  = if existsb (fun removed => String.eqb (ToString removed) symbol) removedSymbols
    then None else dict_get symbol m.
Proof.
  revert m. induction removedSymbols as [|removed removedSymbols IH]; intros m; [reflexivity|].
  cbn [List.fold_left existsb]. rewrite IH.
  destruct (String.eqb_spec (ToString removed) symbol) as [<-|Hne]; cbn [orb].
  - rewrite dict_get_delete_eq. by destruct (existsb _ _).
  - by rewrite dict_get_delete_ne.
Qed.

Lemma read_specificationMap_write l l' m ts :
  l' < length (specificationMaps (heap ts)) ->
  read_specificationMap l' (write_specificationMap l m ts)
  = if decide (l' = l) then m else read_specificationMap l' ts.
Proof.
  intros Hl. unfold read_specificationMap, write_specificationMap. cbn [heap set_heap
    specificationMaps set_specificationMaps].
  case_decide as E.
  - subst. by rewrite list_lookup_total_insert_eq.
  - by rewrite list_lookup_total_insert_ne.
Qed.

Lemma _getState_specificationMaps_length i ts :
  length (specificationMaps (heap ts)) <= length (specificationMaps (heap (_getState i ts))).
Proof.
  unfold _getState. destruct (stateByInstanceIndex ts !! i); [done|].
  cbn. rewrite length_app. lia.
Qed.

(** X10.  After [onSymbolSpecificationsUpdated], [specification(symbol)]
    finds no specification for a symbol among the removed symbols, even
    one the same call gives a specification for: it returns [undefined],
    or the member of [Object.prototype] when the symbol is the name of
    one.  Otherwise it returns the last specification the call gives
    for the symbol, and what it returned before when the call gives
    none.  This holds whether or not the instance state and the combined
    state share their dictionary.  No specification of the call has the
    symbol [__proto__], whose assignment would replace the prototype of
    the dictionary. *)
Theorem specification_after_update i specifications removedSymbols symbol ts :
  specificationsBySymbol (combinedState ts) < length (specificationMaps (heap ts)) ->
  forallb (fun spec => negb (String.eqb (ToString (prop_get "symbol" spec)) "__proto__"))
          specifications = true ->
  specification symbol (onSymbolSpecificationsUpdated i specifications removedSymbols ts)
  = if existsb (fun removed => String.eqb (ToString removed) symbol) removedSymbols
    then (if inherited symbol then Some (Inherited symbol) else None)
    else match List.find
                 (fun spec => String.eqb (ToString (prop_get "symbol" spec)) symbol)
                 (List.rev specifications) with
         | Some spec => Some (Own spec)
         | None => specification symbol ts
         end.
Proof.
  intros Hvalid _. unfold onSymbolSpecificationsUpdated.
  set (ts0 := _getState i ts).
  assert (Hc0 : combinedState ts0 = combinedState ts) by apply _getState_combined.
  assert (Hvalid0 : specificationsBySymbol (combinedState ts0)
                    < length (specificationMaps (heap ts0))).
  { rewrite Hc0. pose proof (_getState_specificationMaps_length i ts). unfold ts0. lia. }
  set (update := fun m : dict object =>
         List.fold_left (fun m removed => dict_delete (ToString removed) m) removedSymbols
           (List.fold_left
              (fun m spec => dict_set (ToString (prop_get "symbol" spec)) spec m)
              specifications m)).
  assert (Hupdate : forall m,
             dict_get symbol (update m)
             = if existsb (fun removed => String.eqb (ToString removed) symbol) removedSymbols
               then None
               else match List.find
                            (fun spec => String.eqb (ToString (prop_get "symbol" spec)) symbol)
                            (List.rev specifications) with
                    | Some spec => Some spec
                    | None => dict_get symbol m
                    end).
  { intros m. unfold update. by rewrite dict_get_removedSymbols, dict_get_specifications. }
  set (lc := specificationsBySymbol (combinedState ts0)) in *.
  set (li := specificationsBySymbol (get_state (Instance i) ts0)).
  assert (Hstep : forall tgt ts1,
             updateSpecifications specifications removedSymbols tgt ts1
             = write_specificationMap (specificationsBySymbol (get_state tgt ts1))
                 (update (read_specificationMap (specificationsBySymbol (get_state tgt ts1)) ts1))
                 ts1) by reflexivity.
  rewrite (Hstep (Instance i) ts0). fold li.
  set (ts1 := write_specificationMap li (update (read_specificationMap li ts0)) ts0).
  rewrite (Hstep Combined ts1).
  assert (Hc1 : get_state Combined ts1 = combinedState ts0) by reflexivity.
  rewrite Hc1. fold lc.
  assert (Hlen1 : length (specificationMaps (heap ts1)) = length (specificationMaps (heap ts0))).
  { unfold ts1, write_specificationMap. cbn [heap set_heap specificationMaps
      set_specificationMaps]. apply length_insert. }
  unfold specification.
  assert (Hc2 : combinedState (write_specificationMap lc
                                 (update (read_specificationMap lc ts1)) ts1)
                = combinedState ts0) by reflexivity.
  rewrite Hc2. fold lc.
  rewrite read_specificationMap_write by lia. rewrite decide_True by done.
  unfold dict_read.
  rewrite Hupdate. unfold ts1. rewrite read_specificationMap_write by done.
  assert (Hread : read_specificationMap lc ts0
                  = read_specificationMap (specificationsBySymbol (combinedState ts)) ts).
  { unfold lc. rewrite Hc0. apply _getState_read_specificationMap. }
  case_decide as Halias.
  - rewrite Hupdate. rewrite <- Halias, Hread.
    destruct (existsb _ _); [reflexivity|]. by destruct (List.find _ _).
  - rewrite Hread. destruct (existsb _ _); [reflexivity|]. by destruct (List.find _ _).
Qed.

End Specifications.

(** ** Pending orders *)

Section PendingOrders.
Import JS TerminalState TerminalStateReads.
Context `{Runtime}.


Lemma filter_absent {A} (f : A -> bool) (l : list A) :
  existsb f l = false -> List.filter (fun x => negb (f x)) l = l.
Proof.
  induction l as [|x l IH]; [done|]. cbn [existsb List.filter].
  destruct (f x); [done|]. cbn [orb negb]. intros Hl. by rewrite (IH Hl).
Qed.




Lemma modify_instance_getState i f ts :
  _getState i (modify_state (Instance i) f ts) = modify_state (Instance i) f ts.
Proof.
  unfold _getState, modify_state. cbn [put_state stateByInstanceIndex set_stateByInstanceIndex].
  by rewrite lookup_insert_eq.
Qed.



Lemma filter_pointwise {A} (f g : A -> bool) (l : list A) :
  (forall x, f x = g x) -> List.filter f l = List.filter g l.
Proof. intros Hfg. induction l as [|x l IH]; [done|]. cbn. by rewrite Hfg, IH. Qed.

(** One [completeOrder(state)]: the state refers to the array of its
    orders without those of the id; the arrays that were in the store
    and the order objects are as they were. *)
Lemma completeOrder_filters orderId now tgt ts :
  orders (get_state tgt ts) < length (orderArrays (heap ts)) ->
  let ts' := completeOrder orderId now tgt ts in
  read_orderArray (orders (get_state tgt ts')) ts'
  = List.filter (fun o => negb (strict_eq (prop_get "id" (read_order o ts)) orderId))
                (read_orderArray (orders (get_state tgt ts)) ts)
  /\ (forall l, l < length (orderArrays (heap ts)) ->
                read_orderArray l ts' = read_orderArray l ts)
  /\ length (orderArrays (heap ts)) <= length (orderArrays (heap ts'))
  /\ orders (get_state tgt ts') < length (orderArrays (heap ts'))
  /\ (forall tgt', tgt' <> tgt -> get_state tgt' ts' = get_state tgt' ts)
  /\ orderObjects (heap ts') = orderObjects (heap ts).
Proof.
  intros Hvalid ts'. unfold ts', completeOrder, alloc_orderArray. cbv beta iota zeta.
  destruct (existsb _ _) eqn:Epresent.
  - rewrite get_modify_same. cbn [orders set_orders].
    unfold read_orderArray. rewrite !heap_modify_state.
    cbn [heap set_heap orderArrays set_orderArrays orderObjects].
    split; [by rewrite list_lookup_total_middle|].
    split; [intros l Hl; by rewrite lookup_total_app_l|].
    split; [rewrite length_app; lia|]. split; [rewrite length_app; cbn; lia|].
    split; [|reflexivity].
    intros tgt' Hne. rewrite get_modify. by rewrite decide_False.
  - rewrite get_modify_same. cbn [orders set_completedOrders].
    unfold read_orderArray in *. rewrite !heap_modify_state.
    split; [by rewrite (filter_absent _ _ Epresent)|].
    split; [done|]. split; [done|]. split; [done|]. split; [|reflexivity].
    intros tgt' Hne. rewrite get_modify. by rewrite decide_False.
Qed.

(** X13.  After [onPendingOrderCompleted], the orders of the instance
    state and the orders of the combined state are what they were
    without the orders of that id, in the same sequence.  The arrays that
    existed before are not written: each state is given a new array, so
    that an array read from the getter [orders] earlier still holds the
    completed order.  No order object is written. *)
Theorem completed_order_leaves_the_lists i orderId now ts :
  let ts0 := _getState i ts in
  orders (get_state (Instance i) ts0) < length (orderArrays (heap ts0)) ->
  orders (combinedState ts) < length (orderArrays (heap ts)) ->
  let ts' := onPendingOrderCompleted i orderId now ts in
  let kept o := negb (strict_eq (prop_get "id" (read_order o ts)) orderId) in
  read_orderArray (orders (get_state (Instance i) ts')) ts'
  = List.filter kept (read_orderArray (orders (get_state (Instance i) ts0)) ts0)
  /\ get_orders ts' = List.filter kept (get_orders ts)
  /\ (forall l, l < length (orderArrays (heap ts)) ->
                read_orderArray l ts' = read_orderArray l ts)
  /\ orderObjects (heap ts') = orderObjects (heap ts).
Proof.
  intros ts0 Hinstance Hcombined ts' kept.
  assert (Hlen0 : length (orderArrays (heap ts)) <= length (orderArrays (heap ts0))).
  { unfold ts0, _getState. destruct (stateByInstanceIndex ts !! i); [done|].
    cbn. rewrite length_app. lia. }
  assert (Hobjects0 : orderObjects (heap ts0) = orderObjects (heap ts))
    by apply _getState_orderObjects.
  destruct (completeOrder_filters orderId now (Instance i) ts0 Hinstance)
    as (Hfi & Hkepti & Hleni & Hvalidi & Hotheri & Hobjectsi).
  set (ts1 := completeOrder orderId now (Instance i) ts0) in *.
  assert (Hc1 : get_state Combined ts1 = combinedState ts).
  { rewrite Hotheri by done. apply _getState_combined. }
  assert (Hvalidc : orders (get_state Combined ts1) < length (orderArrays (heap ts1))).
  { rewrite Hc1. lia. }
  destruct (completeOrder_filters orderId now Combined ts1 Hvalidc)
    as (Hfc & Hkeptc & Hlenc & _ & Hotherc & Hobjectsc).
  change (completeOrder orderId now Combined ts1) with ts' in *.
  assert (Hread1 : forall l, read_order l ts1 = read_order l ts).
  { intros l. unfold read_order. by rewrite Hobjectsi, Hobjects0. }
  split; [|split; [|split]].
  - rewrite (Hotherc (Instance i)) by done. rewrite Hkeptc by exact Hvalidi.
    rewrite Hfi. apply filter_pointwise. intros o. unfold kept, read_order.
    by rewrite Hobjects0.
  - unfold get_orders. change (combinedState ts') with (get_state Combined ts').
    rewrite Hfc, Hc1. rewrite Hkepti by lia. unfold ts0.
    rewrite _getState_read_orderArray.
    apply filter_pointwise. intros o. unfold kept. by rewrite Hread1.
  - intros l Hl. rewrite Hkeptc by lia. rewrite Hkepti by lia.
    apply _getState_read_orderArray.
  - by rewrite Hobjectsc, Hobjectsi, Hobjects0.
Qed.

End PendingOrders.

(** ** Positions *)

Section Positions.
Import JS TerminalState TerminalStateReads.
Context `{Runtime}.


(** One [removePosition(state)]: the state refers to the array of its
    positions without those of the id; the arrays that were in the store
    and the position objects are as they were. *)
Lemma removePosition_filters positionId now tgt ts :
  positions (get_state tgt ts) < length (positionArrays (heap ts)) ->
  let ts' := removePosition positionId now tgt ts in
  read_positionArray (positions (get_state tgt ts')) ts'
  = List.filter (fun p => negb (strict_eq (prop_get "id" (read_position p ts)) positionId))
                (read_positionArray (positions (get_state tgt ts)) ts)
  /\ (forall l, l < length (positionArrays (heap ts)) ->
                read_positionArray l ts' = read_positionArray l ts)
  /\ length (positionArrays (heap ts)) <= length (positionArrays (heap ts'))
  /\ positions (get_state tgt ts') < length (positionArrays (heap ts'))
  /\ (forall tgt', tgt' <> tgt -> get_state tgt' ts' = get_state tgt' ts)
  /\ positionObjects (heap ts') = positionObjects (heap ts).
Proof.
  intros Hvalid ts'. unfold ts', removePosition, alloc_positionArray. cbv beta iota zeta.
  destruct (existsb _ _) eqn:Epresent.
  - rewrite get_modify_same. cbn [positions set_positions].
    unfold read_positionArray. rewrite !heap_modify_state.
    cbn [heap set_heap positionArrays set_positionArrays positionObjects].
    split; [by rewrite list_lookup_total_middle|].
    split; [intros l Hl; by rewrite lookup_total_app_l|].
    split; [rewrite length_app; lia|]. split; [rewrite length_app; cbn; lia|].
    split; [|reflexivity].
    intros tgt' Hne. rewrite get_modify. by rewrite decide_False.
  - rewrite get_modify_same. cbn [positions set_removedPositions].
    unfold read_positionArray in *. rewrite !heap_modify_state.
    split; [by rewrite (filter_absent _ _ Epresent)|].
    split; [done|]. split; [done|]. split; [done|]. split; [|reflexivity].
    intros tgt' Hne. rewrite get_modify. by rewrite decide_False.
Qed.

(** X14.  After [onPositionRemoved], the positions of the instance
    state and the positions of the combined state are what they were
    without the positions of that id, in the same sequence.  The arrays
    that existed before are not written: each state is given a new
    array, so that an array read from the getter [positions] earlier
    still holds the removed position.  No position object is written. *)
Theorem removed_position_leaves_the_lists i positionId now ts :
  let ts0 := _getState i ts in
  positions (get_state (Instance i) ts0) < length (positionArrays (heap ts0)) ->
  positions (combinedState ts) < length (positionArrays (heap ts)) ->
  let ts' := onPositionRemoved i positionId now ts in
  let kept p := negb (strict_eq (prop_get "id" (read_position p ts)) positionId) in
  read_positionArray (positions (get_state (Instance i) ts')) ts'
  = List.filter kept (read_positionArray (positions (get_state (Instance i) ts0)) ts0)
  /\ get_positions ts' = List.filter kept (get_positions ts)
  /\ (forall l, l < length (positionArrays (heap ts)) ->
                read_positionArray l ts' = read_positionArray l ts)
  /\ positionObjects (heap ts') = positionObjects (heap ts).
Proof.
  intros ts0 Hinstance Hcombined ts' kept.
  assert (Hlen0 : length (positionArrays (heap ts)) <= length (positionArrays (heap ts0))).
  { unfold ts0, _getState. destruct (stateByInstanceIndex ts !! i); [done|].
    cbn. rewrite length_app. lia. }
  assert (Hobjects0 : positionObjects (heap ts0) = positionObjects (heap ts))
    by apply _getState_positionObjects.
  destruct (removePosition_filters positionId now (Instance i) ts0 Hinstance)
    as (Hfi & Hkepti & Hleni & Hvalidi & Hotheri & Hobjectsi).
  set (ts1 := removePosition positionId now (Instance i) ts0) in *.
  assert (Hc1 : get_state Combined ts1 = combinedState ts).
  { rewrite Hotheri by done. apply _getState_combined. }
  assert (Hvalidc : positions (get_state Combined ts1) < length (positionArrays (heap ts1))).
  { rewrite Hc1. lia. }
  destruct (removePosition_filters positionId now Combined ts1 Hvalidc)
    as (Hfc & Hkeptc & Hlenc & _ & Hotherc & Hobjectsc).
  change (removePosition positionId now Combined ts1) with ts' in *.
  assert (Hread1 : forall l, read_position l ts1 = read_position l ts).
  { intros l. unfold read_position. by rewrite Hobjectsi, Hobjects0. }
  split; [|split; [|split]].
  - rewrite (Hotherc (Instance i)) by done. rewrite Hkeptc by exact Hvalidi.
    rewrite Hfi. apply filter_pointwise. intros p. unfold kept, read_position.
    by rewrite Hobjects0.
  - unfold get_positions. change (combinedState ts') with (get_state Combined ts').
    rewrite Hfc, Hc1. rewrite Hkepti by lia. unfold ts0.
    rewrite _getState_read_positionArray.
    apply filter_pointwise. intros p. unfold kept. by rewrite Hread1.
  - intros l Hl. rewrite Hkeptc by lia. rewrite Hkepti by lia.
    apply _getState_read_positionArray.
  - by rewrite Hobjectsc, Hobjectsi, Hobjects0.
Qed.

End Positions.

(** ** Prices *)

Section Prices.
Import JS TerminalState TerminalStateReads.
Context `{Runtime}.





End Prices.

(** ** Waiting for a price *)

Section Waiting.
Import JS TerminalState TerminalStateReads.
Context `{Runtime}.



















End Waiting.

(** ** Synchronization *)

Section Synchronization.
Import JS TerminalState TerminalStateReads.

Lemma get_state_set_heap tgt h ts : get_state tgt (set_heap h ts) = get_state tgt ts.
Proof. by destruct tgt. Qed.

Lemma _getState_set_heap i h ts :
  _getState i ts = ts -> _getState i (set_heap h ts) = set_heap h ts.
Proof.
  unfold _getState. cbn [stateByInstanceIndex set_heap].
  destruct (stateByInstanceIndex ts !! i) eqn:E; [done|].
  intros Heq. exfalso. apply (f_equal (fun ts => stateByInstanceIndex ts !! i)) in Heq.
  cbn in Heq. rewrite lookup_insert_eq, E in Heq. discriminate.
Qed.

(** After [onSynchronizationStarted] the instance state is there and
    has no account information. *)
Lemma onSynchronizationStarted_instance
    i specificationsUpdated positionsUpdated ordersUpdated ts :
  let ts1 :=
    onSynchronizationStarted i specificationsUpdated positionsUpdated ordersUpdated ts in
  _getState i ts1 = ts1
  /\ accountInformation (get_state (Instance i) ts1) = None.
Proof.
  unfold onSynchronizationStarted, alloc_positionArray, alloc_orderArray,
    alloc_specificationMap. cbv beta iota zeta.
  destruct specificationsUpdated, positionsUpdated, ordersUpdated;
    repeat first [ rewrite get_modify_same | rewrite get_state_set_heap ];
    (split; [|reflexivity]);
    repeat first [ apply modify_instance_getState | apply _getState_set_heap ].
Qed.

(** X17.  A synchronization from its start to its end.  After
    [onSynchronizationStarted], whatever it announces,
    [onPositionsReplaced], [onPendingOrdersReplaced],
    [onPositionsSynchronized] and [onPendingOrdersSynchronized] of one
    instance, the getters [positions] and [orders] return the very
    arrays that replaced those of the instance, with what they hold, and
    both are marked initialized; the combined state has forgotten the
    removed positions and the completed orders; its account information
    is gone, the instance having received none since the start; its
    prices are as they were.  Until the last of the five calls the
    combined state is what it was. *)
Theorem synchronization_hands_the_lists_over
    i specificationsUpdated positionsUpdated ordersUpdated
    positions' orders' synchronizationId ts :
  let ts1 :=
    onSynchronizationStarted i specificationsUpdated positionsUpdated ordersUpdated ts in
  let ts2 := onPositionsReplaced i positions' ts1 in
  let ts3 := onPendingOrdersReplaced i orders' ts2 in
  let ts4 := onPositionsSynchronized i synchronizationId ts3 in
  let ts5 := onPendingOrdersSynchronized i synchronizationId ts4 in
  combinedState ts4 = combinedState ts
  /\ positions (combinedState ts5) = positions'
  /\ orders (combinedState ts5) = orders'
  /\ get_positions ts5 = read_positionArray positions' ts
  /\ get_orders ts5 = read_orderArray orders' ts
  /\ positionsInitialized (combinedState ts5) = true
  /\ ordersInitialized (combinedState ts5) = true
  /\ removedPositions (combinedState ts5) = ∅
  /\ completedOrders (combinedState ts5) = ∅
  /\ get_accountInformation ts5 = None
  /\ pricesBySymbol (combinedState ts5) = pricesBySymbol (combinedState ts)
  /\ positions (get_state (Instance i) ts5) = positions'
  /\ orders (get_state (Instance i) ts5) = orders'.
Proof.
  intros ts1 ts2 ts3 ts4 ts5.
  destruct (onSynchronizationStarted_instance
              i specificationsUpdated positionsUpdated ordersUpdated ts)
    as [Hthere1 Haccount1].
  fold ts1 in Hthere1, Haccount1.
  assert (Hkept : store_kept ts ts4).
  { eapply store_kept_trans; [apply store_kept_onSynchronizationStarted|]. fold ts1.
    eapply store_kept_trans;
      [eapply store_kept_trans;
         [apply store_kept_getState|apply store_kept_modify_instance]|].
    eapply store_kept_trans;
      [eapply store_kept_trans;
         [apply store_kept_getState|apply store_kept_modify_instance]|].
    eapply store_kept_trans;
      [apply store_kept_getState|apply store_kept_modify_instance]. }
  assert (Hts2 : ts2 = modify_state (Instance i) (set_positions positions') ts1).
  { unfold ts2, onPositionsReplaced. by rewrite Hthere1. }
  assert (Hts3 : ts3 = modify_state (Instance i) (set_orders orders') ts2).
  { unfold ts3, onPendingOrdersReplaced. by rewrite Hts2, modify_instance_getState. }
  assert (Hts4 : ts4 = modify_state (Instance i)
                         (fun st => set_positionsInitialized true (set_removedPositions ∅ st))
                         ts3).
  { unfold ts4, onPositionsSynchronized. by rewrite Hts3, modify_instance_getState. }
  assert (Hstate4 : get_state (Instance i) ts4
                    = set_positionsInitialized true
                        (set_removedPositions ∅
                           (set_orders orders'
                              (set_positions positions' (get_state (Instance i) ts1))))).
  { by rewrite Hts4, get_modify_same, Hts3, get_modify_same, Hts2, get_modify_same. }
  assert (Hthere4 : _getState i ts4 = ts4).
  { rewrite Hts4. apply modify_instance_getState. }
  set (promote := fun st : State =>
         set_ordersInitialized true (set_positionsInitialized true (set_completedOrders ∅ st))).
  assert (Hts5 : combinedState ts5
                 = set_removedPositions ∅
                     (set_completedOrders ∅
                        (set_ordersInitialized true
                           (set_positionsInitialized true
                              (set_specificationsBySymbol
                                 (specificationsBySymbol (promote (get_state (Instance i) ts4)))
                                 (set_orders (orders (promote (get_state (Instance i) ts4)))
                                    (set_positions
                                       (positions (promote (get_state (Instance i) ts4)))
                                       (set_accountInformation
                                          (accountInformation
                                             (promote (get_state (Instance i) ts4)))
                                          (combinedState ts4))))))))).
  { unfold ts5, onPendingOrdersSynchronized. rewrite Hthere4.
    change (combinedState (modify_state Combined ?f ?t)) with (f (get_state Combined t)).
    rewrite get_modify_same. fold promote.
    change (get_state Combined (modify_state (Instance i) promote ts4))
      with (combinedState ts4). reflexivity. }
  assert (Hheap5 : heap ts5 = heap ts4).
  { unfold ts5, onPendingOrdersSynchronized. rewrite Hthere4. reflexivity. }
  assert (Hi5 : get_state (Instance i) ts5 = promote (get_state (Instance i) ts4)).
  { unfold ts5, onPendingOrdersSynchronized. rewrite Hthere4.
    unfold modify_state at 1. rewrite get_put_instance_combined. apply get_modify_same. }
  clearbody ts1 ts2 ts3 ts4 ts5.
  split; [apply (kept_combinedState _ _ Hkept)|].
  rewrite Hstate4 in Hts5, Hi5. cbn in Hts5, Hi5.
  split; [by rewrite Hts5|]. split; [by rewrite Hts5|].
  split.
  { unfold get_positions, read_positionArray. rewrite Hheap5, Hts5. cbn.
    apply (kept_positionArrays _ _ Hkept). }
  split.
  { unfold get_orders, read_orderArray. rewrite Hheap5, Hts5. cbn.
    apply (kept_orderArrays _ _ Hkept). }
  split; [by rewrite Hts5|]. split; [by rewrite Hts5|]. split; [by rewrite Hts5|].
  split; [by rewrite Hts5|].
  split; [unfold get_accountInformation; rewrite Hts5; cbn; exact Haccount1|].
  split; [rewrite Hts5; cbn; by rewrite (kept_combinedState _ _ Hkept)|].
  change (get_state (Instance i) ts5) with (stateByInstanceIndex ts5 !!! i).
  split; by rewrite Hi5.
Qed.

End Synchronization.

(** ** What a price update leaves alone *)

Section Quotes.
Import JS TerminalState TerminalStateReads.
Context `{Runtime}.

Lemma with_quotes_of_same st : with_quotes_of st st = st.
Proof. by destruct st. Qed.

Lemma quoted_refl ts : quoted ts ts.
Proof. constructor; auto. apply with_quotes_of_same. Qed.

Lemma with_quotes_of_trans st1 st2 st3 :
  with_quotes_of st1 st2 = st1 -> with_quotes_of st2 st3 = st2 ->
  with_quotes_of st1 st3 = st1.
Proof.
  destruct st1, st2, st3. unfold with_quotes_of. simpl.
  intros E1 E2. injection E1 as -> -> -> -> -> -> -> -> -> ->.
  injection E2 as -> -> -> -> -> -> -> -> -> ->. reflexivity.
Qed.

Lemma quoted_trans ts1 ts2 ts3 : quoted ts1 ts2 -> quoted ts2 ts3 -> quoted ts1 ts3.
Proof.
  intros F G. constructor.
  - eapply with_quotes_of_trans; [apply (quoted_combinedState _ _ F)
                                  |apply (quoted_combinedState _ _ G)].
  - intros l. by rewrite (quoted_positionArrays _ _ G), (quoted_positionArrays _ _ F).
  - intros l. by rewrite (quoted_orderArrays _ _ G), (quoted_orderArrays _ _ F).
  - intros l k Hk. by rewrite (quoted_position _ _ G), (quoted_position _ _ F).
  - intros l k Hk. by rewrite (quoted_order _ _ G), (quoted_order _ _ F).
  - intros l k Hk. by rewrite (quoted_account _ _ G), (quoted_account _ _ F).
Qed.

Lemma quoted_store_kept ts ts' : store_kept ts ts' -> quoted ts ts'.
Proof.
  intros K. constructor.
  - rewrite (kept_combinedState _ _ K). apply with_quotes_of_same.
  - apply (kept_positionArrays _ _ K).
  - apply (kept_orderArrays _ _ K).
  - intros l k _. unfold read_position. by rewrite (kept_positionObjects _ _ K).
  - intros l k _. unfold read_order. by rewrite (kept_orderObjects _ _ K).
  - intros l k _. unfold read_account. by rewrite (kept_accountObjects _ _ K).
Qed.

Lemma quoted_modify tgt f ts :
  (forall st, with_quotes_of st (f st) = st) -> quoted ts (modify_state tgt f ts).
Proof.
  intros Hf. constructor;
    unfold read_positionArray, read_orderArray, read_position, read_order, read_account;
    rewrite ?heap_modify_state; auto.
  destruct tgt; simpl; [apply with_quotes_of_same|apply Hf].
Qed.

Lemma quoted_same_heap ts ts' : same_states ts ts' -> heap ts' = heap ts -> quoted ts ts'.
Proof.
  intros [_ Hc] Hh. constructor;
    unfold read_positionArray, read_orderArray, read_position, read_order, read_account;
    rewrite ?Hh; auto.
  rewrite Hc. apply with_quotes_of_same.
Qed.

Lemma quoted_updatePositionProfits position p ts :
  quoted ts (_updatePositionProfits position p ts).
Proof.
  unfold _updatePositionProfits.
  destruct (specification _ ts) as [spec|]; [|apply quoted_refl].
  constructor; try done; [apply with_quotes_of_same|].
  intros l k Hk. destruct (decide (l = position)) as [->|Hne].
  - destruct (read_position_write_eq position
                (updatePositionProfits_fields (found_fields spec) p
                   (read_position position ts)) ts)
      as [-> | ->]; [|done].
    unfold profit_fields in Hk. rewrite !not_elem_of_cons in Hk.
    apply updatePositionProfits_fields_other; tauto.
  - by rewrite read_position_write_ne.
Qed.

Lemma quoted_write_currentPrice order v ts :
  quoted ts (write_order order (prop_set "currentPrice" v (read_order order ts)) ts).
Proof.
  constructor; try done; [apply with_quotes_of_same|].
  intros l k Hk. unfold read_order, write_order. simpl.
  destruct (decide (l = order)) as [->|Hne].
  - destruct (decide (order < length (orderObjects (heap ts)))).
    + rewrite list_lookup_total_insert_eq by done. by apply prop_get_set_ne.
    + rewrite list_insert_ge; [done|lia].
  - by rewrite list_lookup_total_insert_ne.
Qed.

Lemma quoted_update_otherPositions state others ts :
  quoted ts (update_otherPositions state others ts).1.
Proof.
  unfold update_otherPositions.
  apply (fold_left_preserves (fun acc => quoted ts acc.1)); [|apply quoted_refl].
  intros [ts' b] position F. simpl in *.
  destruct (price_found state _); simpl; auto.
  destruct (is_undefined _); auto.
  eapply quoted_trans; [exact F|]. apply quoted_updatePositionProfits.
Qed.

Lemma quoted_update_positions price positions ts :
  quoted ts (update_positions price positions ts).
Proof.
  unfold update_positions.
  apply (fold_left_preserves (quoted ts)); [|apply quoted_refl].
  intros ts' position F.
  eapply quoted_trans; [exact F|]. apply quoted_updatePositionProfits.
Qed.

Lemma quoted_update_orders price orders ts :
  quoted ts (update_orders price orders ts).
Proof.
  unfold update_orders.
  apply (fold_left_preserves (quoted ts)); [|apply quoted_refl].
  intros ts' order F.
  eapply quoted_trans; [exact F|]. apply quoted_write_currentPrice.
Qed.

Lemma quoted_resolve_price symbol ts : quoted ts (resolve_price symbol ts).
Proof.
  unfold resolve_price. destruct (default [] _); [apply quoted_refl|].
  by apply quoted_same_heap.
Qed.

Lemma quoted_updateSymbolPrice tgt price ts :
  quoted ts (updateSymbolPrice tgt price ts).1.
Proof.
  unfold updateSymbolPrice. cbv zeta.
  set (ts1 := modify_state tgt (set_price price) ts).
  assert (F1 : quoted ts ts1) by (apply quoted_modify; by intros []).
  match goal with
  | |- context [update_otherPositions ?st ?l ts1] =>
      pose proof (quoted_update_otherPositions st l ts1) as F2;
      destruct (update_otherPositions st l ts1) as [ts2 initialized]
  end.
  simpl in *.
  eapply quoted_trans; [exact F1|].
  eapply quoted_trans; [exact F2|].
  eapply quoted_trans; [apply quoted_update_positions|].
  eapply quoted_trans; [apply quoted_update_orders|].
  apply quoted_resolve_price.
Qed.

Lemma quoted_update_prices tgt prices ts : quoted ts (update_prices tgt prices ts).1.
Proof.
  unfold update_prices.
  apply (fold_left_preserves (fun acc => quoted ts acc.1)); [|apply quoted_refl].
  intros [ts' b] price F. simpl in *.
  eapply quoted_trans; [exact F|]. apply quoted_updateSymbolPrice.
Qed.

Lemma quoted_update_accountInformation
    pricesInitialized equity margin freeMargin marginLevel tgt ts :
  quoted ts (update_accountInformation pricesInitialized equity margin freeMargin
               marginLevel tgt ts).
Proof.
  unfold update_accountInformation. cbv zeta.
  destruct (accountInformation (get_state tgt ts)) as [a|]; [|apply quoted_refl].
  constructor; try done; [apply with_quotes_of_same|].
  intros l k Hk. unfold read_account, write_account. simpl.
  destruct (decide (l = a)) as [->|Hne].
  - destruct (decide (a < length (accountObjects (heap ts)))).
    + rewrite list_lookup_total_insert_eq by done.
      by apply updateAccountInformation_fields_other.
    + rewrite list_insert_ge; [done|lia].
  - by rewrite list_lookup_total_insert_ne.
Qed.

Lemma quoted_updateSymbolPrices prices times equity margin freeMargin marginLevel tgt ts :
  quoted ts (updateSymbolPrices prices times equity margin freeMargin marginLevel tgt ts).
Proof.
  unfold updateSymbolPrices. cbv zeta.
  set (ts1 := modify_state tgt _ ts).
  assert (F1 : quoted ts ts1) by (apply quoted_modify; by intros []).
  pose proof (quoted_update_prices tgt prices ts1) as F2.
  destruct (update_prices tgt prices ts1) as [ts2 initialized]. simpl in F2.
  eapply quoted_trans; [exact F1|].
  eapply quoted_trans; [exact F2|].
  apply quoted_update_accountInformation.
Qed.

Lemma quoted_onSymbolPricesUpdated i prices equity margin freeMargin marginLevel ts :
  quoted ts (state_after (onSymbolPricesUpdated i prices equity margin freeMargin
                            marginLevel ts)).
Proof.
  unfold onSymbolPricesUpdated. cbv zeta.
  assert (F0 : quoted ts (_getState i ts)) by apply quoted_store_kept, store_kept_getState.
  destruct (mapM getTime prices) as [times|]; simpl; [|exact F0].
  eapply quoted_trans; [exact F0|].
  eapply quoted_trans; apply quoted_updateSymbolPrices.
Qed.

(** X18.  What a price update leaves alone.  After
    [onSymbolPricesUpdated], whether it returns or throws, the getters
    [positions] and [orders] return arrays holding the same positions and
    orders in the same order, and [accountInformation] the same object:
    none is added, removed or replaced.  The combined state differs at
    most in [pricesBySymbol] and [lastUpdateTime].  Of a position only
    [profit], [unrealizedProfit], [realizedProfit], [currentPrice] and
    [currentTickValue] can have changed; of an order only
    [currentPrice]; of the account information only [equity], [margin],
    [freeMargin] and [marginLevel]. *)
Theorem price_update_writes_quotes_only
    i prices equity margin freeMargin marginLevel ts :
  let ts' :=
    state_after (onSymbolPricesUpdated i prices equity margin freeMargin marginLevel ts) in
  get_positions ts' = get_positions ts
  /\ get_orders ts' = get_orders ts
  /\ get_accountInformation ts' = get_accountInformation ts
  /\ with_quotes_of (combinedState ts) (combinedState ts') = combinedState ts
  /\ (forall position k,
        k ∉ profit_fields ->
        prop_get k (read_position position ts') = prop_get k (read_position position ts))
  /\ (forall order k,
        k ≠ "currentPrice" ->
        prop_get k (read_order order ts') = prop_get k (read_order order ts))
  /\ (forall account k,
        k ∉ margin_fields ->
        prop_get k (read_account account ts') = prop_get k (read_account account ts)).
Proof.
  intros ts'.
  pose proof (quoted_onSymbolPricesUpdated i prices equity margin freeMargin marginLevel ts)
    as F.
  fold ts' in F. clearbody ts'.
  pose proof (quoted_combinedState _ _ F) as Hc.
  assert (Hp : positions (combinedState ts') = positions (combinedState ts)).
  { apply (f_equal positions) in Hc. exact Hc. }
  assert (Ho : orders (combinedState ts') = orders (combinedState ts)).
  { apply (f_equal orders) in Hc. exact Hc. }
  assert (Ha : accountInformation (combinedState ts') = accountInformation (combinedState ts)).
  { apply (f_equal accountInformation) in Hc. exact Hc. }
  unfold get_positions, get_orders, get_accountInformation.
  rewrite Hp, Ho, Ha, (quoted_positionArrays _ _ F), (quoted_orderArrays _ _ F).
  repeat split; try done.
  - apply (quoted_position _ _ F).
  - apply (quoted_order _ _ F).
  - apply (quoted_account _ _ F).
Qed.

End Quotes.

(** ** Updates of positions and orders as seen by the getters *)

Section Upserts.
Import JS TerminalState TerminalStateReads.
Context `{Runtime}.

Lemma findIndex_bound {A} (f : A -> bool) (l : list A) index :
  findIndex f l = Some index -> index < length l.
Proof.
  revert index. induction l as [|x l IH]; intros index; cbn [findIndex]; [done|].
  destruct (f x); [intros [= <-]; simpl; lia|].
  destruct (findIndex f l) as [n|]; [|done]. intros [= <-]. specialize (IH n eq_refl).
  simpl. lia.
Qed.

Lemma findIndex_insert {A} (f : A -> bool) (l : list A) index x :
  findIndex f l = Some index -> f x = true -> findIndex f (<[index := x]> l) = Some index.
Proof.
  revert index. induction l as [|y l IH]; intros index; cbn [findIndex]; [done|].
  destruct (f y) eqn:Hy.
  - intros [= <-] Hx. simpl. by rewrite Hx.
  - destruct (findIndex f l) as [n|] eqn:E; [|done]. intros [= <-] Hx.
    simpl. rewrite Hy. by rewrite (IH n eq_refl Hx).
Qed.

Lemma findIndex_push {A} (f : A -> bool) (l : list A) x :
  findIndex f l = None -> f x = true -> findIndex f (l ++ [x]) = Some (length l).
Proof.
  induction l as [|y l IH]; cbn [findIndex app length]; intros Hnone Hx.
  - by rewrite Hx.
  - destruct (f y); [done|]. destruct (findIndex f l); [done|].
    by rewrite IH.
Qed.

Lemma insert_pushed {A} (l : list A) x : <[length l := x]> (l ++ [x]) = l ++ [x].
Proof. apply list_insert_id. by rewrite list_lookup_middle. Qed.

(** Finding, then assigning or pushing, a second time in the array the
    first time left. *)
Lemma upsert_again (f : loc -> bool) item pushed pushed' array :
  f item = true ->
  upsert (findIndex f (upsert (findIndex f array) pushed item array)) pushed' item
         (upsert (findIndex f array) pushed item array)
  = upsert (findIndex f array) (pushed || pushed') item array.
Proof.
  intros Hitem. destruct (findIndex f array) as [index|] eqn:E; cbn [upsert].
  - rewrite (findIndex_insert _ _ _ _ E Hitem). cbn [upsert].
    apply list_insert_insert_eq.
  - destruct pushed; cbn [orb].
    + rewrite (findIndex_push _ _ _ E Hitem). cbn [upsert]. apply insert_pushed.
    + by rewrite E.
Qed.

Lemma _getState_positionArrays_length i ts :
  length (positionArrays (heap ts)) <= length (positionArrays (heap (_getState i ts))).
Proof.
  unfold _getState. destruct (stateByInstanceIndex ts !! i); [done|].
  cbn. rewrite length_app. lia.
Qed.

Lemma _getState_orderArrays_length i ts :
  length (orderArrays (heap ts)) <= length (orderArrays (heap (_getState i ts))).
Proof.
  unfold _getState. destruct (stateByInstanceIndex ts !! i); [done|].
  cbn. rewrite length_app. lia.
Qed.

(** What [updatePosition(state)] leaves in the array of the state, in
    the other arrays and in the rest of the store. *)
Lemma updatePosition_array position tgt ts :
  let id := prop_get "id" (read_position position ts) in
  positions (get_state tgt ts) < length (positionArrays (heap ts)) ->
  read_positionArray (positions (get_state tgt ts)) (updatePosition position tgt ts)
  = upsert (position_index id tgt ts)
           (negb (timestamp_truthy (removedPositions (get_state tgt ts)) (ToString id)))
           position (read_positionArray (positions (get_state tgt ts)) ts).
Proof.
  intros id Hvalid. unfold updatePosition, position_index. cbv zeta. fold id.
  destruct (findIndex _ _) as [index|]; cbn [upsert].
  - unfold read_positionArray, write_positionArray. simpl.
    by rewrite list_lookup_total_insert_eq.
  - destruct (negb _); [|done].
    unfold read_positionArray, write_positionArray. simpl.
    by rewrite list_lookup_total_insert_eq.
Qed.

Lemma updatePosition_other_array position tgt ts l :
  l ≠ positions (get_state tgt ts) ->
  read_positionArray l (updatePosition position tgt ts) = read_positionArray l ts.
Proof.
  intros Hl. unfold updatePosition. cbv zeta.
  destruct (findIndex _ _) as [index|]; [|destruct (negb _); [|done]];
    unfold read_positionArray, write_positionArray; simpl;
    by rewrite list_lookup_total_insert_ne.
Qed.

Lemma updatePosition_store position tgt ts :
  positionObjects (heap (updatePosition position tgt ts)) = positionObjects (heap ts)
  /\ length (positionArrays (heap (updatePosition position tgt ts)))
     = length (positionArrays (heap ts)).
Proof.
  unfold updatePosition. cbv zeta.
  destruct (findIndex _ _) as [index|]; [|destruct (negb _); [|done]];
    unfold write_positionArray; simpl; by rewrite length_insert.
Qed.

(** X19.  [onPositionUpdated] as the getter [positions] sees it.  The
    position takes the place of the first position of the array that has
    its id.  When there is none it is pushed at the end if
    [removedPositions[id]] of the combined state is falsy, and also if
    the instance state shares the array and its own
    [removedPositions[id]] is falsy; else the array stays as it is.  The
    read is truthy for a tombstone that is not [0] and, without a
    tombstone, for an id that is the name of a member of
    [Object.prototype]: a position with such an id, [constructor] or
    [toString], is never pushed.  Nothing else in the array moves.  The id
    is any value but [NaN], and the array of the combined state is in the
    store. *)
Theorem position_update_is_an_upsert i position ts :
  let ts0 := _getState i ts in
  let id := prop_get "id" (read_position position ts) in
  positions (combinedState ts) < length (positionArrays (heap ts)) ->
  strict_eq id id = true ->
  get_positions (onPositionUpdated i position ts)
  = match position_index id Combined ts with
    | Some index => <[index := position]> (get_positions ts)
    | None =>
        if negb (timestamp_truthy (removedPositions (combinedState ts)) (ToString id))
           || positions_shared i ts0
              && negb (timestamp_truthy
                         (removedPositions (get_state (Instance i) ts0)) (ToString id))
        then get_positions ts ++ [position]
        else get_positions ts
    end
  /\ (inherited (ToString id) = true ->
      removedPositions (combinedState ts) !! ToString id <> Some 0%Z ->
      removedPositions (get_state (Instance i) ts0) !! ToString id <> Some 0%Z ->
      position_index id Combined ts = None ->
      get_positions (onPositionUpdated i position ts) = get_positions ts).
Proof.
  intros ts0 id Hvalid Hid.
  assert (Hmain :
            get_positions (onPositionUpdated i position ts)
            = match position_index id Combined ts with
              | Some index => <[index := position]> (get_positions ts)
              | None =>
                  if negb (timestamp_truthy (removedPositions (combinedState ts)) (ToString id))
                     || positions_shared i ts0
                        && negb (timestamp_truthy
                                   (removedPositions (get_state (Instance i) ts0)) (ToString id))
                  then get_positions ts ++ [position]
                  else get_positions ts
              end).
  {
    pose proof (store_kept_getState i ts) as K0. fold ts0 in K0.
    pose proof (_getState_positionArrays_length i ts) as Hlen0. fold ts0 in Hlen0.
    unfold onPositionUpdated. cbv zeta. fold ts0.
    set (ts1 := updatePosition position (Instance i) ts0).
    destruct (same_states_updatePosition position (Instance i) ts0) as [_ Hc1]. fold ts1 in Hc1.
    destruct (updatePosition_store position (Instance i) ts0) as [Hobj1 Hlen1].
    fold ts1 in Hobj1, Hlen1.
    destruct (same_states_updatePosition position Combined ts1) as [_ Hc2].
    assert (Hobj0 : forall l, read_position l ts0 = read_position l ts).
    { intros l. unfold read_position. by rewrite (kept_positionObjects _ _ K0). }
    assert (Hread1 : forall l, read_position l ts1 = read_position l ts).
    { intros l. unfold read_position. by rewrite Hobj1, (kept_positionObjects _ _ K0). }
    pose proof (kept_combinedState _ _ K0) as Hc0.
    set (a := positions (combinedState ts)).
    assert (Ha1 : positions (get_state Combined ts1) = a).
    { cbn [get_state]. by rewrite Hc1, Hc0. }
    set (f := fun p => strict_eq (prop_get "id" (read_position p ts)) id).
    assert (Hf : f position = true) by exact Hid.
    set (array := read_positionArray a ts).
    assert (Hindex : forall tgt ts', positions (get_state tgt ts') = a ->
                                     positionObjects (heap ts') = positionObjects (heap ts) ->
                                     position_index (prop_get "id" (read_position position ts'))
                                       tgt ts'
                                     = findIndex f (read_positionArray a ts')).
    { intros tgt ts' Htgt Hobj. unfold position_index, read_position.
      by rewrite Htgt, Hobj. }
    pose proof (kept_positionObjects _ _ K0) as Hobjects0.
    assert (Hobjects1 : positionObjects (heap ts1) = positionObjects (heap ts)).
    { by rewrite Hobj1. }
    unfold get_positions at 1. rewrite Hc2, Hc1, Hc0. fold a.
    replace a with (positions (get_state Combined ts1)) at 1 by exact Ha1.
    rewrite updatePosition_array by (rewrite Ha1, Hlen1; unfold a; lia).
    rewrite (Hindex Combined ts1 Ha1 Hobjects1), Ha1, Hread1. fold id.
    cbn [get_state]. rewrite Hc1, Hc0.
    unfold position_index, get_positions. cbn [get_state]. fold a f array.
    unfold positions_shared. rewrite Hc0. fold a.
    case_bool_decide as Hshared.
    - assert (Harray1 : read_positionArray a ts1
                        = upsert (findIndex f array)
                            (negb (timestamp_truthy
                                     (removedPositions (get_state (Instance i) ts0)) (ToString id)))
                            position array).
      { unfold ts1. rewrite <- Hshared at 1.
        rewrite updatePosition_array by (rewrite Hshared; lia).
        rewrite (Hindex (Instance i) ts0 Hshared Hobjects0), Hshared, Hobj0. fold id.
        by rewrite (kept_positionArrays _ _ K0). }
      rewrite Harray1, (upsert_again f) by exact Hf.
      unfold upsert. destruct (findIndex f array); [done|].
      rewrite andb_true_l, orb_comm. done.
    - assert (Harray1 : read_positionArray a ts1 = array).
      { unfold ts1. rewrite updatePosition_other_array by congruence.
        apply (kept_positionArrays _ _ K0). }
      rewrite Harray1. unfold upsert. destruct (findIndex f array); [done|].
      by rewrite andb_false_l, orb_false_r.
  }
  split; [exact Hmain|].
  intros Hinherited Hcombined Hinstance Hnone. rewrite Hmain, Hnone.
  assert (Htruthy : forall timestamps : gmap string Z,
                      timestamps !! ToString id <> Some 0%Z ->
                      timestamp_truthy timestamps (ToString id) = true).
  { intros timestamps Hzero. unfold timestamp_truthy.
    destruct (timestamps !! ToString id) as [t|]; [|exact Hinherited].
    destruct (Z.eqb_spec t 0) as [->|]; [done|reflexivity]. }
  rewrite (Htruthy _ Hcombined), (Htruthy _ Hinstance). cbn [negb orb].
  by rewrite andb_false_r.
Qed.

(** The same for [updatePendingOrder(state)]. *)
Lemma updatePendingOrder_array order tgt ts :
  let id := prop_get "id" (read_order order ts) in
  orders (get_state tgt ts) < length (orderArrays (heap ts)) ->
  read_orderArray (orders (get_state tgt ts)) (updatePendingOrder order tgt ts)
  = upsert (order_index id tgt ts)
           (negb (timestamp_truthy (completedOrders (get_state tgt ts)) (ToString id)))
           order (read_orderArray (orders (get_state tgt ts)) ts).
Proof.
  intros id Hvalid. unfold updatePendingOrder, order_index. cbv zeta. fold id.
  destruct (findIndex _ _) as [index|]; cbn [upsert].
  - unfold read_orderArray, write_orderArray. simpl.
    by rewrite list_lookup_total_insert_eq.
  - destruct (negb _); [|done].
    unfold read_orderArray, write_orderArray. simpl.
    by rewrite list_lookup_total_insert_eq.
Qed.

Lemma updatePendingOrder_other_array order tgt ts l :
  l ≠ orders (get_state tgt ts) ->
  read_orderArray l (updatePendingOrder order tgt ts) = read_orderArray l ts.
Proof.
  intros Hl. unfold updatePendingOrder. cbv zeta.
  destruct (findIndex _ _) as [index|]; [|destruct (negb _); [|done]];
    unfold read_orderArray, write_orderArray; simpl;
    by rewrite list_lookup_total_insert_ne.
Qed.

Lemma updatePendingOrder_store order tgt ts :
  orderObjects (heap (updatePendingOrder order tgt ts)) = orderObjects (heap ts)
  /\ length (orderArrays (heap (updatePendingOrder order tgt ts)))
     = length (orderArrays (heap ts)).
Proof.
  unfold updatePendingOrder. cbv zeta.
  destruct (findIndex _ _) as [index|]; [|destruct (negb _); [|done]];
    unfold write_orderArray; simpl; by rewrite length_insert.
Qed.

(** X20.  [onPendingOrderUpdated] as the getter [orders] sees it.  The
    order takes the place of the first order of the array that has its
    id.  When there is none it is pushed at the end if
    [completedOrders[id]] of the combined state is falsy, and also if the
    instance state shares the array and its own [completedOrders[id]] is
    falsy; else the array stays as it is.  The read is truthy for a
    completion time that is not [0] and, without one, for an id that is
    the name of a member of [Object.prototype]: an order with such an id,
    [constructor] or [toString], is never pushed.  Nothing else in the
    array moves.  The id is any value but [NaN], and the array of the
    combined state is in the store. *)
Theorem order_update_is_an_upsert i order ts :
  let ts0 := _getState i ts in
  let id := prop_get "id" (read_order order ts) in
  orders (combinedState ts) < length (orderArrays (heap ts)) ->
  strict_eq id id = true ->
  get_orders (onPendingOrderUpdated i order ts)
  = match order_index id Combined ts with
    | Some index => <[index := order]> (get_orders ts)
    | None =>
        if negb (timestamp_truthy (completedOrders (combinedState ts)) (ToString id))
           || orders_shared i ts0
              && negb (timestamp_truthy
                         (completedOrders (get_state (Instance i) ts0)) (ToString id))
        then get_orders ts ++ [order]
        else get_orders ts
    end
  /\ (inherited (ToString id) = true ->
      completedOrders (combinedState ts) !! ToString id <> Some 0%Z ->
      completedOrders (get_state (Instance i) ts0) !! ToString id <> Some 0%Z ->
      order_index id Combined ts = None ->
      get_orders (onPendingOrderUpdated i order ts) = get_orders ts).
Proof.
  intros ts0 id Hvalid Hid.
  assert (Hmain :
            get_orders (onPendingOrderUpdated i order ts)
            = match order_index id Combined ts with
              | Some index => <[index := order]> (get_orders ts)
              | None =>
                  if negb (timestamp_truthy (completedOrders (combinedState ts)) (ToString id))
                     || orders_shared i ts0
                        && negb (timestamp_truthy
                                   (completedOrders (get_state (Instance i) ts0)) (ToString id))
                  then get_orders ts ++ [order]
                  else get_orders ts
              end).
  {
    pose proof (store_kept_getState i ts) as K0. fold ts0 in K0.
    pose proof (_getState_orderArrays_length i ts) as Hlen0. fold ts0 in Hlen0.
    unfold onPendingOrderUpdated. cbv zeta. fold ts0.
    set (ts1 := updatePendingOrder order (Instance i) ts0).
    destruct (same_states_updatePendingOrder order (Instance i) ts0) as [_ Hc1]. fold ts1 in Hc1.
    destruct (updatePendingOrder_store order (Instance i) ts0) as [Hobj1 Hlen1].
    fold ts1 in Hobj1, Hlen1.
    destruct (same_states_updatePendingOrder order Combined ts1) as [_ Hc2].
    assert (Hobj0 : forall l, read_order l ts0 = read_order l ts).
    { intros l. unfold read_order. by rewrite (kept_orderObjects _ _ K0). }
    assert (Hread1 : forall l, read_order l ts1 = read_order l ts).
    { intros l. unfold read_order. by rewrite Hobj1, (kept_orderObjects _ _ K0). }
    pose proof (kept_combinedState _ _ K0) as Hc0.
    set (a := orders (combinedState ts)).
    assert (Ha1 : orders (get_state Combined ts1) = a).
    { cbn [get_state]. by rewrite Hc1, Hc0. }
    set (f := fun o => strict_eq (prop_get "id" (read_order o ts)) id).
    assert (Hf : f order = true) by exact Hid.
    set (array := read_orderArray a ts).
    assert (Hindex : forall tgt ts', orders (get_state tgt ts') = a ->
                                     orderObjects (heap ts') = orderObjects (heap ts) ->
                                     order_index (prop_get "id" (read_order order ts'))
                                       tgt ts'
                                     = findIndex f (read_orderArray a ts')).
    { intros tgt ts' Htgt Hobj. unfold order_index, read_order.
      by rewrite Htgt, Hobj. }
    pose proof (kept_orderObjects _ _ K0) as Hobjects0.
    assert (Hobjects1 : orderObjects (heap ts1) = orderObjects (heap ts)).
    { by rewrite Hobj1. }
    unfold get_orders at 1. rewrite Hc2, Hc1, Hc0. fold a.
    replace a with (orders (get_state Combined ts1)) at 1 by exact Ha1.
    rewrite updatePendingOrder_array by (rewrite Ha1, Hlen1; unfold a; lia).
    rewrite (Hindex Combined ts1 Ha1 Hobjects1), Ha1, Hread1. fold id.
    cbn [get_state]. rewrite Hc1, Hc0.
    unfold order_index, get_orders. cbn [get_state]. fold a f array.
    unfold orders_shared. rewrite Hc0. fold a.
    case_bool_decide as Hshared.
    - assert (Harray1 : read_orderArray a ts1
                        = upsert (findIndex f array)
                            (negb (timestamp_truthy
                                     (completedOrders (get_state (Instance i) ts0)) (ToString id)))
                            order array).
      { unfold ts1. rewrite <- Hshared at 1.
        rewrite updatePendingOrder_array by (rewrite Hshared; lia).
        rewrite (Hindex (Instance i) ts0 Hshared Hobjects0), Hshared, Hobj0. fold id.
        by rewrite (kept_orderArrays _ _ K0). }
      rewrite Harray1, (upsert_again f) by exact Hf.
      unfold upsert. destruct (findIndex f array); [done|].
      rewrite andb_true_l, orb_comm. done.
    - assert (Harray1 : read_orderArray a ts1 = array).
      { unfold ts1. rewrite updatePendingOrder_other_array by congruence.
        apply (kept_orderArrays _ _ K0). }
      rewrite Harray1. unfold upsert. destruct (findIndex f array); [done|].
      by rewrite andb_false_l, orb_false_r.
  }
  split; [exact Hmain|].
  intros Hinherited Hcombined Hinstance Hnone. rewrite Hmain, Hnone.
  assert (Htruthy : forall timestamps : gmap string Z,
                      timestamps !! ToString id <> Some 0%Z ->
                      timestamp_truthy timestamps (ToString id) = true).
  { intros timestamps Hzero. unfold timestamp_truthy.
    destruct (timestamps !! ToString id) as [t|]; [|exact Hinherited].
    destruct (Z.eqb_spec t 0) as [->|]; [done|reflexivity]. }
  rewrite (Htruthy _ Hcombined), (Htruthy _ Hinstance). cbn [negb orb].
  by rewrite andb_false_r.
Qed.

End Upserts.

(** ** The terminal state on closed runs *)

Section TerminalStateExamples.
Import JS TerminalState TerminalStateReads Example ListsExample.

(** The specification of EURUSD arrives on a new terminal state; and
    [constructor], of which there is no specification, is removed. *)
Lemma specification_after_update_witness :
  specificationsBySymbol (combinedState TerminalState.constructor)
  < length (specificationMaps (heap TerminalState.constructor))
  /\ forallb (fun spec => negb (String.eqb (ToString (prop_get "symbol" spec)) "__proto__"))
             [eurusd_specification] = true
  /\ specification "EURUSD"
       (onSymbolSpecificationsUpdated "0" [eurusd_specification] [] TerminalState.constructor)
     = Some (Own eurusd_specification)
  /\ specification "EURUSD"
       (onSymbolSpecificationsUpdated "0" [eurusd_specification] [VStr "EURUSD"]
          TerminalState.constructor)
     = None
  /\ specification "constructor"
       (onSymbolSpecificationsUpdated "0" [eurusd_specification] [VStr "constructor"]
          TerminalState.constructor)
     = Some (Inherited "constructor").
Proof.
  assert (Hvalid : specificationsBySymbol (combinedState TerminalState.constructor)
                   < length (specificationMaps (heap TerminalState.constructor))).
  { vm_compute. lia. }
  assert (Hnames : forallb (fun spec => negb (String.eqb (ToString (prop_get "symbol" spec))
                                                         "__proto__"))
                           [eurusd_specification] = true) by reflexivity.
  split; [exact Hvalid|]. split; [exact Hnames|]. split; [|split].
  - rewrite (specification_after_update "0" [eurusd_specification] [] "EURUSD"
               TerminalState.constructor Hvalid Hnames).
    reflexivity.
  - rewrite (specification_after_update "0" [eurusd_specification] [VStr "EURUSD"] "EURUSD"
               TerminalState.constructor Hvalid Hnames).
    reflexivity.
  - rewrite (specification_after_update "0" [eurusd_specification] [VStr "constructor"]
               "constructor" TerminalState.constructor Hvalid Hnames).
    reflexivity.
Defined.



(** Instance "0" holds order "46", which is then completed. *)
Lemma completed_order_leaves_the_lists_witness :
  orders (get_state (Instance "0") (_getState "0" holding))
  < length (orderArrays (heap (_getState "0" holding)))
  /\ orders (combinedState holding) < length (orderArrays (heap holding))
  /\ get_orders holding = [0]
  /\ get_orders (onPendingOrderCompleted "0" (VStr "46") 1000 holding) = [].
Proof.
  assert (Hinstance : orders (get_state (Instance "0") (_getState "0" holding))
                      < length (orderArrays (heap (_getState "0" holding)))).
  { vm_compute. lia. }
  assert (Hcombined : orders (combinedState holding) < length (orderArrays (heap holding))).
  { vm_compute. lia. }
  split; [exact Hinstance|]. split; [exact Hcombined|]. split; [reflexivity|].
  destruct (completed_order_leaves_the_lists "0" (VStr "46") 1000 holding Hinstance Hcombined)
    as (_ & Hget & _).
  rewrite Hget. reflexivity.
Defined.

(** Instance "0" holds position "42", which is then removed. *)
Lemma removed_position_leaves_the_lists_witness :
  positions (get_state (Instance "0") (_getState "0" holding))
  < length (positionArrays (heap (_getState "0" holding)))
  /\ positions (combinedState holding) < length (positionArrays (heap holding))
  /\ get_positions holding = [0]
  /\ get_positions (onPositionRemoved "0" (VStr "42") 1000 holding) = [].
Proof.
  assert (Hinstance : positions (get_state (Instance "0") (_getState "0" holding))
                      < length (positionArrays (heap (_getState "0" holding)))).
  { vm_compute. lia. }
  assert (Hcombined : positions (combinedState holding)
                      < length (positionArrays (heap holding))).
  { vm_compute. lia. }
  split; [exact Hinstance|]. split; [exact Hcombined|]. split; [reflexivity|].
  destruct (removed_position_leaves_the_lists "0" (VStr "42") 1000 holding Hinstance Hcombined)
    as (_ & Hget & _).
  rewrite Hget. reflexivity.
Defined.


(** Position "42" arrives twice at instance "0": it is pushed, and then
    takes its own place.  Position "constructor" is not pushed. *)
Lemma position_update_is_an_upsert_witness :
  positions (combinedState empty_handed) < length (positionArrays (heap empty_handed))
  /\ strict_eq (prop_get "id" (read_position 0 empty_handed))
               (prop_get "id" (read_position 0 empty_handed)) = true
  /\ get_positions (onPositionUpdated "0" 0 empty_handed) = [0]
  /\ get_positions (onPositionUpdated "0" 0 (onPositionUpdated "0" 0 empty_handed)) = [0]
  /\ get_positions (onPositionUpdated "0" 1 empty_handed) = [].
Proof.
  assert (Hvalid : positions (combinedState empty_handed)
                   < length (positionArrays (heap empty_handed))).
  { vm_compute. lia. }
  assert (Hid : strict_eq (prop_get "id" (read_position 0 empty_handed))
                          (prop_get "id" (read_position 0 empty_handed)) = true)
    by reflexivity.
  split; [exact Hvalid|]. split; [exact Hid|]. split; [|split].
  - rewrite (proj1 (position_update_is_an_upsert "0" 0 empty_handed Hvalid Hid)).
    reflexivity.
  - assert (Hvalid' : positions (combinedState (onPositionUpdated "0" 0 empty_handed))
                      < length (positionArrays (heap (onPositionUpdated "0" 0 empty_handed)))).
    { vm_compute. lia. }
    rewrite (proj1 (position_update_is_an_upsert "0" 0 (onPositionUpdated "0" 0 empty_handed)
                      Hvalid' eq_refl)).
    reflexivity.
  - rewrite (proj2 (position_update_is_an_upsert "0" 1 empty_handed Hvalid eq_refl));
      [reflexivity|reflexivity|discriminate|discriminate|reflexivity].
Defined.

(** The same for the orders "46" and "toString". *)
Lemma order_update_is_an_upsert_witness :
  orders (combinedState empty_handed) < length (orderArrays (heap empty_handed))
  /\ strict_eq (prop_get "id" (read_order 0 empty_handed))
               (prop_get "id" (read_order 0 empty_handed)) = true
  /\ get_orders (onPendingOrderUpdated "0" 0 empty_handed) = [0]
  /\ get_orders (onPendingOrderUpdated "0" 0 (onPendingOrderUpdated "0" 0 empty_handed))
     = [0]
  /\ get_orders (onPendingOrderUpdated "0" 1 empty_handed) = [].
Proof.
  assert (Hvalid : orders (combinedState empty_handed)
                   < length (orderArrays (heap empty_handed))).
  { vm_compute. lia. }
  assert (Hid : strict_eq (prop_get "id" (read_order 0 empty_handed))
                          (prop_get "id" (read_order 0 empty_handed)) = true)
    by reflexivity.
  split; [exact Hvalid|]. split; [exact Hid|]. split; [|split].
  - rewrite (proj1 (order_update_is_an_upsert "0" 0 empty_handed Hvalid Hid)).
    reflexivity.
  - assert (Hvalid' : orders (combinedState (onPendingOrderUpdated "0" 0 empty_handed))
                      < length (orderArrays (heap (onPendingOrderUpdated "0" 0 empty_handed)))).
    { vm_compute. lia. }
    rewrite (proj1 (order_update_is_an_upsert "0" 0 (onPendingOrderUpdated "0" 0 empty_handed)
                      Hvalid' eq_refl)).
    reflexivity.
  - rewrite (proj2 (order_update_is_an_upsert "0" 1 empty_handed Hvalid eq_refl));
      [reflexivity|reflexivity|discriminate|discriminate|reflexivity].
Defined.

End TerminalStateExamples.
